(** * WhatsApp Wrapped: the chat parser and the statistics engine of [server.py]

    A shallow embedding of [parse_chat_text], [compute_stats], [tokenize],
    [is_media_message] and of the tail of the [wrapped] handler, with the
    properties of the specification stated and proved over it. *)

From Stdlib Require Import String Ascii DecimalString.
From Stdlib Require Import List NArith ZArith Bool Lia Arith Sorted.
Import ListNotations.

Set Implicit Arguments.

(** ** Python strings

    A Python [str] is a sequence of Unicode code points; [len] is the number of
    code points. *)

Definition pystr := list N.

Definition chr (a : ascii) : N := N_of_ascii a.
Arguments chr a%_char.

Definition py (s : string) : pystr := map N_of_ascii (list_ascii_of_string s).
Arguments py s%_string.

Fixpoint str_eqb (s t : pystr) : bool :=
  match s, t with
  | [], [] => true
  | c :: s', d :: t' => (c =? d)%N && str_eqb s' t'
  | _, _ => false
  end.

(** [U+000A], the only character [str.replace("\n", ...)] and the regex dot
    look at. *)
Definition LF : N := 10%N.

(** The code points of the interpreter's Unicode database that lie beyond ASCII
    are a table of the interpreter, not of this program: the decimal digits
    (category Nd, with their values) and the lower-case mapping.  The one
    mapping that looks at the neighbours of a character, of the Greek capital
    sigma, chooses between two code points beyond ASCII, which the tokenizer
    treats alike. *)
Class UnicodeData := {
  uni_decimal : N -> option N;
  uni_lower : N -> pystr
}.

(** A database with no decimal digit and no case beyond ASCII. *)
Definition ascii_only_unicode : UnicodeData :=
  {| uni_decimal := fun _ => None; uni_lower := fun c => [c] |}.

Section Characters.
Context {U : UnicodeData}.
Local Open Scope N_scope.

(** [\d] of a [str] pattern, and the digit value [int] gives it. *)
Definition decimal (c : N) : option N :=
  if c <? 128 then
    if (48 <=? c) && (c <=? 57) then Some (c - 48) else None
  else uni_decimal c.

Definition isdecimal (c : N) : bool :=
  match decimal c with Some _ => true | None => false end.

(** [str.isspace] on one code point; also [\s] of a [str] pattern. *)
Definition isspace (c : N) : bool :=
  ((9 <=? c) && (c <=? 13)) || ((28 <=? c) && (c <=? 32))
  || (c =? 133) || (c =? 160) || (c =? 5760)
  || ((8192 <=? c) && (c <=? 8202))
  || (c =? 8232) || (c =? 8233) || (c =? 8239) || (c =? 8287) || (c =? 12288).

(** The line boundaries of [str.splitlines], [\r\n] apart. *)
Definition islinebreak (c : N) : bool :=
  ((10 <=? c) && (c <=? 13)) || ((28 <=? c) && (c <=? 30))
  || (c =? 133) || (c =? 8232) || (c =? 8233).

(** [str.lower] on one code point. *)
Definition lower_char (c : N) : pystr :=
  if c <? 128 then
    if (65 <=? c) && (c <=? 90) then [c + 32] else [c]
  else uni_lower c.

Definition lower (s : pystr) : pystr := flat_map lower_char s.

End Characters.

(** ** [str] methods *)

Fixpoint lstrip_by (f : N -> bool) (s : pystr) : pystr :=
  match s with
  | [] => []
  | c :: s' => if f c then lstrip_by f s' else s
  end.

Definition rstrip_by (f : N -> bool) (s : pystr) : pystr :=
  rev (lstrip_by f (rev s)).

(** [s.strip()] *)
Definition strip (s : pystr) : pystr := rstrip_by isspace (lstrip_by isspace s).

(** [s.rstrip("\n")] *)
Definition rstrip_newline (s : pystr) : pystr := rstrip_by (N.eqb LF) s.

(** [s.replace(old, new)] for a pattern [old] of one character. *)
Definition replace_char (old : N) (new : pystr) (s : pystr) : pystr :=
  flat_map (fun c => if (c =? old)%N then new else [c]) s.

(** [s.splitlines()]: [cur] holds the line being read, reversed. *)
Fixpoint splitlines_from (cur : pystr) (s : pystr) : list pystr :=
  match s with
  | [] => match cur with [] => [] | _ => [rev cur] end
  | c :: s' =>
      if (c =? 13)%N then
        match s' with
        | d :: s'' =>
            if (d =? 10)%N then rev cur :: splitlines_from [] s''
            else rev cur :: splitlines_from [] s'
        | [] => rev cur :: splitlines_from [] s'
        end
      else if islinebreak c then rev cur :: splitlines_from [] s'
      else splitlines_from (c :: cur) s'
  end.

Definition splitlines (s : pystr) : list pystr := splitlines_from [] s.

(** ** Exceptions *)

Inductive exn :=
| ValueError (msg : string)
| IndexError
| ValidationError (missing : string)
| HTTPException (status_code : nat) (detail : string).

Inductive result (A : Type) :=
| ok (a : A)
| raise (e : exn).
Arguments ok {A} a.
Arguments raise {A} e.

Definition bind {A B} (m : result A) (k : A -> result B) : result B :=
  match m with
  | ok a => k a
  | raise e => raise e
  end.

Notation "x <- m ;; k" := (bind m (fun x => k))
  (at level 61, m at next level, right associativity).

(** ** [HEADER_RE] *)

Definition obind {A B} (m : option A) (k : A -> option B) : option B :=
  match m with
  | Some a => k a
  | None => None
  end.

Notation "x <-? m ;; k" := (obind m (fun x => k))
  (at level 61, m at next level, right associativity).
Notation "' p <-? m ;; k" := (obind m (fun x => let 'p := x in k))
  (at level 61, p pattern, m at next level, right associativity).

Section Header.
Context {U : UnicodeData}.

(** One literal character of the pattern. *)
Definition lit (p : N) (s : pystr) : option pystr :=
  match s with
  | c :: s' => if (c =? p)%N then Some s' else None
  | [] => None
  end.

(** [\s] *)
Definition space (s : pystr) : option pystr :=
  match s with
  | c :: s' => if isspace c then Some s' else None
  | [] => None
  end.

(** [\d{n}]: the digits matched and the rest. *)
Fixpoint digits (n : nat) (s : pystr) : option (pystr * pystr) :=
  match n with
  | O => Some ([], s)
  | S n' =>
      match s with
      | c :: s' =>
          if isdecimal c then
            '(ds, r) <-? digits n' s' ;; Some (c :: ds, r)
          else None
      | [] => None
      end
  end.

(** [([^:]+?):]: a colon cannot be part of the group, so the group is the text
    before the first colon, and it is not empty. *)
Fixpoint until_colon (s : pystr) : option (pystr * pystr) :=
  match s with
  | [] => None
  | c :: s' =>
      if (c =? chr ":")%N then Some ([], s')
      else '(g, r) <-? until_colon s' ;; Some (c :: g, r)
  end.

Definition sender_group (s : pystr) : option (pystr * pystr) :=
  '(g, r) <-? until_colon s ;;
  match g with [] => None | _ => Some (g, r) end.

(** The last group, any run of dots, and the end anchor: the dot matches no
    line feed, and the anchor matches at the end and before a line feed that
    ends the string. *)
Definition dot_star_eol (s : pystr) : option pystr :=
  if forallb (fun c => negb (c =? LF)%N) s then Some s
  else
    match rev s with
    | c :: t =>
        if (c =? LF)%N && forallb (fun c => negb (c =? LF)%N) t
        then Some (rev t) else None
    | [] => None
    end.

(** [HEADER_RE.match(line)] and [m.groups()]. *)
Definition header_match (line : pystr)
  : option (pystr * pystr * pystr * pystr) :=
  s <-? lit (chr "[") line ;;
  '(y, s) <-? digits 4 s ;;
  s <-? lit (chr "/") s ;;
  '(mo, s) <-? digits 2 s ;;
  s <-? lit (chr "/") s ;;
  '(d, s) <-? digits 2 s ;;
  s <-? lit (chr ",") s ;;
  s <-? space s ;;
  '(h, s) <-? digits 2 s ;;
  s <-? lit (chr ":") s ;;
  '(mi, s) <-? digits 2 s ;;
  s <-? lit (chr ":") s ;;
  '(se, s) <-? digits 2 s ;;
  s <-? lit (chr "]") s ;;
  s <-? space s ;;
  '(sender, s) <-? sender_group s ;;
  s <-? space s ;;
  msg <-? dot_star_eol s ;;
  Some (y ++ [chr "/"] ++ mo ++ [chr "/"] ++ d,
        h ++ [chr ":"] ++ mi ++ [chr ":"] ++ se,
        sender, msg).

End Header.

(** ** [datetime] *)

Record datetime := {
  year : Z; month : Z; day : Z;
  hour : Z; minute : Z; second : Z
}.

Section Datetime.
Local Open Scope Z_scope.

Definition is_leap (y : Z) : bool :=
  (y mod 4 =? 0) && (negb (y mod 100 =? 0) || (y mod 400 =? 0)).

Definition days_in_month (y m : Z) : Z :=
  if (m =? 2) && is_leap y then 29
  else nth (Z.to_nat m) [0; 31; 28; 31; 30; 31; 30; 31; 31; 30; 31; 30; 31] 0.

Definition days_before_year (y : Z) : Z :=
  let y := y - 1 in y * 365 + y / 4 - y / 100 + y / 400.

Definition days_before_month (y m : Z) : Z :=
  nth (Z.to_nat m) [0; 0; 31; 59; 90; 120; 151; 181; 212; 243; 273; 304; 334] 0
  + (if (2 <? m) && is_leap y then 1 else 0).

Definition toordinal (dt : datetime) : Z :=
  days_before_year (year dt) + days_before_month (year dt) (month dt) + day dt.

(** [dt.weekday()]: Monday is 0. *)
Definition weekday (dt : datetime) : Z := (toordinal dt + 6) mod 7.

(** The range checks of the [datetime] constructor. *)
Definition datetime_ok (dt : datetime) : bool :=
  (1 <=? year dt) && (year dt <=? 9999)
  && (1 <=? month dt) && (month dt <=? 12)
  && (1 <=? day dt) && (day dt <=? days_in_month (year dt) (month dt))
  && (0 <=? hour dt) && (hour dt <=? 23)
  && (0 <=? minute dt) && (minute dt <=? 59)
  && (0 <=? second dt) && (second dt <=? 59).

Definition datetime_new (y m d hh mi ss : Z) : result datetime :=
  let dt := {| year := y; month := m; day := d;
               hour := hh; minute := mi; second := ss |} in
  if datetime_ok dt then ok dt else raise (ValueError "out of range").

(** [str(n)] for an integer that is not negative. *)
Definition str_of_Z (n : Z) : pystr :=
  py (DecimalString.NilZero.string_of_uint (N.to_uint (Z.to_N n))).

(** ["%0wd" % n] *)
Definition zero_pad (w : nat) (n : Z) : pystr :=
  let s := str_of_Z n in
  repeat (chr "0") (w - length s) ++ s.

(** [dt.isoformat()]; the microsecond is 0, so there is no fraction. *)
Definition isoformat (dt : datetime) : pystr :=
  zero_pad 4 (year dt) ++ [chr "-"] ++ zero_pad 2 (month dt) ++ [chr "-"]
  ++ zero_pad 2 (day dt) ++ [chr "T"] ++ zero_pad 2 (hour dt) ++ [chr ":"]
  ++ zero_pad 2 (minute dt) ++ [chr ":"] ++ zero_pad 2 (second dt).

Definition MONTH_NAMES : list pystr :=
  [py "January"; py "February"; py "March"; py "April"; py "May"; py "June";
   py "July"; py "August"; py "September"; py "October"; py "November";
   py "December"].

(** [dt.strftime("%B %Y")] in the C locale; the year filter lets only 2025
    reach it, so the padding of smaller years plays no part. *)
Definition strftime_B_Y (dt : datetime) : pystr :=
  nth (Z.to_nat (month dt - 1)) MONTH_NAMES [] ++ [chr " "] ++ str_of_Z (year dt).

End Datetime.

(** ** [datetime.strptime(s, "%Y/%m/%d %H:%M:%S")]

    The format is turned into a regular expression, matched with backtracking
    at the start of [s]; a parser here gives the matches in the order the
    backtracking tries them, so the match found is the first of the list. *)

Definition parser (A : Type) := pystr -> list (A * pystr).

Definition p_bind {A B} (p : parser A) (k : A -> parser B) : parser B :=
  fun s => flat_map (fun ar => k (fst ar) (snd ar)) (p s).

Definition p_ret {A} (a : A) : parser A := fun s => [(a, s)].

Definition p_alt {A} (p q : parser A) : parser A := fun s => p s ++ q s.

Notation "x <-* p ;; k" := (p_bind p (fun x => k))
  (at level 61, p at next level, right associativity).
Infix "<|>" := p_alt (at level 50, left associativity).

Section Strptime.
Context {U : UnicodeData}.

Definition p_char (f : N -> bool) : parser pystr :=
  fun s =>
    match s with
    | c :: s' => if f c then [([c], s')] else []
    | [] => []
    end.

(** A class [[a-b]] of ASCII digits. *)
Definition range (a b : ascii) : parser pystr :=
  p_char (fun c => (chr a <=? c)%N && (c <=? chr b)%N).

Definition one (a : ascii) : parser pystr := p_char (N.eqb (chr a)).

(** [\d] *)
Definition p_d : parser pystr := p_char isdecimal.

Definition p_then (p q : parser pystr) : parser pystr :=
  a <-* p ;; b <-* q ;; p_ret (a ++ b).
Infix "+++" := p_then (at level 45, right associativity).

(** [\s+], greedy: the longer matches come first. *)
Fixpoint p_spaces (s : pystr) : list (pystr * pystr) :=
  match s with
  | c :: s' =>
      if isspace c then
        map (fun wr => (c :: fst wr, snd wr)) (p_spaces s') ++ [([c], s')]
      else []
  | [] => []
  end.

(** [int(s)]; surrounding blanks are skipped. *)
Definition int_of (s : pystr) : Z :=
  fold_left
    (fun acc c =>
       match decimal c with
       | Some v => (10 * acc + Z.of_N v)%Z
       | None => acc
       end)
    s 0%Z.

Definition re_Y := p_d +++ p_d +++ p_d +++ p_d.
Definition re_m :=
  one "1" +++ range "0" "2" <|> one "0" +++ range "1" "9" <|> range "1" "9".
Definition re_d :=
  one "3" +++ range "0" "1" <|> range "1" "2" +++ p_d
  <|> one "0" +++ range "1" "9" <|> range "1" "9"
  <|> one " " +++ range "1" "9".
Definition re_H := one "2" +++ range "0" "3" <|> range "0" "1" +++ p_d <|> p_d.
Definition re_M := range "0" "5" +++ p_d <|> p_d.
Definition re_S := one "6" +++ range "0" "1" <|> range "0" "5" +++ p_d <|> p_d.

Definition format_regex : parser (pystr * pystr * pystr * pystr * pystr * pystr) :=
  gY <-* re_Y ;; _ <-* one "/" ;;
  gm <-* re_m ;; _ <-* one "/" ;;
  gd <-* re_d ;; _ <-* p_spaces ;;
  gH <-* re_H ;; _ <-* one ":" ;;
  gM <-* re_M ;; _ <-* one ":" ;;
  gS <-* re_S ;;
  p_ret (gY, gm, gd, gH, gM, gS).

Definition strptime (data_string : pystr) : result datetime :=
  match format_regex data_string with
  | [] => raise (ValueError "time data does not match format")
  | ((gY, gm, gd, gH, gM, gS), rest) :: _ =>
      match rest with
      | _ :: _ => raise (ValueError "unconverted data remains")
      | [] =>
          datetime_new (int_of gY) (int_of gm) (int_of gd)
                       (int_of gH) (int_of gM) (int_of gS)
      end
  end.

End Strptime.

(** ** Message records and [parse_chat_text] *)

Record record := {
  timestamp : datetime;
  sender : pystr;
  message : pystr
}.

Section Parser.
Context {U : UnicodeData}.

(** The body of the loop over the lines: the list built so far and the open
    record. *)
Definition parse_line (records : list record) (current : option record)
    (raw_line : pystr) : result (list record * option record) :=
  let line := rstrip_newline raw_line in
  match header_match line with
  | Some (date_str, time_str, sender0, msg) =>
      let records :=
        match current with
        | Some c => records ++ [c]
        | None => records
        end in
      ts <- strptime (date_str ++ [chr " "] ++ time_str) ;;
      ok (records,
          Some {| timestamp := ts; sender := strip sender0; message := strip msg |})
  | None =>
      match current with
      | Some c =>
          if negb (str_eqb (strip line) []) then
            ok (records,
                Some {| timestamp := timestamp c; sender := sender c;
                        message := message c ++ [LF] ++ strip line |})
          else ok (records, current)
      | None => ok (records, current)
      end
  end.

Fixpoint parse_lines (lines : list pystr) (records : list record)
    (current : option record) : result (list record * option record) :=
  match lines with
  | [] => ok (records, current)
  | raw_line :: rest =>
      st <- parse_line records current raw_line ;;
      parse_lines rest (fst st) (snd st)
  end.

(** The last step: the open record, if any, is appended. *)
Definition finish (st : list record * option record) : list record :=
  match snd st with
  | Some c => fst st ++ [c]
  | None => fst st
  end.

Definition parse_chat_text (content : pystr) : result (list record) :=
  st <- parse_lines (splitlines content) [] None ;;
  ok (finish st).

End Parser.

(** ** [ADMIN_ACTION_RE], compiled with [re.IGNORECASE] *)

Section AdminAction.
Local Open Scope N_scope.

Definition is_ascii_lower (c : N) : bool := (97 <=? c) && (c <=? 122).

(** A literal [p] of the pattern against the character [c] of the text.  A
    letter matches both its cases, and the characters whose lower case it is:
    dotted capital and dotless small i for [i], long s for [s], the Kelvin sign
    for [k].  A literal with no case matches itself. *)
Definition ci_char (p c : N) : bool :=
  if is_ascii_lower p then
    (c =? p) || (c =? p - 32)
    || ((p =? chr "i") && ((c =? 304) || (c =? 305)))
    || ((p =? chr "s") && (c =? 383))
    || ((p =? chr "k") && (c =? 8490))
  else c =? p.

(** The literal [pat] at the start of [s]: what follows the match. *)
Fixpoint ci_prefix (pat s : pystr) : option pystr :=
  match pat with
  | [] => Some s
  | p :: pat' =>
      match s with
      | c :: s' => if ci_char p c then ci_prefix pat' s' else None
      | [] => None
      end
  end.

(** The literal [pat] somewhere in [s]. *)
Fixpoint ci_find (pat s : pystr) : bool :=
  match ci_prefix pat s with
  | Some _ => true
  | None =>
      match s with
      | [] => false
      | _ :: s' => ci_find pat s'
      end
  end.

(** The text up to the first line feed: as far as a run of dots can reach. *)
Fixpoint dot_reach (s : pystr) : pystr :=
  match s with
  | [] => []
  | c :: s' => if c =? LF then [] else c :: dot_reach s'
  end.

Definition ADMIN_LITERALS : list pystr :=
  [py "created this group"; py "added"; py "removed"; py "changed";
   py "promoted"; py "omitted"].

(** The alternatives of the pattern at the start of [s]; the last one is
    [made], any run of dots, [admin]. *)
Definition admin_action_at (s : pystr) : bool :=
  existsb (fun pat => match ci_prefix pat s with Some _ => true | None => false end)
          ADMIN_LITERALS
  || match ci_prefix (py "made") s with
     | Some rest => ci_find (py "admin") (dot_reach rest)
     | None => false
     end.

(** [ADMIN_ACTION_RE.search(s)], as a truth value. *)
Fixpoint ADMIN_ACTION_RE_search (s : pystr) : bool :=
  admin_action_at s
  || match s with
     | [] => false
     | _ :: s' => ADMIN_ACTION_RE_search s'
     end.

End AdminAction.

(** ** Media placeholders, stop words, emoji *)

(** The left-to-right mark, [U+200E]. *)
Definition LRM : N := 8206%N.

Definition MEDIA_PLACEHOLDERS : list pystr :=
  [py "<Media omitted>";
   LRM :: py "<Media omitted>";
   py "image omitted";
   py "video omitted";
   py "sticker omitted"].

Definition STOPWORDS : list pystr :=
  map py
    ["the"; "a"; "an"; "and"; "or"; "but"; "to"; "of"; "in"; "on"; "for"; "with";
     "is"; "it"; "this"; "that";
     "i"; "you"; "he"; "she"; "we"; "they"; "me"; "my"; "your"; "our"; "us";
     "at"; "as"; "be"; "are"; "was";
     "were"; "so"; "not"; "do"; "does"; "did"; "from"; "by"; "if"; "then"; "im";
     "i'm"; "u"; "ur"; "lol";
     "bro"; "brev"]%string.

Definition DOW_NAMES : list pystr :=
  [py "Mon"; py "Tue"; py "Wed"; py "Thu"; py "Fri"; py "Sat"; py "Sun"].

(** [x in S] for a set of strings. *)
Definition str_in (x : pystr) (S : list pystr) : bool := existsb (str_eqb x) S.

(** The character class of [EMOJI_RE]. *)
Definition is_emoji (c : N) : bool :=
  (((127744 <=? c) && (c <=? 128511)) || ((128512 <=? c) && (c <=? 128591))
   || ((128640 <=? c) && (c <=? 128767)) || ((127456 <=? c) && (c <=? 127487))
   || ((9728 <=? c) && (c <=? 9983)) || ((9984 <=? c) && (c <=? 10175)))%N.

(** [EMOJI_RE.findall(s)]: one string of one character for each match. *)
Definition EMOJI_RE_findall (s : pystr) : list pystr :=
  map (fun c => [c]) (filter is_emoji s).

(** The class [[a-z0-9']]. *)
Definition is_token_char (c : N) : bool :=
  (((97 <=? c) && (c <=? 122)) || ((48 <=? c) && (c <=? 57)) || (c =? 39))%N.

(** [re.findall] of a class repeated once or more: the maximal runs of the
    class; [cur] is the run being read, reversed. *)
Fixpoint findall_runs (f : N -> bool) (cur : pystr) (s : pystr) : list pystr :=
  match s with
  | [] => match cur with [] => [] | _ => [rev cur] end
  | c :: s' =>
      if f c then findall_runs f (c :: cur) s'
      else
        match cur with
        | [] => findall_runs f [] s'
        | _ => rev cur :: findall_runs f [] s'
        end
  end.

Definition keep_token (t : pystr) : bool :=
  negb (str_in t STOPWORDS) && (1 <? length t).

Definition tokenize {U : UnicodeData} (text : pystr) : list pystr :=
  let text := lower text in
  let tokens := findall_runs is_token_char [] text in
  filter keep_token tokens.

Definition is_media_message (message : pystr) : bool :=
  let cleaned := strip (replace_char LRM [] message) in
  str_in cleaned MEDIA_PLACEHOLDERS.

(** ** [collections.Counter]

    A [Counter] is a [dict]: it keeps its keys in the order of their first
    insertion, so it is an association list here. *)

Section Counter.
Variable K : Type.
Variable eqb : K -> K -> bool.

Definition counter := list (K * nat).

(** [c[k] = c.get(k, 0) + 1] *)
Fixpoint counter_incr (k : K) (c : counter) : counter :=
  match c with
  | [] => [(k, 1)]
  | (k', n) :: c' =>
      if eqb k' k then (k', S n) :: c' else (k', n) :: counter_incr k c'
  end.

(** [c.update(iterable)] *)
Definition counter_update (c : counter) (xs : list K) : counter :=
  fold_left (fun c k => counter_incr k c) xs c.

(** [Counter(iterable)] *)
Definition Counter (xs : list K) : counter := counter_update [] xs.

End Counter.

(** [max(xs, key=key)] and [min(xs, key=key)]: the first extremal element is
    kept, a later one replaces it only when strictly better. *)
Fixpoint max_from {A} (key : A -> nat) (best : A) (xs : list A) : A :=
  match xs with
  | [] => best
  | x :: xs' =>
      if key best <? key x then max_from key x xs' else max_from key best xs'
  end.

Fixpoint min_from {A} (key : A -> nat) (best : A) (xs : list A) : A :=
  match xs with
  | [] => best
  | x :: xs' =>
      if key x <? key best then min_from key x xs' else min_from key best xs'
  end.

Definition py_max {A} (key : A -> nat) (xs : list A) : result A :=
  match xs with
  | [] => raise (ValueError "max() arg is an empty sequence")
  | x :: xs' => ok (max_from key x xs')
  end.

Definition py_min {A} (key : A -> nat) (xs : list A) : result A :=
  match xs with
  | [] => raise (ValueError "min() arg is an empty sequence")
  | x :: xs' => ok (min_from key x xs')
  end.

(** [sorted(items, key=itemgetter(1), reverse=True)]: a stable sort, so items
    of equal count keep their order. *)
Fixpoint insert_desc {K} (x : K * nat) (l : list (K * nat)) : list (K * nat) :=
  match l with
  | [] => [x]
  | y :: l' => if snd x <? snd y then y :: insert_desc x l' else x :: l
  end.

Fixpoint sorted_desc {K} (l : list (K * nat)) : list (K * nat) :=
  match l with
  | [] => []
  | x :: l' => insert_desc x (sorted_desc l')
  end.

(** [c.most_common(n)] is [heapq.nlargest(n, c.items(), key=itemgetter(1))]:
    [max] when [n] is 1, and otherwise what the stable descending sort gives,
    cut to [n] items. *)
Definition most_common {K} (n : nat) (c : counter K) : list (K * nat) :=
  match n with
  | 1 =>
      match c with
      | [] => []
      | x :: c' => [max_from snd x c']
      end
  | _ => firstn n (sorted_desc c)
  end.

(** [xs[0]] *)
Definition first_item {A} (xs : list A) : result A :=
  match xs with
  | x :: _ => ok x
  | [] => raise IndexError
  end.

(** ** [WrappedResponse] *)

Record TopTalker := { tt_sender : pystr; tt_count : nat }.
Record BusiestHour := { bh_hour : option Z; bh_count : nat }.
Record BusiestDay := { bd_day : option pystr; bd_count : nat }.
Record PeakMonth := {
  pm_year : option Z; pm_month : option Z; pm_label : option pystr;
  pm_count : nat
}.

(** The two floats of the program: the literal [0.0] and
    [round(count / total * 100, 2)], kept as written. *)
Inductive pyfloat :=
| float_zero
| round2_percent (count total : nat).

Record NightOwl := { no_count : nat; no_percent : pyfloat }.
Record LongestMessage := {
  lm_sender : pystr; lm_timestamp : pystr; lm_length_chars : nat;
  lm_preview : pystr
}.
Record WordCount := { wc_word : pystr; wc_count : nat }.
Record EmojiCount := { ec_emoji : pystr; ec_count : nat }.

Record WrappedResponse := {
  total_records : nat;
  total_user_messages : nat;
  total_system_events : nat;
  top_talkers : list TopTalker;
  quietest_sender : option TopTalker;
  busiest_hour : BusiestHour;
  busiest_day_of_week : BusiestDay;
  peak_month : PeakMonth;
  night_owl : NightOwl;
  longest_message : option LongestMessage;
  most_used_word : option WordCount;
  most_used_emoji : option EmojiCount
}.

(** A keyword argument of the constructor call: given, or left out. *)
Inductive kwarg (A : Type) :=
| given (a : A)
| absent.
Arguments given {A} a.
Arguments absent {A}.

Record WrappedResponse_kwargs := {
  kw_total_records : kwarg nat;
  kw_total_user_messages : kwarg nat;
  kw_total_system_events : kwarg nat;
  kw_top_talkers : kwarg (list TopTalker);
  kw_quietest_sender : kwarg (option TopTalker);
  kw_busiest_hour : kwarg BusiestHour;
  kw_busiest_day_of_week : kwarg BusiestDay;
  kw_peak_month : kwarg PeakMonth;
  kw_night_owl : kwarg NightOwl;
  kw_longest_message : kwarg (option LongestMessage);
  kw_most_used_word : kwarg (option WordCount);
  kw_most_used_emoji : kwarg (option EmojiCount)
}.

(** The validation library behind [BaseModel].  No field of the model has a
    default.  Version 1 gives a field annotated [Optional] the default [None];
    version 2 requires every field that has no default. *)
Inductive pydantic := pydantic_v1 | pydantic_v2.

Definition required {A} (name : string) (a : kwarg A) : result A :=
  match a with
  | given x => ok x
  | absent => raise (ValidationError name)
  end.

Definition optional {A} (v : pydantic) (name : string) (a : kwarg (option A))
  : result (option A) :=
  match a with
  | given x => ok x
  | absent =>
      match v with
      | pydantic_v1 => ok None
      | pydantic_v2 => raise (ValidationError name)
      end
  end.

(** The call of [WrappedResponse] with the keyword arguments [kw]. *)
Definition WrappedResponse_init (v : pydantic) (kw : WrappedResponse_kwargs)
  : result WrappedResponse :=
  a1 <- required "total_records" (kw_total_records kw) ;;
  a2 <- required "total_user_messages" (kw_total_user_messages kw) ;;
  a3 <- required "total_system_events" (kw_total_system_events kw) ;;
  a4 <- required "top_talkers" (kw_top_talkers kw) ;;
  a5 <- optional v "quietest_sender" (kw_quietest_sender kw) ;;
  a6 <- required "busiest_hour" (kw_busiest_hour kw) ;;
  a7 <- required "busiest_day_of_week" (kw_busiest_day_of_week kw) ;;
  a8 <- required "peak_month" (kw_peak_month kw) ;;
  a9 <- required "night_owl" (kw_night_owl kw) ;;
  a10 <- optional v "longest_message" (kw_longest_message kw) ;;
  a11 <- optional v "most_used_word" (kw_most_used_word kw) ;;
  a12 <- optional v "most_used_emoji" (kw_most_used_emoji kw) ;;
  ok {| total_records := a1; total_user_messages := a2;
        total_system_events := a3; top_talkers := a4; quietest_sender := a5;
        busiest_hour := a6; busiest_day_of_week := a7; peak_month := a8;
        night_owl := a9; longest_message := a10; most_used_word := a11;
        most_used_emoji := a12 |}.

(** ** [compute_stats] *)

Definition pair_eqb (a b : Z * Z) : bool :=
  (fst a =? fst b)%Z && (snd a =? snd b)%Z.

(** The loop that splits the records into system events and user messages. *)
Fixpoint classify (records system_events user_msgs : list record)
  : list record * list record :=
  match records with
  | [] => (system_events, user_msgs)
  | r :: rest =>
      if ADMIN_ACTION_RE_search (message r)
      then classify rest (system_events ++ [r]) user_msgs
      else classify rest system_events (user_msgs ++ [r])
  end.

Definition in_2025 (r : record) : bool := (year (timestamp r) =? 2025)%Z.

Definition is_night (ts : datetime) : bool :=
  ((22 <=? hour ts) || (hour ts <=? 4))%Z.

Definition to_talker (sc : pystr * nat) : TopTalker :=
  {| tt_sender := fst sc; tt_count := snd sc |}.

Definition msg_len (r : record) : nat := length (message r).

(** The dictionary built from the longest record [lr]. *)
Definition longest_of (lr : record) : LongestMessage :=
  {| lm_sender := sender lr;
     lm_timestamp := isoformat (timestamp lr);
     lm_length_chars := length (message lr);
     lm_preview := firstn 200 (replace_char LF [chr " "] (message lr)) |}.

Section Stats.
Context {U : UnicodeData}.

Definition user_non_media_of (user_msgs : list record) : list record :=
  filter (fun r => negb (is_media_message (message r))) user_msgs.

Definition longest_stat (user_non_media : list record)
  : result (option LongestMessage) :=
  match user_non_media with
  | [] => ok None
  | _ => lr <- py_max msg_len user_non_media ;; ok (Some (longest_of lr))
  end.

(** The loop of [word_counter.update(tokenize(...))]. *)
Definition word_counter_of (user_non_media : list record) : counter pystr :=
  fold_left (fun c r => counter_update str_eqb c (tokenize (message r)))
            user_non_media [].

Definition most_word_stat (word_counter : counter pystr)
  : result (option WordCount) :=
  match word_counter with
  | [] => ok None
  | _ =>
      wc <- first_item (most_common 1 word_counter) ;;
      ok (Some {| wc_word := fst wc; wc_count := snd wc |})
  end.

Definition emoji_counter_of (user_non_media : list record) : counter pystr :=
  fold_left
    (fun c r =>
       let emojis := EMOJI_RE_findall (message r) in
       match emojis with
       | [] => c
       | _ => counter_update str_eqb c emojis
       end)
    user_non_media [].

Definition most_emoji_stat (emoji_counter : counter pystr)
  : result (option EmojiCount) :=
  match emoji_counter with
  | [] => ok None
  | _ =>
      ec <- first_item (most_common 1 emoji_counter) ;;
      ok (Some {| ec_emoji := fst ec; ec_count := snd ec |})
  end.

Definition compute_stats (v : pydantic) (records : list record)
  : result WrappedResponse :=
  let records := filter in_2025 records in
  let '(system_events, user_msgs) := classify records [] [] in
  let total_records := length records in
  let total_user := length user_msgs in
  let total_sys := length system_events in
  if total_user =? 0 then
    WrappedResponse_init v
      {| kw_total_records := given total_records;
         kw_total_user_messages := given 0;
         kw_total_system_events := given total_sys;
         kw_top_talkers := given [];
         kw_quietest_sender := given None;
         kw_busiest_hour := given {| bh_hour := None; bh_count := 0 |};
         kw_busiest_day_of_week := given {| bd_day := None; bd_count := 0 |};
         kw_peak_month :=
           given {| pm_year := None; pm_month := None; pm_label := None;
                    pm_count := 0 |};
         kw_night_owl := given {| no_count := 0; no_percent := float_zero |};
         kw_longest_message := given None;
         kw_most_used_word := given None;
         kw_most_used_emoji := absent |}
  else
    let sender_counts := Counter str_eqb (map sender user_msgs) in
    let top_talkers := map to_talker (most_common 10 sender_counts) in
    quiet <- py_min snd sender_counts ;;
    let hour_counts :=
      Counter Z.eqb (map (fun r => hour (timestamp r)) user_msgs) in
    bh <- first_item (most_common 1 hour_counts) ;;
    let dow_counts :=
      Counter Z.eqb (map (fun r => weekday (timestamp r)) user_msgs) in
    bd <- first_item (most_common 1 dow_counts) ;;
    let month_counts :=
      Counter pair_eqb
        (map (fun r => (year (timestamp r), month (timestamp r))) user_msgs) in
    pm <- first_item (most_common 1 month_counts) ;;
    let '(peak_year, peak_month, peak_month_count) := pm in
    first_of_month <- datetime_new peak_year peak_month 1 0 0 0 ;;
    let peak_label := strftime_B_Y first_of_month in
    let night_count :=
      length (filter (fun r => is_night (timestamp r)) user_msgs) in
    let night_percent := round2_percent night_count total_user in
    let user_non_media := user_non_media_of user_msgs in
    longest <- longest_stat user_non_media ;;
    most_word <- most_word_stat (word_counter_of user_non_media) ;;
    most_emoji <- most_emoji_stat (emoji_counter_of user_non_media) ;;
    dow_name <-
      match nth_error DOW_NAMES (Z.to_nat (fst bd)) with
      | Some name => ok name
      | None => raise IndexError
      end ;;
    WrappedResponse_init v
      {| kw_total_records := given total_records;
         kw_total_user_messages := given total_user;
         kw_total_system_events := given total_sys;
         kw_top_talkers := given top_talkers;
         kw_quietest_sender := given (Some (to_talker quiet));
         kw_busiest_hour :=
           given {| bh_hour := Some (fst bh); bh_count := snd bh |};
         kw_busiest_day_of_week :=
           given {| bd_day := Some dow_name; bd_count := snd bd |};
         kw_peak_month :=
           given {| pm_year := Some peak_year; pm_month := Some peak_month;
                    pm_label := Some peak_label; pm_count := peak_month_count |};
         kw_night_owl :=
           given {| no_count := night_count; no_percent := night_percent |};
         kw_longest_message := given longest;
         kw_most_used_word := given most_word;
         kw_most_used_emoji := given most_emoji |}.

(** The handler [wrapped], from the decoded text on. *)
Definition wrapped_text (v : pydantic) (text : pystr) : result WrappedResponse :=
  records <- parse_chat_text text ;;
  match records with
  | [] =>
      raise (HTTPException 400
        "No WhatsApp messages detected. Make sure this is the raw exported chat .txt.")
  | _ => compute_stats v records
  end.

End Stats.

Unset Implicit Arguments.

(** ** Vocabulary of the statements *)

Definition system_events_of (records : list record) : list record :=
  fst (classify (filter in_2025 records) [] []).

Definition user_msgs_of (records : list record) : list record :=
  snd (classify (filter in_2025 records) [] []).

Definition is_system_event (r : record) : bool :=
  ADMIN_ACTION_RE_search (message r).

(** One more system event in a response: the two totals it is counted in. *)
Definition count_system_event (res : WrappedResponse) : WrappedResponse :=
  {| total_records := S (total_records res);
     total_user_messages := total_user_messages res;
     total_system_events := S (total_system_events res);
     top_talkers := top_talkers res;
     quietest_sender := quietest_sender res;
     busiest_hour := busiest_hour res;
     busiest_day_of_week := busiest_day_of_week res;
     peak_month := peak_month res;
     night_owl := night_owl res;
     longest_message := longest_message res;
     most_used_word := most_used_word res;
     most_used_emoji := most_used_emoji res |}.

Definition map_result {A B} (f : A -> B) (m : result A) : result B :=
  match m with
  | ok a => ok (f a)
  | raise e => raise e
  end.

(** The empty sentinel of the statistics, for [n] system events. *)
Definition empty_response (n : nat) : WrappedResponse :=
  {| total_records := n;
     total_user_messages := 0;
     total_system_events := n;
     top_talkers := [];
     quietest_sender := None;
     busiest_hour := {| bh_hour := None; bh_count := 0 |};
     busiest_day_of_week := {| bd_day := None; bd_count := 0 |};
     peak_month :=
       {| pm_year := None; pm_month := None; pm_label := None; pm_count := 0 |};
     night_owl := {| no_count := 0; no_percent := float_zero |};
     longest_message := None;
     most_used_word := None;
     most_used_emoji := None |}.

(** The example of the specification: two header lines. *)
Definition example_chat : pystr :=
  py "[2025/01/05, 22:15:03] Alice: hello world" ++ [LF]
  ++ py "[2025/01/05, 22:16:00] Bob: <Media omitted>".

Definition NO_MESSAGES : exn :=
  HTTPException 400
    "No WhatsApp messages detected. Make sure this is the raw exported chat .txt.".

(** ** Sample records *)

Definition at_2025 (mo d h mi : Z) : datetime :=
  {| year := 2025; month := mo; day := d; hour := h; minute := mi; second := 0 |}.

Definition alice_hello : record :=
  {| timestamp := at_2025 3 9 23 1; sender := py "Alice"; message := py "hello" |}.

Definition bob_added : record :=
  {| timestamp := at_2025 3 9 23 2; sender := py "Bob";
     message := py "Bob added Carol" |}.

Definition bob_media : record :=
  {| timestamp := at_2025 1 5 22 16; sender := py "Bob";
     message := py "<Media omitted>" |}.

(** A placeholder with a left-to-right mark inside the word: the mark is
    removed before the comparison with the placeholders, and it keeps the
    administrative pattern from matching. *)
Definition carol_marked_media : record :=
  {| timestamp := at_2025 1 5 22 17; sender := py "Carol";
     message := py "<Media omi" ++ [LRM] ++ py "tted>" |}.


(** A chat of another year: the year filter leaves no record. *)
Definition last_year_chat : pystr := py "[2024/01/05, 22:15:03] Alice: hello".

(** A string that holds no line boundary of [str.splitlines]. *)
Definition no_linebreak (s : pystr) : Prop :=
  Forall (fun c => islinebreak c = false) s.

(** The maximal runs of the characters that [f] accepts, in the order of the
    text: a run is not empty, holds accepted characters only, and ends at the
    end of the text or before a character that is not accepted; a run starts
    where the text starts or after such a character. *)
Inductive maximal_runs (f : N -> bool) : pystr -> list pystr -> Prop :=
| runs_end : maximal_runs f [] []
| runs_skip (c : N) (s : pystr) (rs : list pystr) :
    f c = false -> maximal_runs f s rs -> maximal_runs f (c :: s) rs
| runs_take (r s : pystr) (rs : list pystr) :
    r <> [] -> Forall (fun c => f c = true) r ->
    match s with [] => True | c :: _ => f c = false end ->
    maximal_runs f s rs -> maximal_runs f (r ++ s) (r :: rs).

(** A line that is not a header line. *)
Definition is_continuation {U : UnicodeData} (raw_line : pystr) : Prop :=
  header_match (rstrip_newline raw_line) = None.

(** The open record [c] with the text [body] for its message. *)
Definition with_message (c : record) (body : pystr) : record :=
  {| timestamp := timestamp c; sender := sender c; message := body |}.

(** The message [msg] followed by the lines of [ls] that are not blank, each
    stripped and put after one line feed. *)
Definition body_after (msg : pystr) (ls : list pystr) : pystr :=
  msg ++ flat_map (fun l => LF :: strip l)
                  (filter (fun l => negb (str_eqb (strip l) [])) ls).

Definition all_space (s : pystr) : Prop := Forall (fun c => isspace c = true) s.

(** *** Frequencies and the order of first encounter *)

Section Frequencies.
Context {K : Type}.
Variable eqb : K -> K -> bool.

(** How often [k] is met in the scan [xs]. *)
Definition occurrences (xs : list K) (k : K) : nat :=
  length (filter (eqb k) xs).

(** [a] is met in the scan [xs] before [b] is. *)
Definition first_before (xs : list K) (a b : K) : Prop :=
  exists pre post, xs = pre ++ a :: post /\ ~ In a pre /\ ~ In b pre /\ a <> b.

(** [a] comes before [b] in the ranking: a higher count, or the same count
    and an earlier first encounter. *)
Definition ranked_before (xs : list K) (a b : K) : Prop :=
  occurrences xs b < occurrences xs a
  \/ (occurrences xs a = occurrences xs b /\ first_before xs a b).

(** [k], met [n] times, is the most frequent key of the scan, and the first
    met of those that are. *)
Definition most_frequent (xs : list K) (k : K) (n : nat) : Prop :=
  In k xs /\ n = occurrences xs k
  /\ forall k', In k' xs -> k' <> k -> ranked_before xs k k'.

(** [k], met [n] times, is the least frequent key of the scan, and the first
    met of those that are. *)
Definition least_frequent (xs : list K) (k : K) (n : nat) : Prop :=
  In k xs /\ n = occurrences xs k
  /\ forall k', In k' xs -> k' <> k ->
       occurrences xs k < occurrences xs k'
       \/ (occurrences xs k = occurrences xs k' /\ first_before xs k k').

(** The order of the entries of a frequency table after the descending
    stable sort. *)
Definition entry_ranked (xs : list K) (a b : K * nat) : Prop :=
  snd b < snd a \/ (snd a = snd b /\ first_before xs (fst a) (fst b)).

(** What holds of [Counter(xs)]: one entry for each key met, with its count,
    in the order of first encounter. *)
Definition counter_of (xs : list K) (c : counter K) : Prop :=
  NoDup (map fst c)
  /\ (forall k, In k (map fst c) <-> In k xs)
  /\ (forall k n, In (k, n) c -> n = occurrences xs k)
  /\ StronglySorted (first_before xs) (map fst c).

End Frequencies.

(** *** What the statistics scan *)

Definition valid_records (records : list record) : Prop :=
  Forall (fun r => datetime_ok (timestamp r) = true) records.

Definition scan_senders (records : list record) : list pystr :=
  map sender (user_msgs_of records).

Definition scan_hours (records : list record) : list Z :=
  map (fun r => hour (timestamp r)) (user_msgs_of records).

Definition scan_weekdays (records : list record) : list Z :=
  map (fun r => weekday (timestamp r)) (user_msgs_of records).

Definition scan_months (records : list record) : list (Z * Z) :=
  map (fun r => (year (timestamp r), month (timestamp r))) (user_msgs_of records).

(** The user messages that are not media placeholders. *)
Definition content_msgs (records : list record) : list record :=
  filter (fun r => negb (is_media_message (message r))) (user_msgs_of records).

Definition scan_words {U : UnicodeData} (records : list record) : list pystr :=
  flat_map (fun r => tokenize (message r)) (content_msgs records).

Definition scan_emoji (records : list record) : list pystr :=
  flat_map (fun r => EMOJI_RE_findall (message r)) (content_msgs records).

(** The body on one line: each line feed replaced by one blank. *)
Definition one_line (body : pystr) : pystr :=
  map (fun c => if (c =? LF)%N then chr " " else c) body.

(** Three records of the target year: a user message, a system event, and a
    user message that is a media placeholder. *)
Definition three_records : list record :=
  [alice_hello; bob_added; carol_marked_media].

(** The parser on a text already cut into lines. *)
Definition parse_chat_text_lines {U : UnicodeData} (lines : list pystr)
  : result (list record) :=
  st <- parse_lines lines [] None ;;
  ok (finish st).

From Stdlib Require Import Permutation.

(** ** The handler [wrapped] *)

(** The two codecs of the interpreter that the handler calls,
    [raw.decode("utf-8")] and [raw.decode("utf-16")]; [None] stands for
    [UnicodeDecodeError]. *)
Class Codecs := {
  decode_utf8 : list N -> option pystr;
  decode_utf16 : list N -> option pystr
}.

(** A pair of codecs that read bytes below 128 as ASCII and refuse the
    others. *)
Definition ascii_codec (raw : list N) : option pystr :=
  if forallb (fun b => (b <? 128)%N) raw then Some raw else None.

Definition ascii_codecs : Codecs :=
  {| decode_utf8 := ascii_codec; decode_utf16 := fun _ => None |}.

(** [s.endswith(suffix)] *)
Definition endswith (s suffix : pystr) : bool :=
  (length suffix <=? length s)
  && str_eqb (skipn (length s - length suffix) s) suffix.

(** [5 * 1024 * 1024] *)
Definition MAX_BYTES : N := (5 * 1024 * 1024)%N.

Definition NOT_TXT : exn :=
  HTTPException 400 "Please upload a .txt WhatsApp export file.".

Definition TOO_LARGE : exn := HTTPException 413 "File too large (max 5MB).".

Definition UNDECODABLE : exn :=
  HTTPException 400 "Could not decode file. Try exporting again or use UTF-8.".

(** The handler, from the name of the uploaded file and its bytes. *)
Definition wrapped {U : UnicodeData} {C : Codecs} (v : pydantic)
    (filename : pystr) (raw : list N) : result WrappedResponse :=
  if negb (endswith (lower filename) (py ".txt")) then raise NOT_TXT
  else if (MAX_BYTES <? N.of_nat (length raw))%N then raise TOO_LARGE
  else
    match decode_utf8 raw with
    | Some text => wrapped_text v text
    | None =>
        match decode_utf16 raw with
        | Some text => wrapped_text v text
        | None => raise UNDECODABLE
        end
    end.

(** ** Vocabulary of the further statements *)

(** What a header line gives to its record: the timestamp and the sender. *)
Definition header_of {U : UnicodeData} (raw_line : pystr)
  : option (result (datetime * pystr)) :=
  match header_match (rstrip_newline raw_line) with
  | Some (date_str, time_str, sender0, _) =>
      Some (ts <- strptime (date_str ++ [chr " "] ++ time_str) ;;
            ok (ts, strip sender0))
  | None => None
  end.

(** The header lines of a list of lines, in order. *)
Definition headers_of {U : UnicodeData} (lines : list pystr)
  : list (datetime * pystr) :=
  flat_map (fun l => match header_of l with Some (ok h) => [h] | _ => [] end)
           lines.

Definition is_header {U : UnicodeData} (raw_line : pystr) : Prop :=
  header_match (rstrip_newline raw_line) <> None.

(** No blank at the end. *)
Definition no_trailing_space (s : pystr) : Prop :=
  forall t c, s = t ++ [c] -> isspace c = false.

(** No blank at either end. *)
Definition trimmed (s : pystr) : Prop :=
  (forall c t, s = c :: t -> isspace c = false) /\ no_trailing_space s.

(** A line of the export, as the header pattern reads it. *)
Definition export_line (y mo d h mi se sender_ msg : pystr) : pystr :=
  [chr "["] ++ y ++ [chr "/"] ++ mo ++ [chr "/"] ++ d ++ py ", "
  ++ h ++ [chr ":"] ++ mi ++ [chr ":"] ++ se ++ py "] "
  ++ sender_ ++ py ": " ++ msg.

(** The text [t] is the literal [pat] up to the case of its letters. *)
Definition ci_equal (pat t : pystr) : Prop :=
  Forall2 (fun p c => ci_char p c = true) pat t.

(** A response with other totals of records and of system events. *)
Definition with_totals (n_records n_system : nat) (res : WrappedResponse)
  : WrappedResponse :=
  {| total_records := n_records;
     total_user_messages := total_user_messages res;
     total_system_events := n_system;
     top_talkers := top_talkers res;
     quietest_sender := quietest_sender res;
     busiest_hour := busiest_hour res;
     busiest_day_of_week := busiest_day_of_week res;
     peak_month := peak_month res;
     night_owl := night_owl res;
     longest_message := longest_message res;
     most_used_word := most_used_word res;
     most_used_emoji := most_used_emoji res |}.

(** What a record takes from its header line. *)
Definition record_key (r : record) : datetime * pystr := (timestamp r, sender r).

(** [HEADER_RE.match(line)] as a truth value. *)
Definition header_matches {U : UnicodeData} (raw_line : pystr) : bool :=
  match header_match (rstrip_newline raw_line) with
  | Some _ => true
  | None => false
  end.

(** What the parser keeps of every record: a sender with no blank at either
    end and no colon, a message with no blank at its end and no line boundary
    but the line feed. *)
Definition well_shaped (r : record) : Prop :=
  trimmed (sender r)
  /\ ~ In (chr ":") (sender r)
  /\ no_trailing_space (message r)
  /\ Forall (fun c => islinebreak c = true -> c = LF) (message r).

(** The text [s] holds, in any case of the letters, one of the literal
    alternatives of the administrative pattern, or [made] and, later on the
    same line, [admin]. *)
Definition admin_action_in (s : pystr) : Prop :=
  exists a b,
    (exists pat t, In pat ADMIN_LITERALS /\ ci_equal pat t /\ s = a ++ t ++ b)
    \/ (exists t1 mid t2,
          ci_equal (py "made") t1 /\ ~ In LF mid /\ ci_equal (py "admin") t2
          /\ s = a ++ t1 ++ mid ++ t2 ++ b).

(** *** ISO 8601 *)

(** A number below 100 in two decimal digits. *)
Definition two_digits (n : Z) : pystr :=
  [Z.to_N (48 + n / 10); Z.to_N (48 + n mod 10)].

(** The calendar date and the time of day of a moment of 2025 in the extended
    format of ISO 8601, [2025-MM-DDThh:mm:ss]. *)
Definition iso8601_2025 (dt : datetime) : pystr :=
  py "2025-" ++ two_digits (month dt) ++ [chr "-"] ++ two_digits (day dt)
  ++ [chr "T"] ++ two_digits (hour dt) ++ [chr ":"] ++ two_digits (minute dt)
  ++ [chr ":"] ++ two_digits (second dt).

(** *** Long messages *)

(** A body of 251 characters on two lines. *)
Definition long_body (c : ascii) : pystr :=
  repeat (chr c) 150 ++ [LF] ++ repeat (chr "b") 100.

Definition dave_long : record :=
  {| timestamp := at_2025 12 31 4 59; sender := py "Dave";
     message := long_body "a" |}.

Definition erin_long : record :=
  {| timestamp := at_2025 7 4 9 5; sender := py "Erin";
     message := long_body "e" |}.

(** Two short user messages, two long ones of the same length, a media
    placeholder and two system events. *)
Definition seven_records : list record :=
  [alice_hello; bob_added; carol_marked_media; dave_long; bob_media;
   erin_long; alice_hello].

(** *** One more user message *)

(** The scan [scan] holds the key [k] once more than the scan [without]
    does, and every other key as often. *)
Definition counted_once {K} (eqb : K -> K -> bool) (scan without : list K)
    (k : K) : Prop :=
  forall k', occurrences eqb scan k' =
             (if eqb k' k then 1 else 0) + occurrences eqb without k'.
(** ** Strings *)

Lemma str_eqb_eq (s t : pystr) : str_eqb s t = true <-> s = t.
Proof.
  revert t; induction s as [|c s IH]; intros [|d t]; simpl; split;
    try congruence; try reflexivity.
  - intros H. apply andb_true_iff in H as [Hc Hs].
    apply N.eqb_eq in Hc. apply IH in Hs. congruence.
  - intros H. injection H as -> ->. rewrite N.eqb_refl. now apply IH.
Qed.

Lemma str_eqb_refl (s : pystr) : str_eqb s s = true.
Proof. now apply str_eqb_eq. Qed.

Lemma str_in_In (x : pystr) (S : list pystr) : str_in x S = true <-> In x S.
Proof.
  unfold str_in. rewrite existsb_exists. split.
  - intros (y & Hy & E). apply str_eqb_eq in E. now subst.
  - intros H. exists x. split; [assumption | apply str_eqb_refl].
Qed.

(** ** The split into system events and user messages *)

Lemma classify_filter (rs sys usr : list record) :
  classify rs sys usr =
  (sys ++ filter is_system_event rs,
   usr ++ filter (fun r => negb (is_system_event r)) rs).
Proof.
  revert sys usr. induction rs as [|r rs IH]; intros sys usr; simpl.
  - now rewrite !app_nil_r.
  - destruct (is_system_event r) eqn:E; unfold is_system_event in E;
      rewrite E; simpl; rewrite IH, <- app_assoc; reflexivity.
Qed.

Lemma system_events_of_filter (records : list record) :
  system_events_of records = filter is_system_event (filter in_2025 records).
Proof. unfold system_events_of. now rewrite classify_filter. Qed.

Lemma user_msgs_of_filter (records : list record) :
  user_msgs_of records =
  filter (fun r => negb (is_system_event r)) (filter in_2025 records).
Proof. unfold user_msgs_of. now rewrite classify_filter. Qed.

Lemma filter_split_length {A} (f : A -> bool) (l : list A) :
  length l = length (filter (fun x => negb (f x)) l) + length (filter f l).
Proof.
  induction l as [|x l IH]; simpl; [reflexivity|].
  destruct (f x); simpl; lia.
Qed.

Lemma in_user_msgs_of (records : list record) (r : record) :
  In r (user_msgs_of records) <->
  In r records /\ in_2025 r = true /\ is_system_event r = false.
Proof.
  rewrite user_msgs_of_filter, !filter_In, negb_true_iff. tauto.
Qed.

Lemma in_system_events_of (records : list record) (r : record) :
  In r (system_events_of records) <->
  In r records /\ in_2025 r = true /\ is_system_event r = true.
Proof. rewrite system_events_of_filter, !filter_In. tauto. Qed.

Lemma classify_classes (records : list record) :
  classify (filter in_2025 records) [] [] =
  (system_events_of records, user_msgs_of records).
Proof. unfold system_events_of, user_msgs_of. now destruct (classify _ _ _). Qed.

Ltac bind_inv H :=
  repeat
    match type of H with
    | bind ?m _ = ok _ =>
        let E := fresh "E" in
        destruct m eqn:E; simpl bind in H; [| discriminate H]
    | (let '(_, _) := ?p in _) = ok _ => destruct p
    end.

(** ** The empty branch *)

Lemma compute_stats_empty_v1 {U : UnicodeData} (records : list record) :
  user_msgs_of records = [] ->
  compute_stats pydantic_v1 records =
  ok (empty_response (length (system_events_of records))).
Proof.
  intros Hu. unfold compute_stats. rewrite classify_classes, Hu. simpl.
  unfold empty_response. do 2 f_equal.
  rewrite (filter_split_length is_system_event (filter in_2025 records)).
  rewrite <- user_msgs_of_filter, <- system_events_of_filter, Hu.
  reflexivity.
Qed.

Lemma compute_stats_empty_v2 {U : UnicodeData} (records : list record) :
  user_msgs_of records = [] ->
  compute_stats pydantic_v2 records = raise (ValidationError "most_used_emoji").
Proof.
  intros Hu. unfold compute_stats. rewrite classify_classes, Hu. reflexivity.
Qed.

(** ** The totals *)

Lemma compute_stats_totals {U : UnicodeData} (v : pydantic)
    (records : list record) (res : WrappedResponse) :
  compute_stats v records = ok res ->
  total_records res = length (filter in_2025 records)
  /\ total_user_messages res = length (user_msgs_of records)
  /\ total_system_events res = length (system_events_of records).
Proof.
  unfold compute_stats. rewrite classify_classes.
  destruct (length (user_msgs_of records) =? 0) eqn:E0.
  - apply Nat.eqb_eq in E0. rewrite E0.
    destruct v; simpl; intros H; [| discriminate H].
    injection H as <-. simpl. auto.
  - intros H. bind_inv H. simpl in H. injection H as <-. simpl. auto.
Qed.
(** C4.  After the year filter every record is in exactly one of the two
    classes, so the classes have as many records together as the filtered
    set; and a response carries these three counts:
    [total_records = total_user_messages + total_system_events]. *)
Theorem totals_add_up {U : UnicodeData} (v : pydantic) (records : list record) :
  length (filter in_2025 records) =
  length (user_msgs_of records) + length (system_events_of records)
  /\ (forall r, In r (filter in_2025 records) ->
        (In r (user_msgs_of records) /\ ~ In r (system_events_of records))
        \/ (In r (system_events_of records) /\ ~ In r (user_msgs_of records)))
  /\ forall res, compute_stats v records = ok res ->
       total_records res = total_user_messages res + total_system_events res
       /\ total_records res = length (filter in_2025 records)
       /\ total_user_messages res = length (user_msgs_of records)
       /\ total_system_events res = length (system_events_of records).
Proof.
  assert (Hlen : length (filter in_2025 records) =
                 length (user_msgs_of records) + length (system_events_of records)).
  { rewrite user_msgs_of_filter, system_events_of_filter.
    apply filter_split_length. }
  split; [exact Hlen |]. split.
  - intros r Hin. apply filter_In in Hin as [Hin Hy].
    destruct (is_system_event r) eqn:E; [right | left];
      rewrite in_user_msgs_of, in_system_events_of; rewrite E;
      (split; [tauto | intros (_ & _ & Hc); discriminate Hc]).
  - intros res H. apply compute_stats_totals in H as (Hr & Hu & Hs).
    rewrite Hr, Hu, Hs. auto.
Qed.

Lemma totals_add_up_witness :
  exists res,
    compute_stats (U := ascii_only_unicode) pydantic_v2 [alice_hello; bob_added]
    = ok res
    /\ total_records res = total_user_messages res + total_system_events res
    /\ total_records res = 2.
Proof.
  eexists. split; [vm_compute; reflexivity |].
  split; [| reflexivity].
  refine (proj1 (proj2 (proj2 (totals_add_up (U := ascii_only_unicode) pydantic_v2
                                 [alice_hello; bob_added])) _ _)).
  vm_compute; reflexivity.
Defined.

(** ** Omission notices *)

Lemma search_at (a s : pystr) :
  admin_action_at s = true -> ADMIN_ACTION_RE_search (a ++ s) = true.
Proof.
  intros H. induction a as [|c a IH]; cbn [app].
  - destruct s; cbn [ADMIN_ACTION_RE_search]; rewrite H; reflexivity.
  - cbn [ADMIN_ACTION_RE_search]. rewrite IH. apply orb_true_r.
Qed.

(** The pattern finds the word in any text and in any case of its letters. *)
Lemma search_omitted (a b : pystr) :
  ADMIN_ACTION_RE_search (a ++ py "omitted" ++ b) = true.
Proof. apply search_at. vm_compute. reflexivity. Qed.

Lemma placeholders_contain_omitted (p : pystr) :
  In p MEDIA_PLACEHOLDERS -> exists a b, p = a ++ py "omitted" ++ b.
Proof.
  intros H. simpl in H.
  destruct H as [<- | [<- | [<- | [<- | [<- | []]]]]].
  - exists (py "<Media "), (py ">"). reflexivity.
  - exists (LRM :: py "<Media "), (py ">"). reflexivity.
  - exists (py "image "), []. reflexivity.
  - exists (py "video "), []. reflexivity.
  - exists (py "sticker "), []. reflexivity.
Qed.

Lemma placeholders_are_system_events (p : pystr) :
  In p MEDIA_PLACEHOLDERS -> ADMIN_ACTION_RE_search p = true.
Proof.
  intros H. apply placeholders_contain_omitted in H as (a & b & ->).
  apply search_omitted.
Qed.



(** ** Media placeholders *)

Lemma user_msgs_of_app (xs ys : list record) :
  user_msgs_of (xs ++ ys) = user_msgs_of xs ++ user_msgs_of ys.
Proof. rewrite !user_msgs_of_filter, !filter_app. reflexivity. Qed.

Lemma system_events_of_app (xs ys : list record) :
  system_events_of (xs ++ ys) = system_events_of xs ++ system_events_of ys.
Proof. rewrite !system_events_of_filter, !filter_app. reflexivity. Qed.

Lemma user_msgs_of_system_event (xs ys : list record) (r : record) :
  is_system_event r = true ->
  user_msgs_of (xs ++ r :: ys) = user_msgs_of (xs ++ ys).
Proof.
  intros Hs. rewrite !user_msgs_of_app. f_equal.
  change (r :: ys) with ([r] ++ ys). rewrite user_msgs_of_app.
  rewrite (user_msgs_of_filter [r]). simpl.
  destruct (in_2025 r); simpl; [rewrite Hs |]; reflexivity.
Qed.

Lemma user_msgs_of_user (xs ys : list record) (r : record) :
  in_2025 r = true -> is_system_event r = false ->
  user_msgs_of (xs ++ r :: ys) = user_msgs_of xs ++ r :: user_msgs_of ys.
Proof.
  intros Hy Hs. rewrite user_msgs_of_app. f_equal.
  change (r :: ys) with ([r] ++ ys). rewrite user_msgs_of_app.
  rewrite (user_msgs_of_filter [r]). simpl. rewrite Hy. simpl. rewrite Hs.
  reflexivity.
Qed.

(** A system event of the target year is seen in two totals and nowhere
    else. *)
Lemma system_event_only_in_totals {U : UnicodeData} (v : pydantic)
    (xs ys : list record) (r : record) :
  in_2025 r = true -> is_system_event r = true ->
  compute_stats v (xs ++ r :: ys) =
  map_result count_system_event (compute_stats v (xs ++ ys)).
Proof.
  intros Hy Hs. unfold compute_stats. rewrite !classify_classes.
  rewrite (user_msgs_of_system_event xs ys r Hs).
  assert (Hn : length (system_events_of (xs ++ r :: ys)) =
               S (length (system_events_of (xs ++ ys)))).
  { rewrite !system_events_of_app. change (r :: ys) with ([r] ++ ys).
    rewrite system_events_of_app, (system_events_of_filter [r]). simpl.
    rewrite Hy. simpl. rewrite Hs. rewrite !length_app. simpl. lia. }
  assert (Hr : length (filter in_2025 (xs ++ r :: ys)) =
               S (length (filter in_2025 (xs ++ ys)))).
  { rewrite !filter_app. simpl. rewrite Hy. rewrite !length_app. simpl. lia. }
  rewrite Hn, Hr.
  destruct (length (user_msgs_of (xs ++ ys)) =? 0).
  - destruct v; reflexivity.
  - repeat
      match goal with
      | |- bind ?m _ = map_result _ (bind ?m _) => destruct m; simpl bind
      | |- (let '(_, _) := ?p in _) = _ => destruct p
      end; reflexivity.
Qed.

(** C1, as the specification states it, fails: a placeholder record of the
    target year is not among the user messages. *)
Lemma media_counts_as_user_counterexample :
  ~ (forall (records : list record) (r : record),
       In r (filter in_2025 records) ->
       is_media_message (message r) = true ->
       In r (user_msgs_of records)).
Proof.
  intros H.
  specialize (H [alice_hello; bob_media] bob_media).
  vm_compute in H.
  destruct H as [H | H]; [right; left; reflexivity | reflexivity | discriminate H | exact H].
Qed.

(** ** The example of the specification *)

Lemma example_chat_response {U : UnicodeData} (v : pydantic) :
  exists res,
    wrapped_text v example_chat = ok res
    /\ total_records res = 2
    /\ total_user_messages res = 1
    /\ total_system_events res = 1
    /\ no_count (night_owl res) = 1
    /\ option_map lm_sender (longest_message res) = Some (py "Alice")
    /\ most_used_word res = Some {| wc_word := py "hello"; wc_count := 1 |}.
Proof. eexists. split; [vm_compute; reflexivity |]. repeat split. Qed.

(** C3, as the specification states it, fails: the pipeline does not give two
    user messages and a night count of two. *)
Lemma example_chat_counterexample :
  ~ (exists (v : pydantic) (res : WrappedResponse),
       wrapped_text (U := ascii_only_unicode) v example_chat = ok res
       /\ total_records res = 2
       /\ total_user_messages res = 2
       /\ no_count (night_owl res) = 2
       /\ option_map lm_sender (longest_message res) = Some (py "Alice")
       /\ most_used_word res = Some {| wc_word := py "hello"; wc_count := 1 |}).
Proof.
  intros (v & res & H & _ & Hu & _).
  destruct (example_chat_response (U := ascii_only_unicode) v)
    as (res' & H' & _ & Hu' & _).
  rewrite H in H'. injection H' as <-. rewrite Hu in Hu'. discriminate Hu'.
Qed.

(** C3, amended.  On the two lines of the example the pipeline gives two
    records, of which Alice's is the one user message and Bob's placeholder a
    system event; the night count is 1, the longest message is Alice's and
    the most used word is [hello], once. *)
Theorem example_chat_summary {U : UnicodeData} (v : pydantic) :
  exists res,
    wrapped_text v example_chat = ok res
    /\ total_records res = 2
    /\ total_user_messages res = 1
    /\ total_system_events res = 1
    /\ no_count (night_owl res) = 1
    /\ option_map lm_sender (longest_message res) = Some (py "Alice")
    /\ most_used_word res = Some {| wc_word := py "hello"; wc_count := 1 |}.
Proof. eexists. split; [vm_compute; reflexivity |]. repeat split. Qed.

(** C2.  On a chat whose records all fall outside the target year the user
    messages are none, and the call that builds the empty response leaves
    [most_used_emoji] out: with version 2 of the validation library the call
    raises, and no response is returned. *)
Theorem empty_subset_raises {U : UnicodeData} :
  (exists records,
     parse_chat_text last_year_chat = ok records
     /\ records <> [] /\ user_msgs_of records = [])
  /\ wrapped_text pydantic_v2 last_year_chat =
     raise (ValidationError "most_used_emoji").
Proof.
  split.
  - eexists. split; [vm_compute; reflexivity |].
    split; [discriminate | reflexivity].
  - vm_compute. reflexivity.
Qed.

(** ** Lines *)

Lemma list_ind_two {A} (P : list A -> Prop) :
  P [] -> (forall a, P [a]) ->
  (forall a b l, P l -> P (b :: l) -> P (a :: b :: l)) ->
  forall l, P l.
Proof.
  intros H0 H1 H2 l.
  enough (H : P l /\ forall a, P (a :: l)) by apply H.
  induction l as [|b l [IH1 IH2]]; split; auto.
Qed.

(** No line that [splitlines] gives holds a line boundary. *)
Lemma splitlines_from_clean (s cur : pystr) :
  no_linebreak cur -> Forall no_linebreak (splitlines_from cur s).
Proof.
  revert cur. induction s as [| a | a b s IHs IHbs] using list_ind_two;
    intros cur Hcur.
  - simpl. destruct cur; constructor; [| constructor].
    apply Forall_rev. exact Hcur.
  - assert (Hrev : no_linebreak (rev cur)) by now apply Forall_rev.
    simpl. destruct (a =? 13)%N; [| destruct (islinebreak a) eqn:Ea].
    + repeat constructor; assumption.
    + repeat constructor; assumption.
    + repeat constructor. apply Forall_app. split; [assumption |].
      repeat constructor; assumption.
  - assert (Hrev : no_linebreak (rev cur)) by now apply Forall_rev.
    assert (Hnil : no_linebreak []) by constructor.
    cbn [splitlines_from].
    destruct (a =? 13)%N; [destruct (b =? 10)%N eqn:Eb |
                           destruct (islinebreak a) eqn:Ea].
    + constructor; [assumption | apply IHs; assumption].
    + constructor; [assumption | apply (IHbs [] Hnil)].
    + constructor; [assumption | apply (IHbs [] Hnil)].
    + apply (IHbs (a :: cur)). constructor; assumption.
Qed.

Lemma splitlines_clean (s : pystr) : Forall no_linebreak (splitlines s).
Proof. apply splitlines_from_clean. constructor. Qed.

Lemma rstrip_newline_clean (l : pystr) : no_linebreak l -> rstrip_newline l = l.
Proof.
  intros H. unfold rstrip_newline, rstrip_by.
  destruct (rev l) as [|c t] eqn:E.
  - simpl. rewrite <- (rev_involutive l), E. reflexivity.
  - assert (Hc : islinebreak c = false).
    { unfold no_linebreak in H. rewrite Forall_forall in H. apply H.
      apply in_rev. rewrite E. now left. }
    cbn [lstrip_by]. destruct (LF =? c)%N eqn:Ec.
    + apply N.eqb_eq in Ec. subst c. discriminate Hc.
    + rewrite <- E. apply rev_involutive.
Qed.

(** ** Input without a header line *)

Section NoHeader.
Context {U : UnicodeData}.

Lemma parse_line_orphan (records : list record) (raw_line : pystr) :
  header_match (rstrip_newline raw_line) = None ->
  parse_line records None raw_line = ok (records, None).
Proof. intros H. unfold parse_line. rewrite H. reflexivity. Qed.

Lemma parse_lines_orphans (pre rest : list pystr) (records : list record) :
  Forall (fun l => header_match (rstrip_newline l) = None) pre ->
  parse_lines (pre ++ rest) records None = parse_lines rest records None.
Proof.
  induction 1 as [| l pre Hl _ IH]; simpl; [reflexivity |].
  rewrite (parse_line_orphan records l Hl). simpl. exact IH.
Qed.

Lemma headerless_lines (text : pystr) :
  Forall (fun line => header_match line = None) (splitlines text) ->
  Forall (fun l => header_match (rstrip_newline l) = None) (splitlines text).
Proof.
  intros H. pose proof (splitlines_clean text) as Hc.
  rewrite Forall_forall in *. intros l Hl.
  rewrite (rstrip_newline_clean l (Hc l Hl)). now apply H.
Qed.

End NoHeader.

(** C5.  When no line of the text has the shape of a header, and so for the
    empty text, the parser returns the empty list and raises nothing, and
    the handler answers with the error of an unrecognized format, whatever
    the version of the validation library: no response is built. *)
Theorem headerless_text_rejected {U : UnicodeData} (v : pydantic) (text : pystr) :
  Forall (fun line => header_match line = None) (splitlines text) ->
  parse_chat_text text = ok []
  /\ wrapped_text v text = raise NO_MESSAGES.
Proof.
  intros H. apply headerless_lines in H.
  assert (Hp : parse_chat_text text = ok []).
  { unfold parse_chat_text.
    rewrite <- (app_nil_r (splitlines text)).
    rewrite (parse_lines_orphans _ [] [] H). reflexivity. }
  split; [exact Hp |].
  unfold wrapped_text. rewrite Hp. reflexivity.
Qed.

Lemma headerless_text_rejected_witness :
  (Forall (fun line => header_match (U := ascii_only_unicode) line = None)
          (splitlines [])
   /\ parse_chat_text (U := ascii_only_unicode) [] = ok []
   /\ wrapped_text (U := ascii_only_unicode) pydantic_v1 [] = raise NO_MESSAGES)
  /\ (Forall (fun line => header_match (U := ascii_only_unicode) line = None)
             (splitlines (py "hello" ++ [LF] ++ py "2025/01/05 Alice: hi"))
      /\ wrapped_text (U := ascii_only_unicode) pydantic_v2
           (py "hello" ++ [LF] ++ py "2025/01/05 Alice: hi") = raise NO_MESSAGES).
Proof.
  split.
  - assert (H : Forall (fun line => header_match (U := ascii_only_unicode) line = None)
                       (splitlines [])) by constructor.
    split; [exact H |].
    exact (headerless_text_rejected (U := ascii_only_unicode) pydantic_v1 [] H).
  - assert (H : Forall (fun line => header_match (U := ascii_only_unicode) line = None)
                       (splitlines (py "hello" ++ [LF] ++ py "2025/01/05 Alice: hi")))
      by (repeat constructor).
    split; [exact H |].
    exact (proj2 (headerless_text_rejected (U := ascii_only_unicode) pydantic_v2 _ H)).
Defined.

(** ** The tokenizer *)

Lemma rev_cons_not_nil {A} (a : A) (l : list A) : rev (a :: l) <> [].
Proof.
  intros E. apply (f_equal (@length _)) in E.
  rewrite length_rev in E. discriminate E.
Qed.

Lemma findall_runs_maximal (f : N -> bool) (s cur : pystr) :
  Forall (fun c => f c = true) cur ->
  maximal_runs f (rev cur ++ s) (findall_runs f cur s).
Proof.
  revert cur. induction s as [|c s IH]; intros cur Hcur.
  - destruct cur as [|a cur]; cbn [findall_runs].
    + constructor.
    + apply runs_take; try constructor; auto.
      * apply rev_cons_not_nil.
      * apply Forall_rev. exact Hcur.
  - cbn [findall_runs]. destruct (f c) eqn:Ec.
    + replace (rev cur ++ c :: s) with (rev (c :: cur) ++ s)
        by (simpl; rewrite <- app_assoc; reflexivity).
      apply IH. constructor; assumption.
    + destruct cur as [|a cur].
      * simpl. apply runs_skip; [assumption |]. apply (IH []). constructor.
      * apply runs_take.
        -- apply rev_cons_not_nil.
        -- apply Forall_rev. exact Hcur.
        -- exact Ec.
        -- apply runs_skip; [assumption |]. apply (IH []). constructor.
Qed.

Lemma findall_runs_take (f : N -> bool) (r s cur : pystr) :
  Forall (fun c => f c = true) r ->
  match s with [] => True | c :: _ => f c = false end ->
  rev cur ++ r <> [] ->
  findall_runs f cur (r ++ s) = (rev cur ++ r) :: findall_runs f [] s.
Proof.
  revert cur. induction r as [|a r IH]; intros cur Hr Hs Hne.
  - rewrite app_nil_r in *. simpl app.
    destruct cur as [|b cur]; [contradiction Hne; reflexivity |].
    destruct s as [|c s]; cbn [findall_runs].
    + reflexivity.
    + rewrite Hs. reflexivity.
  - inversion Hr as [| ? ? Ha Hr']; subst.
    simpl. rewrite Ha. rewrite (IH (a :: cur) Hr' Hs).
    + simpl. rewrite <- app_assoc. reflexivity.
    + simpl. rewrite <- app_assoc. simpl. intros E.
      apply (f_equal (@length _)) in E. rewrite length_app in E.
      simpl in E. lia.
Qed.

(** The runs that [findall] gives are the maximal runs, and the only ones. *)
Lemma maximal_runs_findall (f : N -> bool) (s : pystr) (rs : list pystr) :
  maximal_runs f s rs <-> rs = findall_runs f [] s.
Proof.
  split.
  - induction 1 as [| c s rs Hc _ IH | r s rs Hne Hr Hs _ IH].
    + reflexivity.
    + simpl. rewrite Hc. exact IH.
    + rewrite (findall_runs_take f r s [] Hr Hs); [now subst |].
      simpl. exact Hne.
  - intros ->. apply (findall_runs_maximal f s []). constructor.
Qed.

Lemma maximal_runs_chars (f : N -> bool) (s : pystr) (rs : list pystr) :
  maximal_runs f s rs ->
  Forall (fun r => r <> [] /\ Forall (fun c => f c = true) r) rs.
Proof. induction 1; auto. Qed.

Section Tokenizer.
Context {U : UnicodeData}.

Lemma lower_token_chars (t : pystr) :
  Forall (fun c => is_token_char c = true) t -> lower t = t.
Proof.
  induction 1 as [| c t Hc _ IH]; [reflexivity |].
  unfold lower in *. simpl. rewrite IH.
  unfold is_token_char in Hc. unfold lower_char.
  destruct (c <? 128)%N eqn:E1.
  - destruct ((65 <=? c)%N && (c <=? 90)%N) eqn:E2; [| reflexivity].
    exfalso.
    apply andb_true_iff in E2 as [Ha Hb].
    apply N.leb_le in Ha, Hb.
    rewrite !orb_true_iff, !andb_true_iff, !N.leb_le, N.eqb_eq in Hc. lia.
  - exfalso. apply N.ltb_ge in E1.
    rewrite !orb_true_iff, !andb_true_iff, !N.leb_le, N.eqb_eq in Hc. lia.
Qed.

Lemma stopwords_token_chars :
  Forall (fun w => Forall (fun c => is_token_char c = true) w) STOPWORDS.
Proof.
  assert (H : forallb (forallb is_token_char) STOPWORDS = true)
    by (vm_compute; reflexivity).
  rewrite forallb_forall in H. apply Forall_forall. intros w Hw.
  apply Forall_forall. intros c Hc.
  specialize (H w Hw). rewrite forallb_forall in H. now apply H.
Qed.

Lemma keep_token_spec (t : pystr) :
  keep_token t = true <-> ~ In t STOPWORDS /\ 2 <= length t.
Proof.
  unfold keep_token. rewrite andb_true_iff, negb_true_iff, Nat.ltb_lt.
  rewrite <- not_true_iff_false, str_in_In.
  split; intros [Hs Hl]; (split; [exact Hs | lia]).
Qed.

(** A word that is a stop word once lower-cased gives no token. *)
Lemma tokenize_stop_word (u : pystr) :
  In (lower u) STOPWORDS -> tokenize u = [].
Proof.
  unfold tokenize. intros H. simpl in H.
  repeat (destruct H as [H | H]; [rewrite <- H; reflexivity |]).
  destruct H.
Qed.

End Tokenizer.

(** C6.  The tokens are taken from the lower-cased text: they are its maximal
    runs of ASCII letters, digits and apostrophes, in the order of the text
    and with their repetitions, without the runs of fewer than 2 characters
    and without the stop words.  No token has fewer than 2 characters, none is
    a stop word, in whatever case either is written, and a word that is a
    stop word up to case gives no token. *)
Theorem tokenize_spec {U : UnicodeData} (text : pystr) :
  (exists runs,
     maximal_runs is_token_char (lower text) runs
     /\ tokenize text =
        filter (fun t => negb (str_in t STOPWORDS) && (1 <? length t)) runs)
  /\ Forall (fun t =>
       2 <= length t
       /\ Forall (fun c => is_token_char c = true) t
       /\ ~ In t STOPWORDS
       /\ forall w, In w STOPWORDS -> lower t <> lower w)
     (tokenize text)
  /\ forall u, In (lower u) STOPWORDS -> tokenize u = [].
Proof.
  split; [| split].
  - exists (findall_runs is_token_char [] (lower text)). split.
    + now apply maximal_runs_findall.
    + reflexivity.
  - apply Forall_forall. intros t Ht.
    unfold tokenize in Ht. apply filter_In in Ht as [Hrun Hkeep].
    apply keep_token_spec in Hkeep as [Hstop Hlen].
    assert (Hchars : Forall (fun c => is_token_char c = true) t).
    { pose proof (findall_runs_maximal is_token_char (lower text) []
                    (Forall_nil _)) as Hm.
      apply maximal_runs_chars in Hm. rewrite Forall_forall in Hm.
      now apply Hm. }
    repeat split; try assumption.
    intros w Hw E.
    rewrite (lower_token_chars t Hchars) in E.
    pose proof stopwords_token_chars as Hs. rewrite Forall_forall in Hs.
    rewrite (lower_token_chars w (Hs w Hw)) in E. subst w. contradiction.
  - apply @tokenize_stop_word.
Qed.

Lemma tokenize_spec_witness :
  tokenize (U := ascii_only_unicode) (py "The quick FOX, the fox!") =
  [py "quick"; py "fox"; py "fox"]
  /\ In (lower (U := ascii_only_unicode) (py "THE")) STOPWORDS
  /\ tokenize (U := ascii_only_unicode) (py "THE") = [].
Proof.
  split; [reflexivity |].
  assert (H : In (lower (U := ascii_only_unicode) (py "THE")) STOPWORDS)
    by (left; reflexivity).
  split; [exact H |].
  exact (proj2 (proj2 (tokenize_spec (U := ascii_only_unicode) (py "THE")))
           (py "THE") H).
Defined.

(** ** Stripping *)

Section Strip.
Variable f : N -> bool.

Lemma lstrip_by_all (s : pystr) :
  Forall (fun c => f c = true) s -> lstrip_by f s = [].
Proof. induction 1 as [| c s Hc _ IH]; simpl; [| rewrite Hc]; auto. Qed.

Lemma lstrip_by_nil_all (s : pystr) :
  lstrip_by f s = [] -> Forall (fun c => f c = true) s.
Proof.
  induction s as [|c s IH]; simpl; [constructor |].
  destruct (f c) eqn:E; [| discriminate]. auto.
Qed.

Lemma lstrip_by_app_all (a b : pystr) :
  Forall (fun c => f c = true) a -> lstrip_by f (a ++ b) = lstrip_by f b.
Proof. induction 1 as [| c a Hc _ IH]; simpl; [| rewrite Hc]; auto. Qed.

Lemma lstrip_by_app_keep (s w : pystr) :
  lstrip_by f s <> [] -> lstrip_by f (s ++ w) = lstrip_by f s ++ w.
Proof.
  induction s as [|c s IH]; simpl; [congruence |].
  destruct (f c); auto.
Qed.

Lemma lstrip_by_split (s : pystr) :
  exists a, s = a ++ lstrip_by f s /\ Forall (fun c => f c = true) a.
Proof.
  induction s as [|c s (a & E & Ha)]; simpl.
  - exists []. split; [reflexivity | constructor].
  - destruct (f c) eqn:Ec.
    + exists (c :: a). split; [simpl; congruence | constructor; assumption].
    + exists []. split; [reflexivity | constructor].
Qed.

Lemma lstrip_by_head (s t : pystr) (c : N) :
  lstrip_by f s = c :: t -> f c = false.
Proof.
  induction s as [|d s IH]; simpl; [discriminate |].
  destruct (f d) eqn:Ed; [assumption |].
  intros E. injection E as -> _. exact Ed.
Qed.

Lemma rstrip_by_split (s : pystr) :
  exists b, s = rstrip_by f s ++ b /\ Forall (fun c => f c = true) b.
Proof.
  unfold rstrip_by. destruct (lstrip_by_split (rev s)) as (a & E & Ha).
  exists (rev a). split; [| now apply Forall_rev].
  rewrite <- rev_app_distr, <- E. symmetry. apply rev_involutive.
Qed.

Lemma rstrip_by_last (s t : pystr) (c : N) :
  rstrip_by f s = t ++ [c] -> f c = false.
Proof.
  unfold rstrip_by. intros E.
  apply (f_equal (@rev N)) in E.
  rewrite rev_involutive, rev_app_distr in E. simpl in E.
  exact (lstrip_by_head _ _ _ E).
Qed.

Lemma rstrip_by_app_all (a b : pystr) :
  Forall (fun c => f c = true) b -> rstrip_by f (a ++ b) = rstrip_by f a.
Proof.
  intros Hb. unfold rstrip_by. rewrite rev_app_distr.
  rewrite lstrip_by_app_all; [reflexivity | now apply Forall_rev].
Qed.

End Strip.

Lemma strip_app_space (s w : pystr) : all_space w -> strip (s ++ w) = strip s.
Proof.
  intros Hw. unfold strip.
  destruct (lstrip_by isspace s) as [|c t] eqn:E.
  - apply lstrip_by_nil_all in E.
    rewrite (lstrip_by_app_all isspace s w E), (lstrip_by_all isspace w Hw).
    reflexivity.
  - rewrite lstrip_by_app_keep by (rewrite E; discriminate).
    rewrite E. now apply rstrip_by_app_all.
Qed.

Lemma strip_rstrip_newline (s : pystr) : strip (rstrip_newline s) = strip s.
Proof.
  destruct (rstrip_by_split (N.eqb LF) s) as (b & E & Hb).
  rewrite E at 2. symmetry. apply strip_app_space.
  unfold all_space. rewrite Forall_forall in *. intros c Hc.
  specialize (Hb c Hc). apply N.eqb_eq in Hb. subst c. reflexivity.
Qed.

(** What [strip] gives is the string without the blanks of its two ends. *)
Lemma strip_spec (s : pystr) :
  (exists a b, s = a ++ strip s ++ b /\ all_space a /\ all_space b)
  /\ (forall c t, strip s = c :: t -> isspace c = false)
  /\ (forall c t, strip s = t ++ [c] -> isspace c = false).
Proof.
  unfold strip.
  destruct (lstrip_by_split isspace s) as (a & Ea & Ha).
  destruct (rstrip_by_split isspace (lstrip_by isspace s)) as (b & Eb & Hb).
  split; [| split].
  - exists a, b. split; [| split; assumption].
    rewrite <- Eb. exact Ea.
  - intros c t E. rewrite E in Eb.
    simpl in Eb. apply (lstrip_by_head isspace s (t ++ b) c). exact Eb.
  - intros c t E. exact (rstrip_by_last isspace _ _ _ E).
Qed.

(** ** Continuation lines *)

Section Continuation.
Context {U : UnicodeData}.

Lemma parse_line_blank (records : list record) (current : option record)
    (raw_line : pystr) :
  is_continuation raw_line -> strip raw_line = [] ->
  parse_line records current raw_line = ok (records, current).
Proof.
  intros Hc Hb. unfold parse_line. rewrite Hc, strip_rstrip_newline, Hb.
  destruct current; reflexivity.
Qed.

Lemma parse_line_append (records : list record) (c : record) (raw_line : pystr) :
  is_continuation raw_line -> strip raw_line <> [] ->
  parse_line records (Some c) raw_line =
  ok (records, Some (with_message c (message c ++ [LF] ++ strip raw_line))).
Proof.
  intros Hc Hb. unfold parse_line. rewrite Hc, strip_rstrip_newline.
  destruct (str_eqb (strip raw_line) []) eqn:E; [| reflexivity].
  apply str_eqb_eq in E. contradiction.
Qed.

Lemma parse_lines_body (ls rest : list pystr) (records : list record) (c : record) :
  Forall is_continuation ls ->
  parse_lines (ls ++ rest) records (Some c) =
  parse_lines rest records (Some (with_message c (body_after (message c) ls))).
Proof.
  intros H. revert c. induction H as [| l ls Hl _ IH]; intros c.
  - unfold body_after. simpl. rewrite app_nil_r. destruct c; reflexivity.
  - cbn [app parse_lines].
    destruct (str_eqb (strip l) []) eqn:E.
    + apply str_eqb_eq in E.
      rewrite (parse_line_blank records (Some c) l Hl E). cbn [bind fst snd].
      rewrite IH. unfold body_after. simpl. rewrite E. reflexivity.
    + assert (Hne : strip l <> []).
      { intros E'. rewrite E' in E. discriminate E. }
      rewrite (parse_line_append records c l Hl Hne). cbn [bind fst snd].
      rewrite IH. unfold body_after, with_message. simpl. rewrite E. simpl.
      rewrite <- !app_assoc. reflexivity.
Qed.

End Continuation.

(** C7.  Continuation lines before any header line leave the parser as it
    was: they give no record.  A continuation line of blanks only changes
    nothing, whatever record is open.  A continuation line that is not blank
    adds to the message of the open record one line feed and the line without
    the blanks of its two ends; so after the continuation lines [ls] the body
    is the message, then the lines that are not blank, each stripped and each
    after one line feed. *)
Theorem continuation_lines {U : UnicodeData} (pre ls rest : list pystr)
    (l : pystr) (records : list record) (c : record) :
  Forall is_continuation pre -> is_continuation l -> Forall is_continuation ls ->
  parse_lines (pre ++ rest) records None = parse_lines rest records None
  /\ parse_lines pre [] None = ok ([], None)
  /\ (forall text, splitlines text = pre ++ rest ->
        parse_chat_text text = parse_chat_text_lines rest)
  /\ (strip l = [] ->
      forall current,
        parse_line records current l = ok (records, current))
  /\ (strip l <> [] ->
      parse_line records (Some c) l =
      ok (records, Some (with_message c (message c ++ [LF] ++ strip l))))
  /\ parse_lines (ls ++ rest) records (Some c) =
     parse_lines rest records (Some (with_message c (body_after (message c) ls)))
  /\ (exists a b, l = a ++ strip l ++ b /\ all_space a /\ all_space b)
  /\ (forall d t, strip l = d :: t -> isspace d = false)
  /\ (forall d t, strip l = t ++ [d] -> isspace d = false).
Proof.
  intros Hpre Hl Hls.
  split; [now apply parse_lines_orphans |].
  split.
  { rewrite <- (app_nil_r pre). now rewrite (parse_lines_orphans pre [] []). }
  split.
  { intros text E. unfold parse_chat_text, parse_chat_text_lines.
    now rewrite E, (parse_lines_orphans pre rest []). }
  split; [intros Hb current; now apply parse_line_blank |].
  split; [intros Hb; now apply parse_line_append |].
  split; [now apply parse_lines_body |].
  apply strip_spec.
Qed.

Lemma continuation_lines_witness :
  Forall (is_continuation (U := ascii_only_unicode)) [py "junk"; []]
  /\ is_continuation (U := ascii_only_unicode) (py "  more ")
  /\ Forall (is_continuation (U := ascii_only_unicode))
            [py "  more "; py "   "; py "x"]
  /\ parse_lines (U := ascii_only_unicode)
       ([py "junk"; []] ++ [py "[2025/03/09, 23:01:00] Alice: hello"]) [] None =
     ok ([], Some alice_hello)
  /\ parse_lines (U := ascii_only_unicode)
       ([py "  more "; py "   "; py "x"] ++ []) [] (Some alice_hello) =
     ok ([], Some (with_message alice_hello
                     (py "hello" ++ [LF] ++ py "more" ++ [LF] ++ py "x"))).
Proof.
  assert (H1 : Forall (is_continuation (U := ascii_only_unicode)) [py "junk"; []])
    by (repeat constructor).
  assert (H2 : is_continuation (U := ascii_only_unicode) (py "  more "))
    by reflexivity.
  assert (H3 : Forall (is_continuation (U := ascii_only_unicode))
                      [py "  more "; py "   "; py "x"])
    by (repeat constructor).
  pose proof (continuation_lines (U := ascii_only_unicode)
                [py "junk"; []] [py "  more "; py "   "; py "x"]
                [py "[2025/03/09, 23:01:00] Alice: hello"]
                (py "  more ") [] alice_hello H1 H2 H3) as (Ha & _).
  pose proof (continuation_lines (U := ascii_only_unicode)
                [py "junk"; []] [py "  more "; py "   "; py "x"]
                [] (py "  more ") [] alice_hello H1 H2 H3)
    as (_ & _ & _ & _ & Hb & _).
  repeat split; assumption.
Defined.

(** ** Lists in strong order *)

Section StrongOrder.
Context {A : Type}.

Lemma StronglySorted_weaken (R R' : A -> A -> Prop) (l : list A) :
  (forall a b, R a b -> R' a b) -> StronglySorted R l -> StronglySorted R' l.
Proof.
  intros HR. induction 1 as [| a l _ IH Ha]; constructor; auto.
  eapply Forall_impl; [| exact Ha]. auto.
Qed.

Lemma StronglySorted_snoc (R : A -> A -> Prop) (l : list A) (z : A) :
  StronglySorted R l -> Forall (fun a => R a z) l -> StronglySorted R (l ++ [z]).
Proof.
  induction 1 as [| a l _ IH Ha]; intros Hz; simpl.
  - repeat constructor.
  - inversion Hz as [| ? ? Haz Hlz]; subst. constructor; [auto |].
    apply Forall_app. split; [assumption | repeat constructor; assumption].
Qed.

Lemma StronglySorted_app_inv (R : A -> A -> Prop) (l1 l2 : list A) :
  StronglySorted R (l1 ++ l2) ->
  StronglySorted R l1 /\ StronglySorted R l2
  /\ Forall (fun a => Forall (R a) l2) l1.
Proof.
  induction l1 as [|a l1 IH]; simpl; intros H.
  - repeat split; [constructor | assumption | constructor].
  - apply StronglySorted_inv in H as [H Ha].
    destruct (IH H) as (H1 & H2 & H3).
    apply Forall_app in Ha as [Ha1 Ha2].
    repeat split; [constructor | | constructor]; assumption.
Qed.

Lemma StronglySorted_firstn (R : A -> A -> Prop) (n : nat) (l : list A) :
  StronglySorted R l -> StronglySorted R (firstn n l).
Proof.
  intros H. rewrite <- (firstn_skipn n l) in H.
  now apply StronglySorted_app_inv in H.
Qed.

End StrongOrder.

(** ** [max] and [min] *)

Section Extrema.
Context {A : Type}.
Variable key : A -> nat.

Lemma max_from_spec (xs : list A) (best : A) :
  exists l1 l2,
    best :: xs = l1 ++ max_from key best xs :: l2
    /\ Forall (fun y => key y < key (max_from key best xs)) l1
    /\ Forall (fun y => key y <= key (max_from key best xs)) l2.
Proof.
  revert best. induction xs as [|x xs IH]; intros best; simpl.
  - exists [], []. repeat split; constructor.
  - destruct (key best <? key x) eqn:E.
    + apply Nat.ltb_lt in E.
      destruct (IH x) as (l1 & l2 & Heq & H1 & H2).
      exists (best :: l1), l2. rewrite Heq. repeat split; try assumption.
      constructor; [| assumption].
      destruct l1 as [|y l1]; simpl in Heq; injection Heq as Hx _.
      * rewrite <- Hx. exact E.
      * subst y. inversion H1; subst. lia.
    + apply Nat.ltb_ge in E.
      destruct (IH best) as (l1 & l2 & Heq & H1 & H2).
      remember (max_from key best xs) as m eqn:Em.
      destruct l1 as [|y l1]; simpl in Heq; injection Heq as Hb Hxs.
      * exists [], (x :: l2). clear Em. subst m xs.
        repeat split; [constructor |].
        constructor; [exact E | assumption].
      * subst y. exists (best :: x :: l1), l2. rewrite Hxs.
        inversion H1; subst.
        repeat split; [| assumption].
        constructor; [assumption |]. constructor; [lia | assumption].
Qed.

Lemma min_from_spec (xs : list A) (best : A) :
  exists l1 l2,
    best :: xs = l1 ++ min_from key best xs :: l2
    /\ Forall (fun y => key (min_from key best xs) < key y) l1
    /\ Forall (fun y => key (min_from key best xs) <= key y) l2.
Proof.
  revert best. induction xs as [|x xs IH]; intros best; simpl.
  - exists [], []. repeat split; constructor.
  - destruct (key x <? key best) eqn:E.
    + apply Nat.ltb_lt in E.
      destruct (IH x) as (l1 & l2 & Heq & H1 & H2).
      exists (best :: l1), l2. rewrite Heq. repeat split; try assumption.
      constructor; [| assumption].
      destruct l1 as [|y l1]; simpl in Heq; injection Heq as Hx _.
      * rewrite <- Hx. exact E.
      * subst y. inversion H1; subst. lia.
    + apply Nat.ltb_ge in E.
      destruct (IH best) as (l1 & l2 & Heq & H1 & H2).
      remember (min_from key best xs) as m eqn:Em.
      destruct l1 as [|y l1]; simpl in Heq; injection Heq as Hb Hxs.
      * exists [], (x :: l2). clear Em. subst m xs.
        repeat split; [constructor |].
        constructor; [exact E | assumption].
      * subst y. exists (best :: x :: l1), l2. rewrite Hxs.
        inversion H1; subst.
        repeat split; [| assumption].
        constructor; [assumption |]. constructor; [lia | assumption].
Qed.

End Extrema.

Lemma StronglySorted_map {A B} (R : B -> B -> Prop) (f : A -> B) (l : list A) :
  StronglySorted (fun a b => R (f a) (f b)) l <-> StronglySorted R (map f l).
Proof.
  induction l as [|a l IH]; simpl; split; intros H; try constructor;
    apply StronglySorted_inv in H as [H Ha].
  - now apply IH.
  - apply Forall_map. exact Ha.
  - now apply IH.
  - rewrite Forall_map in Ha. exact Ha.
Qed.

(** ** Frequency tables *)

Section CounterFacts.
Context {K : Type}.
Variable eqb : K -> K -> bool.
Hypothesis eqb_eq : forall a b, eqb a b = true <-> a = b.

Lemma eqb_same (a : K) : eqb a a = true.
Proof. now apply eqb_eq. Qed.

Lemma eqb_diff (a b : K) : a <> b -> eqb a b = false.
Proof.
  intros H. destruct (eqb a b) eqn:E; [| reflexivity].
  apply eqb_eq in E. contradiction.
Qed.

Lemma occurrences_app (xs ys : list K) (k : K) :
  occurrences eqb (xs ++ ys) k = occurrences eqb xs k + occurrences eqb ys k.
Proof. unfold occurrences. now rewrite filter_app, length_app. Qed.

Lemma occurrences_single (k k' : K) :
  occurrences eqb [k] k' = if eqb k' k then 1 else 0.
Proof. unfold occurrences. simpl. now destruct (eqb k' k). Qed.

Lemma occurrences_notin (xs : list K) (k : K) :
  ~ In k xs -> occurrences eqb xs k = 0.
Proof.
  unfold occurrences. induction xs as [|x xs IH]; simpl; intros H; [reflexivity |].
  rewrite eqb_diff by (intros ->; apply H; now left).
  apply IH. intros Hin. apply H. now right.
Qed.

Lemma occurrences_in (xs : list K) (k : K) :
  In k xs -> 0 < occurrences eqb xs k.
Proof.
  unfold occurrences. induction xs as [|x xs IH]; simpl; intros H; [contradiction |].
  destruct (eqb k x) eqn:E; simpl; [lia |].
  destruct H as [-> | H]; [rewrite eqb_same in E; discriminate | auto].
Qed.

Lemma in_split_first (xs : list K) (a : K) :
  In a xs -> exists pre post, xs = pre ++ a :: post /\ ~ In a pre.
Proof.
  induction xs as [|x xs IH]; simpl; intros H; [contradiction |].
  destruct (eqb a x) eqn:E.
  - apply eqb_eq in E. subst x. exists [], xs. split; [reflexivity | auto].
  - destruct H as [-> | H]; [rewrite eqb_same in E; discriminate |].
    destruct (IH H) as (pre & post & -> & Hpre).
    exists (x :: pre), post. split; [reflexivity |].
    intros [-> | Hin]; [rewrite eqb_same in E; discriminate | auto].
Qed.

Lemma first_before_app (xs l : list K) (a b : K) :
  first_before xs a b -> first_before (xs ++ l) a b.
Proof.
  intros (pre & post & -> & Ha & Hb & Hab).
  exists pre, (post ++ l). rewrite <- app_assoc. simpl. auto.
Qed.

Lemma first_before_new (xs : list K) (a k : K) :
  In a xs -> ~ In k xs -> first_before (xs ++ [k]) a k.
Proof.
  intros Ha Hk. destruct (in_split_first xs a Ha) as (pre & post & -> & Hpre).
  exists pre, (post ++ [k]). rewrite <- app_assoc. simpl.
  repeat split; [assumption | |].
  - intros Hin. apply Hk. apply in_or_app. now left.
  - intros ->. apply Hk. apply in_elt.
Qed.

Lemma counter_incr_in (c : counter K) (k : K) :
  In k (map fst c) -> NoDup (map fst c) ->
  map fst (counter_incr eqb k c) = map fst c
  /\ forall k' n', In (k', n') (counter_incr eqb k c) ->
       (k' <> k /\ In (k', n') c)
       \/ (k' = k /\ exists n, In (k, n) c /\ n' = S n).
Proof.
  induction c as [|[k0 n0] c IH]; simpl; intros Hin Hnd; [contradiction |].
  inversion Hnd as [| ? ? Hk0 Hnd']; subst.
  destruct (eqb k0 k) eqn:E.
  - apply eqb_eq in E. subst k0. split; [reflexivity |].
    intros k' n' [Heq | Hin'].
    + injection Heq as <- <-. right. split; [reflexivity |].
      exists n0. split; [now left | reflexivity].
    + left. split; [| now right].
      intros ->. apply Hk0. apply (in_map fst) in Hin'. exact Hin'.
  - destruct Hin as [-> | Hin]; [rewrite eqb_same in E; discriminate |].
    destruct (IH Hin Hnd') as [Hkeys Hent]. split; [simpl; now f_equal |].
    intros k' n' [Heq | Hin'].
    + injection Heq as <- <-. left. split; [| now left].
      intros ->. rewrite eqb_same in E. discriminate.
    + destruct (Hent k' n' Hin') as [[Hne Hc] | [-> (n & Hc & ->)]].
      * left. split; [assumption | now right].
      * right. split; [reflexivity |]. exists n. split; [now right | reflexivity].
Qed.

Lemma counter_incr_notin (c : counter K) (k : K) :
  ~ In k (map fst c) -> counter_incr eqb k c = c ++ [(k, 1)].
Proof.
  induction c as [|[k0 n0] c IH]; simpl; intros H; [reflexivity |].
  rewrite eqb_diff by (intros ->; apply H; now left).
  rewrite IH by (intros Hin; apply H; now right). reflexivity.
Qed.

Lemma counter_update_app (c : counter K) (xs ys : list K) :
  counter_update eqb c (xs ++ ys) = counter_update eqb (counter_update eqb c xs) ys.
Proof. unfold counter_update. apply fold_left_app. Qed.

Lemma Counter_snoc (xs : list K) (k : K) :
  Counter eqb (xs ++ [k]) = counter_incr eqb k (Counter eqb xs).
Proof. unfold Counter. rewrite counter_update_app. reflexivity. Qed.

Lemma in_keys_dec (c : counter K) (k : K) :
  {In k (map fst c)} + {~ In k (map fst c)}.
Proof.
  induction c as [|[k0 n0] c [IH | IH]]; simpl.
  - right. auto.
  - left. now right.
  - destruct (eqb k0 k) eqn:E.
    + left. left. now apply eqb_eq.
    + right. intros [-> | H]; [rewrite eqb_same in E; discriminate | auto].
Qed.

(** [Counter(xs)] has one entry for each key met in [xs], with the number of
    its occurrences, and the entries are in the order of first encounter. *)
Lemma Counter_spec (xs : list K) : counter_of eqb xs (Counter eqb xs).
Proof.
  induction xs as [|k xs IH] using rev_ind.
  - repeat split; simpl; try constructor; try contradiction; tauto.
  - destruct IH as (Hnd & Hkeys & Hcount & Hord).
    rewrite Counter_snoc.
    destruct (in_keys_dec (Counter eqb xs) k) as [Hin | Hnin].
    + destruct (counter_incr_in _ k Hin Hnd) as [Hk Hent].
      unfold counter_of. rewrite Hk. repeat split.
      * exact Hnd.
      * intros H. apply in_or_app. left. now apply Hkeys.
      * intros H. apply in_app_or in H as [H | [<- | []]]; [now apply Hkeys | exact Hin].
      * intros k' n' H. rewrite occurrences_app.
        destruct (Hent k' n' H) as [[Hne Hc] | [-> (n & Hc & ->)]].
        -- rewrite (Hcount k' n' Hc), occurrences_single.
           rewrite eqb_diff by assumption. lia.
        -- rewrite (Hcount k n Hc), occurrences_single.
           rewrite eqb_same. lia.
      * eapply StronglySorted_weaken; [| exact Hord].
        intros a b. apply first_before_app.
    + rewrite (counter_incr_notin _ k Hnin).
      assert (Hk : ~ In k xs) by (intros H; apply Hnin; now apply Hkeys).
      unfold counter_of. rewrite map_app. simpl. repeat split.
      * rewrite <- (rev_involutive (map fst (Counter eqb xs) ++ [k])).
        apply NoDup_rev. rewrite rev_app_distr. simpl. constructor.
        -- rewrite <- in_rev. exact Hnin.
        -- apply NoDup_rev. exact Hnd.
      * intros H. apply in_or_app. apply in_app_or in H as [H | H]; [left | now right].
        now apply Hkeys.
      * intros H. apply in_or_app. apply in_app_or in H as [H | H]; [left | now right].
        now apply Hkeys.
      * intros k' n' H. rewrite occurrences_app.
        apply in_app_or in H as [H | [Heq | []]].
        -- assert (Hne : k' <> k).
           { intros ->. apply Hnin. apply (in_map fst) in H. exact H. }
           rewrite (Hcount k' n' H), occurrences_single.
           rewrite eqb_diff by assumption. lia.
        -- injection Heq as <- <-. rewrite (occurrences_notin xs k Hk).
           rewrite occurrences_single, eqb_same. reflexivity.
      * apply StronglySorted_snoc.
        -- eapply StronglySorted_weaken; [| exact Hord].
           intros a b. apply first_before_app.
        -- apply Forall_forall. intros a Ha.
           apply first_before_new; [now apply Hkeys | exact Hk].
Qed.

Lemma Counter_nonempty (x : K) (xs : list K) : Counter eqb (x :: xs) <> [].
Proof.
  destruct (Counter_spec (x :: xs)) as (_ & Hkeys & _).
  intros E. rewrite E in Hkeys. apply (Hkeys x). now left.
Qed.

End CounterFacts.

Lemma StronglySorted_weaken_in {A} (R R' : A -> A -> Prop) (l : list A) :
  (forall a b, In a l -> In b l -> R a b -> R' a b) ->
  StronglySorted R l -> StronglySorted R' l.
Proof.
  intros HR H. induction H as [| a l _ IH Ha]; constructor.
  - apply IH. intros x y Hx Hy. apply HR; now right.
  - rewrite Forall_forall in *. intros b Hb.
    apply HR; [now left | now right | now apply Ha].
Qed.

(** ** The most and the least frequent key *)

Section Ranking.
Context {K : Type}.
Variable eqb : K -> K -> bool.
Hypothesis eqb_eq : forall a b, eqb a b = true <-> a = b.

(** An entry [m] of a frequency table, with lower counts before it and no
    higher count after it, is the most frequent key, the first met. *)
Lemma most_frequent_entry (xs : list K) (l1 l2 : counter K) (m : K * nat) :
  counter_of eqb xs (l1 ++ m :: l2) ->
  Forall (fun y => snd y < snd m) l1 ->
  Forall (fun y => snd y <= snd m) l2 ->
  most_frequent eqb xs (fst m) (snd m).
Proof.
  intros (Hnd & Hkeys & Hcount & Hord) H1 H2.
  rewrite map_app in Hord. simpl in Hord.
  apply StronglySorted_app_inv in Hord as (_ & Hm & _).
  apply StronglySorted_inv in Hm as [_ Hafter].
  rewrite Forall_forall in H1, H2, Hafter.
  assert (Hm : snd m = occurrences eqb xs (fst m)).
  { apply Hcount. destruct m. apply in_elt. }
  split; [| split].
  - apply Hkeys. rewrite map_app. simpl. apply in_elt.
  - exact Hm.
  - intros k' Hk' Hne. apply Hkeys in Hk'.
    apply in_map_iff in Hk' as ([k0 n0] & Hfst & Hin). simpl in Hfst. subst k0.
    pose proof (Hcount k' n0 Hin) as Hn0.
    apply in_app_or in Hin as [Hin | [Heq | Hin]].
    + left. specialize (H1 _ Hin). simpl in H1. lia.
    + subst m. contradiction Hne. reflexivity.
    + pose proof (H2 _ Hin) as Hle. simpl in Hle.
      destruct (Nat.eq_dec n0 (snd m)) as [E | E].
      * right. split; [lia |]. apply Hafter.
        apply (in_map fst) in Hin. exact Hin.
      * left. lia.
Qed.

Lemma least_frequent_entry (xs : list K) (l1 l2 : counter K) (m : K * nat) :
  counter_of eqb xs (l1 ++ m :: l2) ->
  Forall (fun y => snd m < snd y) l1 ->
  Forall (fun y => snd m <= snd y) l2 ->
  least_frequent eqb xs (fst m) (snd m).
Proof.
  intros (Hnd & Hkeys & Hcount & Hord) H1 H2.
  rewrite map_app in Hord. simpl in Hord.
  apply StronglySorted_app_inv in Hord as (_ & Hm & _).
  apply StronglySorted_inv in Hm as [_ Hafter].
  rewrite Forall_forall in H1, H2, Hafter.
  assert (Hm : snd m = occurrences eqb xs (fst m)).
  { apply Hcount. destruct m. apply in_elt. }
  split; [| split].
  - apply Hkeys. rewrite map_app. simpl. apply in_elt.
  - exact Hm.
  - intros k' Hk' Hne. apply Hkeys in Hk'.
    apply in_map_iff in Hk' as ([k0 n0] & Hfst & Hin). simpl in Hfst. subst k0.
    pose proof (Hcount k' n0 Hin) as Hn0.
    apply in_app_or in Hin as [Hin | [Heq | Hin]].
    + left. specialize (H1 _ Hin). simpl in H1. lia.
    + subst m. contradiction Hne. reflexivity.
    + pose proof (H2 _ Hin) as Hle. simpl in Hle.
      destruct (Nat.eq_dec n0 (snd m)) as [E | E].
      * right. split; [lia |]. apply Hafter.
        apply (in_map fst) in Hin. exact Hin.
      * left. lia.
Qed.

(** [Counter(xs).most_common(1)[0]] *)
Lemma most_common_first (xs : list K) :
  xs <> [] ->
  exists m,
    first_item (most_common 1 (Counter eqb xs)) = ok m
    /\ In m (Counter eqb xs)
    /\ most_frequent eqb xs (fst m) (snd m).
Proof.
  intros Hne. pose proof (Counter_spec eqb eqb_eq xs) as Hc.
  destruct (Counter eqb xs) as [|e c] eqn:E.
  - destruct xs as [|x xs]; [contradiction Hne; reflexivity |].
    contradiction (Counter_nonempty eqb eqb_eq x xs).
  - exists (max_from snd e c).
    destruct (max_from_spec snd c e) as (l1 & l2 & Heq & H1 & H2).
    split; [reflexivity |]. split.
    + rewrite Heq. apply in_elt.
    + rewrite Heq in Hc. now apply (most_frequent_entry xs l1 l2).
Qed.

(** [min(Counter(xs).items(), key=...)] *)
Lemma py_min_first (xs : list K) :
  xs <> [] ->
  exists m,
    py_min snd (Counter eqb xs) = ok m
    /\ least_frequent eqb xs (fst m) (snd m).
Proof.
  intros Hne. pose proof (Counter_spec eqb eqb_eq xs) as Hc.
  destruct (Counter eqb xs) as [|e c] eqn:E.
  - destruct xs as [|x xs]; [contradiction Hne; reflexivity |].
    contradiction (Counter_nonempty eqb eqb_eq x xs).
  - exists (min_from snd e c).
    destruct (min_from_spec snd c e) as (l1 & l2 & Heq & H1 & H2).
    split; [reflexivity |].
    rewrite Heq in Hc. now apply (least_frequent_entry xs l1 l2).
Qed.

(** *** The descending stable sort *)

Lemma insert_desc_In (x z : K * nat) (l : list (K * nat)) :
  In z (insert_desc x l) <-> z = x \/ In z l.
Proof.
  induction l as [|y l IH]; simpl.
  - split; intros [H | H]; auto.
  - destruct (snd x <? snd y); simpl; rewrite ?IH; intuition congruence.
Qed.

Lemma sorted_desc_In (z : K * nat) (l : list (K * nat)) :
  In z (sorted_desc l) <-> In z l.
Proof.
  induction l as [|x l IH]; simpl; [tauto |].
  rewrite insert_desc_In, IH. intuition congruence.
Qed.

Lemma insert_desc_length (x : K * nat) (l : list (K * nat)) :
  length (insert_desc x l) = S (length l).
Proof.
  induction l as [|y l IH]; simpl; [reflexivity |].
  destruct (snd x <? snd y); simpl; auto.
Qed.

Lemma sorted_desc_length (l : list (K * nat)) :
  length (sorted_desc l) = length l.
Proof.
  induction l as [|x l IH]; simpl; [reflexivity |].
  now rewrite insert_desc_length, IH.
Qed.

Lemma insert_desc_sorted (xs : list K) (x : K * nat) (l : list (K * nat)) :
  StronglySorted (entry_ranked xs) l ->
  Forall (fun z => first_before xs (fst x) (fst z)) l ->
  StronglySorted (entry_ranked xs) (insert_desc x l).
Proof.
  induction 1 as [| y l Hl IH Hy]; intros Hx; simpl.
  - repeat constructor.
  - inversion Hx as [| ? ? Hxy Hxl]; subst.
    destruct (snd x <? snd y) eqn:E.
    + apply Nat.ltb_lt in E. constructor; [auto |].
      apply Forall_forall. intros z Hz.
      apply insert_desc_In in Hz as [-> | Hz].
      * left. exact E.
      * rewrite Forall_forall in Hy. now apply Hy.
    + apply Nat.ltb_ge in E. constructor; [constructor; assumption |].
      rewrite Forall_forall in Hy, Hxl.
      apply Forall_forall. intros z [<- | Hz].
      * unfold entry_ranked.
        destruct (Nat.eq_dec (snd y) (snd x)); [right; split; auto | left; lia].
      * assert (Hzy : snd z <= snd y).
        { destruct (Hy z Hz) as [Hlt | [Heq _]]; lia. }
        unfold entry_ranked.
        destruct (Nat.eq_dec (snd z) (snd x));
          [right; split; auto | left; lia].
Qed.

Lemma sorted_desc_sorted (xs : list K) (c : list (K * nat)) :
  StronglySorted (first_before xs) (map fst c) ->
  StronglySorted (entry_ranked xs) (sorted_desc c).
Proof.
  induction c as [|x c IH]; simpl; intros H; [constructor |].
  apply StronglySorted_inv in H as [Hc Hx].
  apply insert_desc_sorted; [auto |].
  rewrite Forall_map in Hx. rewrite Forall_forall in *.
  intros z Hz. apply Hx. now apply sorted_desc_In.
Qed.

(** [Counter(xs).most_common(n)], for [n] other than 1: at most [n] entries,
    each a key with its count, in the order of the ranking; a key that is
    left out comes after each of them, and then there are [n] of them. *)
Lemma most_common_ranking (n : nat) (xs : list K) :
  n <> 1 ->
  let top := most_common n (Counter eqb xs) in
  length top <= n
  /\ Forall (fun e => In (fst e) xs /\ snd e = occurrences eqb xs (fst e)) top
  /\ StronglySorted (fun a b => ranked_before eqb xs (fst a) (fst b)) top
  /\ forall k, In k xs -> ~ In k (map fst top) ->
       length top = n /\ Forall (fun e => ranked_before eqb xs (fst e) k) top.
Proof.
  intros Hn top.
  assert (Etop : top = firstn n (sorted_desc (Counter eqb xs))).
  { subst top. unfold most_common. destruct n as [|[|n]]; try reflexivity.
    contradiction Hn. reflexivity. }
  clearbody top. subst top.
  destruct (Counter_spec eqb eqb_eq xs) as (Hnd & Hkeys & Hcount & Hord).
  pose proof (sorted_desc_sorted xs _ Hord) as Hsorted.
  set (sorted := sorted_desc (Counter eqb xs)) in *.
  assert (Hentry : forall e, In e sorted ->
                     In (fst e) xs /\ snd e = occurrences eqb xs (fst e)).
  { intros [k m] He. unfold sorted in He. apply -> sorted_desc_In in He.
    simpl. split.
    - apply Hkeys. apply (in_map fst) in He. exact He.
    - now apply Hcount. }
  assert (Hrank : forall a b, In a sorted -> In b sorted ->
                    entry_ranked xs a b ->
                    ranked_before eqb xs (fst a) (fst b)).
  { intros a b Ha Hb Hab.
    destruct (Hentry a Ha) as [_ Ea]. destruct (Hentry b Hb) as [_ Eb].
    unfold ranked_before. rewrite <- Ea, <- Eb. exact Hab. }
  split; [apply firstn_le_length |].
  split.
  { apply Forall_forall. intros e He. apply Hentry.
    rewrite <- (firstn_skipn n sorted). apply in_or_app. now left. }
  split.
  { apply StronglySorted_firstn.
    eapply StronglySorted_weaken_in; [| exact Hsorted]. exact Hrank. }
  intros k Hk Hout.
  apply Hkeys in Hk. apply in_map_iff in Hk as (e & Hfst & He).
  apply <- sorted_desc_In in He. fold sorted in He.
  rewrite <- (firstn_skipn n sorted) in He, Hsorted.
  apply in_app_or in He as [He | He].
  { contradiction Hout. rewrite <- Hfst. now apply in_map. }
  split.
  - destruct (Nat.le_gt_cases (length sorted) n) as [Hle | Hgt].
    + rewrite skipn_all2 in He by assumption. contradiction He.
    + apply firstn_length_le. lia.
  - apply StronglySorted_app_inv in Hsorted as (_ & _ & Hcross).
    rewrite Forall_forall in *. intros a Ha.
    specialize (Hcross a Ha). rewrite Forall_forall in Hcross.
    rewrite <- Hfst. apply Hrank.
    + rewrite <- (firstn_skipn n sorted). apply in_or_app. now left.
    + rewrite <- (firstn_skipn n sorted). apply in_or_app. now right.
    + now apply Hcross.
Qed.

End Ranking.

(** ** The statistics of a set of user messages that is not empty *)

Lemma pair_eqb_eq (a b : Z * Z) : pair_eqb a b = true <-> a = b.
Proof.
  destruct a as [a1 a2], b as [b1 b2]. unfold pair_eqb. simpl.
  rewrite andb_true_iff, !Z.eqb_eq. split.
  - intros [-> ->]. reflexivity.
  - intros H. injection H as -> ->. auto.
Qed.

Lemma first_of_month_ok (m : Z) :
  (1 <= m <= 12)%Z ->
  exists dt, datetime_new 2025 m 1 0 0 0 = ok dt /\ month dt = m /\ year dt = 2025%Z.
Proof.
  intros H.
  assert (Hm : (m = 1 \/ m = 2 \/ m = 3 \/ m = 4 \/ m = 5 \/ m = 6 \/ m = 7
                \/ m = 8 \/ m = 9 \/ m = 10 \/ m = 11 \/ m = 12)%Z) by lia.
  repeat (destruct Hm as [-> | Hm]; [eexists; split; [reflexivity | split; reflexivity] |]).
  subst m. eexists; split; [reflexivity | split; reflexivity].
Qed.

Lemma datetime_ok_month (dt : datetime) :
  datetime_ok dt = true -> (1 <= month dt <= 12)%Z.
Proof.
  unfold datetime_ok. rewrite !andb_true_iff, !Z.leb_le. tauto.
Qed.

Lemma weekday_name (ts : datetime) :
  exists name, nth_error DOW_NAMES (Z.to_nat (weekday ts)) = Some name.
Proof.
  destruct (nth_error DOW_NAMES (Z.to_nat (weekday ts))) as [name |] eqn:E.
  - now exists name.
  - apply nth_error_None in E. simpl in E. unfold weekday in E.
    pose proof (Z.mod_pos_bound (toordinal ts + 6) 7 ltac:(lia)). lia.
Qed.

Lemma replace_char_one (old new : N) (s : pystr) :
  replace_char old [new] s = map (fun c => if (c =? old)%N then new else c) s.
Proof.
  unfold replace_char. induction s as [|c s IH]; simpl; [reflexivity |].
  rewrite IH. now destruct (c =? old)%N.
Qed.

Section NonEmpty.
Context {U : UnicodeData}.

Lemma user_non_media_content (records : list record) :
  user_non_media_of (user_msgs_of records) = content_msgs records.
Proof. reflexivity. Qed.

Lemma word_counter_scan (l : list record) (c : counter pystr) :
  fold_left (fun c r => counter_update str_eqb c (tokenize (message r))) l c =
  counter_update str_eqb c (flat_map (fun r => tokenize (message r)) l).
Proof.
  revert c. induction l as [|r l IH]; intros c; simpl; [reflexivity |].
  rewrite IH, counter_update_app. reflexivity.
Qed.

Lemma emoji_counter_scan (l : list record) (c : counter pystr) :
  fold_left
    (fun c r =>
       match EMOJI_RE_findall (message r) with
       | [] => c
       | _ => counter_update str_eqb c (EMOJI_RE_findall (message r))
       end) l c =
  counter_update str_eqb c (flat_map (fun r => EMOJI_RE_findall (message r)) l).
Proof.
  revert c. induction l as [|r l IH]; intros c; simpl; [reflexivity |].
  rewrite IH, counter_update_app.
  destruct (EMOJI_RE_findall (message r)); reflexivity.
Qed.

Lemma word_counter_of_scan (records : list record) :
  word_counter_of (content_msgs records) = Counter str_eqb (scan_words records).
Proof. apply word_counter_scan. Qed.

Lemma emoji_counter_of_scan (records : list record) :
  emoji_counter_of (content_msgs records) = Counter str_eqb (scan_emoji records).
Proof. apply emoji_counter_scan. Qed.

(** The most frequent key of a scan, as the two content statistics give it:
    none when the scan is empty. *)
Lemma most_common_option (xs : list pystr) :
  (xs = [] /\ Counter str_eqb xs = [])
  \/ exists m,
       Counter str_eqb xs <> []
       /\ first_item (most_common 1 (Counter str_eqb xs)) = ok m
       /\ most_frequent str_eqb xs (fst m) (snd m).
Proof.
  destruct xs as [|x xs]; [left; split; reflexivity | right].
  destruct (most_common_first str_eqb str_eqb_eq (x :: xs)) as (m & Hm & _ & Hf);
    [discriminate |].
  exists m. split; [apply (Counter_nonempty str_eqb str_eqb_eq) | split; assumption].
Qed.

Lemma most_word_stat_spec (records : list record) :
  exists w,
    most_word_stat (word_counter_of (content_msgs records)) = ok w
    /\ match w with
       | None => scan_words records = []
       | Some wc =>
           most_frequent str_eqb (scan_words records) (wc_word wc) (wc_count wc)
       end.
Proof.
  rewrite word_counter_of_scan. unfold most_word_stat.
  destruct (most_common_option (scan_words records)) as [[E Ec] | (m & Hne & Hm & Hf)].
  - rewrite Ec. exists None. split; [reflexivity | exact E].
  - destruct (Counter str_eqb (scan_words records)) eqn:Ec; [contradiction Hne; reflexivity |].
    rewrite Hm. simpl. eexists. split; [reflexivity | exact Hf].
Qed.

Lemma most_emoji_stat_spec (records : list record) :
  exists e,
    most_emoji_stat (emoji_counter_of (content_msgs records)) = ok e
    /\ match e with
       | None => scan_emoji records = []
       | Some ec =>
           most_frequent str_eqb (scan_emoji records) (ec_emoji ec) (ec_count ec)
       end.
Proof.
  rewrite emoji_counter_of_scan. unfold most_emoji_stat.
  destruct (most_common_option (scan_emoji records)) as [[E Ec] | (m & Hne & Hm & Hf)].
  - rewrite Ec. exists None. split; [reflexivity | exact E].
  - destruct (Counter str_eqb (scan_emoji records)) eqn:Ec; [contradiction Hne; reflexivity |].
    rewrite Hm. simpl. eexists. split; [reflexivity | exact Hf].
Qed.

Lemma longest_stat_spec (l : list record) :
  exists lm,
    longest_stat l = ok lm
    /\ match lm with
       | None => l = []
       | Some d =>
           exists pre lr post,
             l = pre ++ lr :: post
             /\ Forall (fun r => msg_len r < msg_len lr) pre
             /\ Forall (fun r => msg_len r <= msg_len lr) post
             /\ d = longest_of lr
       end.
Proof.
  destruct l as [|r l].
  - exists None. split; reflexivity.
  - exists (Some (longest_of (max_from msg_len r l))). split; [reflexivity |].
    destruct (max_from_spec msg_len l r) as (l1 & l2 & Heq & H1 & H2).
    exists l1, (max_from msg_len r l), l2. auto.
Qed.

End NonEmpty.

Section Engine.
Context {U : UnicodeData}.

Lemma user_msgs_valid (records : list record) (r : record) :
  valid_records records -> In r (user_msgs_of records) ->
  year (timestamp r) = 2025%Z /\ (1 <= month (timestamp r) <= 12)%Z.
Proof.
  intros Hv Hr. apply in_user_msgs_of in Hr as (Hin & Hy & _).
  unfold valid_records in Hv. rewrite Forall_forall in Hv.
  split.
  - unfold in_2025 in Hy. now apply Z.eqb_eq.
  - apply datetime_ok_month. now apply Hv.
Qed.

(** With a user message at hand every step of [compute_stats] gives its
    value, and the response holds them. *)
Lemma compute_stats_nonempty (v : pydantic) (records : list record) :
  valid_records records -> user_msgs_of records <> [] ->
  exists quiet bh bd name pm dt lm w e,
    py_min snd (Counter str_eqb (scan_senders records)) = ok quiet
    /\ first_item (most_common 1 (Counter Z.eqb (scan_hours records))) = ok bh
    /\ first_item (most_common 1 (Counter Z.eqb (scan_weekdays records))) = ok bd
    /\ nth_error DOW_NAMES (Z.to_nat (fst bd)) = Some name
    /\ first_item (most_common 1 (Counter pair_eqb (scan_months records))) = ok pm
    /\ datetime_new (fst (fst pm)) (snd (fst pm)) 1 0 0 0 = ok dt
    /\ longest_stat (content_msgs records) = ok lm
    /\ most_word_stat (word_counter_of (content_msgs records)) = ok w
    /\ most_emoji_stat (emoji_counter_of (content_msgs records)) = ok e
    /\ compute_stats v records =
       ok {| total_records := length (filter in_2025 records);
             total_user_messages := length (user_msgs_of records);
             total_system_events := length (system_events_of records);
             top_talkers :=
               map to_talker
                   (most_common 10 (Counter str_eqb (scan_senders records)));
             quietest_sender := Some (to_talker quiet);
             busiest_hour := {| bh_hour := Some (fst bh); bh_count := snd bh |};
             busiest_day_of_week := {| bd_day := Some name; bd_count := snd bd |};
             peak_month :=
               {| pm_year := Some (fst (fst pm)); pm_month := Some (snd (fst pm));
                  pm_label := Some (strftime_B_Y dt); pm_count := snd pm |};
             night_owl :=
               {| no_count :=
                    length (filter (fun r => is_night (timestamp r))
                                   (user_msgs_of records));
                  no_percent :=
                    round2_percent
                      (length (filter (fun r => is_night (timestamp r))
                                      (user_msgs_of records)))
                      (length (user_msgs_of records)) |};
             longest_message := lm;
             most_used_word := w;
             most_used_emoji := e |}.
Proof.
  intros Hv Hne.
  assert (Hmap : forall {B} (g : record -> B), map g (user_msgs_of records) <> []).
  { intros B g E. apply map_eq_nil in E. contradiction. }
  destruct (py_min_first str_eqb str_eqb_eq (scan_senders records) (Hmap _ _))
    as (quiet & Hquiet & _).
  destruct (most_common_first Z.eqb Z.eqb_eq (scan_hours records) (Hmap _ _))
    as (bh & Hbh & _).
  destruct (most_common_first Z.eqb Z.eqb_eq (scan_weekdays records) (Hmap _ _))
    as (bd & Hbd & _ & Hbdk & _).
  destruct (most_common_first pair_eqb pair_eqb_eq (scan_months records) (Hmap _ _))
    as (pm & Hpm & _ & Hpmk & _).
  assert (Hname : exists name, nth_error DOW_NAMES (Z.to_nat (fst bd)) = Some name).
  { unfold scan_weekdays in Hbdk. apply in_map_iff in Hbdk as (r & <- & _).
    apply weekday_name. }
  destruct Hname as (name & Hname).
  assert (Hdt : exists dt, datetime_new (fst (fst pm)) (snd (fst pm)) 1 0 0 0 = ok dt).
  { unfold scan_months in Hpmk. apply in_map_iff in Hpmk as (r & <- & Hr).
    destruct (user_msgs_valid records r Hv Hr) as [Hy Hm]. simpl. rewrite Hy.
    destruct (first_of_month_ok _ Hm) as (dt & Hdt & _). now exists dt. }
  destruct Hdt as (dt & Hdt).
  destruct (longest_stat_spec (content_msgs records)) as (lm & Hlm & _).
  destruct (most_word_stat_spec records) as (w & Hw & _).
  destruct (most_emoji_stat_spec records) as (e & He & _).
  exists quiet, bh, bd, name, pm, dt, lm, w, e.
  repeat (split; [assumption |]).
  unfold compute_stats. rewrite classify_classes.
  destruct (length (user_msgs_of records) =? 0) eqn:E0.
  { apply Nat.eqb_eq, length_zero_iff_nil in E0. contradiction. }
  unfold scan_senders, scan_hours, scan_weekdays, scan_months, content_msgs in *.
  unfold user_non_media_of.
  rewrite Hquiet. cbn [bind]. rewrite Hbh. cbn [bind]. rewrite Hbd. cbn [bind].
  rewrite Hpm. cbn [bind].
  destruct pm as [[py pmo] pc]. cbn [fst snd] in *.
  rewrite Hdt. cbn [bind]. rewrite Hlm. cbn [bind]. rewrite Hw. cbn [bind].
  rewrite He. cbn [bind]. rewrite Hname. cbn [bind].
  reflexivity.
Qed.

End Engine.

(** ** The records of the parser are valid *)

Section ParserValid.
Context {U : UnicodeData}.

Lemma strptime_valid (s : pystr) (dt : datetime) :
  strptime s = ok dt -> datetime_ok dt = true.
Proof.
  unfold strptime.
  destruct (format_regex s) as [| [[[[[[gY gm] gd] gH] gM] gS] rest] _];
    [discriminate |].
  destruct rest; [| discriminate].
  unfold datetime_new.
  match goal with |- (if ?b then _ else _) = _ -> _ => destruct b eqn:E end;
    [| discriminate].
  intros H. injection H as <-. exact E.
Qed.

Lemma parse_line_valid (records : list record) (current : option record)
    (raw_line : pystr) (st : list record * option record) :
  valid_records records ->
  (forall c, current = Some c -> datetime_ok (timestamp c) = true) ->
  parse_line records current raw_line = ok st ->
  valid_records (fst st)
  /\ forall c, snd st = Some c -> datetime_ok (timestamp c) = true.
Proof.
  intros Hr Hc. unfold parse_line.
  destruct (header_match (rstrip_newline raw_line))
    as [[[[date_str time_str] sender0] msg] |].
  - destruct (strptime _) as [ts |] eqn:Ets; [| discriminate].
    simpl. intros H. injection H as <-. simpl. split.
    + destruct current as [c |]; [| exact Hr].
      apply Forall_app. split; [exact Hr |].
      constructor; [now apply Hc | constructor].
    + intros c E. injection E as <-. simpl. now apply strptime_valid in Ets.
  - destruct current as [c |].
    + destruct (negb _); intros H; injection H as <-; simpl; split; try exact Hr.
      * intros c' E. injection E as <-. simpl. now apply Hc.
      * exact Hc.
    + intros H. injection H as <-. simpl. split; [exact Hr | exact Hc].
Qed.

Lemma parse_lines_valid (lines : list pystr) (records : list record)
    (current : option record) (st : list record * option record) :
  valid_records records ->
  (forall c, current = Some c -> datetime_ok (timestamp c) = true) ->
  parse_lines lines records current = ok st ->
  valid_records (fst st)
  /\ forall c, snd st = Some c -> datetime_ok (timestamp c) = true.
Proof.
  revert records current. induction lines as [|l lines IH];
    intros records current Hr Hc; simpl.
  - intros H. injection H as <-. auto.
  - destruct (parse_line records current l) as [st' |] eqn:E; [| discriminate].
    simpl. destruct (parse_line_valid records current l st' Hr Hc E) as [Hr' Hc'].
    now apply IH.
Qed.

(** Every record that the parser returns has a timestamp that the [datetime]
    constructor accepted. *)
Lemma parse_chat_text_valid (content : pystr) (records : list record) :
  parse_chat_text content = ok records -> valid_records records.
Proof.
  unfold parse_chat_text.
  destruct (parse_lines (splitlines content) [] None) as [st |] eqn:E;
    [| discriminate].
  simpl. intros H. injection H as <-.
  destruct (parse_lines_valid _ [] None st (Forall_nil _) ltac:(discriminate) E)
    as [Hr Hc].
  unfold finish. destruct (snd st) as [c |]; [| exact Hr].
  apply Forall_app. split; [exact Hr |]. constructor; [now apply Hc | constructor].
Qed.

End ParserValid.

Lemma content_msgs_users (records : list record) :
  content_msgs records <> [] -> user_msgs_of records <> [].
Proof. unfold content_msgs. intros H E. rewrite E in H. now apply H. Qed.

Lemma one_line_spec (body : pystr) :
  length (one_line body) = length body
  /\ ~ In LF (one_line body)
  /\ forall i c, nth_error body i = Some c ->
       nth_error (one_line body) i = Some (if (c =? LF)%N then chr " " else c).
Proof.
  unfold one_line. split; [apply length_map |]. split.
  - intros H. apply in_map_iff in H as (c & Hc & _).
    destruct (c =? LF)%N eqn:E; [discriminate Hc |].
    subst c. discriminate E.
  - intros i c H. now rewrite nth_error_map, H.
Qed.

(** *** The timestamp in ISO 8601 *)

Lemma zero_pad_two_digits (n : Z) :
  (0 <= n < 100)%Z -> zero_pad 2 n = two_digits n.
Proof.
  intros H. assert (E : n = Z.of_nat (Z.to_nat n)) by lia.
  assert (Hk : Z.to_nat n < 100) by lia.
  rewrite E. revert Hk. generalize (Z.to_nat n). clear. intros k Hk.
  do 100 (destruct k as [|k]; [reflexivity |]).
  lia.
Qed.

Lemma days_in_month_le (y m : Z) : (days_in_month y m <= 31)%Z.
Proof.
  unfold days_in_month.
  destruct ((m =? 2)%Z && is_leap y); [lia |].
  generalize (Z.to_nat m). intros k.
  do 13 (destruct k as [|k]; [simpl; lia |]).
  destruct k; simpl; lia.
Qed.

(** [isoformat] on a moment of 2025: the date and the time in the extended
    format of ISO 8601, each field in two digits. *)
Lemma isoformat_2025 (dt : datetime) :
  datetime_ok dt = true -> year dt = 2025%Z ->
  isoformat dt = iso8601_2025 dt.
Proof.
  intros Hok Hy. unfold datetime_ok in Hok.
  rewrite !andb_true_iff, !Z.leb_le in Hok.
  pose proof (days_in_month_le (year dt) (month dt)) as Hd.
  unfold isoformat, iso8601_2025. rewrite Hy.
  rewrite !zero_pad_two_digits by lia.
  reflexivity.
Qed.

Lemma iso8601_2025_length (dt : datetime) : length (iso8601_2025 dt) = 19.
Proof. reflexivity. Qed.

(** The first of the longest is the only decomposition of its kind. *)
Lemma first_longest_unique {A} (f : A -> nat) (pre pre' post post' : list A)
    (x x' : A) :
  pre ++ x :: post = pre' ++ x' :: post' ->
  Forall (fun a => f a < f x) pre -> Forall (fun a => f a <= f x) post ->
  Forall (fun a => f a < f x') pre' -> Forall (fun a => f a <= f x') post' ->
  pre = pre' /\ x = x' /\ post = post'.
Proof.
  revert pre'. induction pre as [|a pre IH]; intros [|a' pre'] E H1 H2 H1' H2'.
  - injection E as -> ->. auto.
  - simpl in E. injection E as -> ->.
    apply Forall_inv in H1'.
    rewrite Forall_forall in H2.
    specialize (H2 x' (in_elt x' pre' post')). lia.
  - simpl in E. injection E as <- <-.
    apply Forall_inv in H1.
    rewrite Forall_forall in H2'.
    specialize (H2' x (in_elt x pre post)). lia.
  - simpl in E. injection E as -> E.
    destruct (IH pre' E (Forall_inv_tail H1) H2 (Forall_inv_tail H1') H2')
      as (-> & -> & ->).
    auto.
Qed.

(** C8.  When some user message is not a media placeholder, the response has
    a longest message: the first, in the order of the file, of the messages of
    this kind whose body has the most characters.  It carries the sender, the
    timestamp in the extended format of ISO 8601 (19 characters: the year
    2025, month and day in two digits each after a hyphen, the letter T, and
    hour, minute and second in two digits each, colons between), the number
    of characters of the body, and for preview the first 200 characters of
    the body with each line feed replaced by one blank: at most 200
    characters, no line feed, and the whole of the one-line body when the
    body has at most 200 characters. *)
Theorem longest_message_spec {U : UnicodeData} (v : pydantic)
    (records : list record) :
  valid_records records -> content_msgs records <> [] ->
  exists res pre lr post,
    compute_stats v records = ok res
    /\ content_msgs records = pre ++ lr :: post
    /\ Forall (fun r => length (message r) < length (message lr)) pre
    /\ Forall (fun r => length (message r) <= length (message lr)) post
    /\ longest_message res =
       Some {| lm_sender := sender lr;
               lm_timestamp := iso8601_2025 (timestamp lr);
               lm_length_chars := length (message lr);
               lm_preview := firstn 200 (one_line (message lr)) |}
    /\ isoformat (timestamp lr) = iso8601_2025 (timestamp lr)
    /\ length (iso8601_2025 (timestamp lr)) = 19
    /\ length (firstn 200 (one_line (message lr))) =
       Nat.min 200 (length (message lr))
    /\ length (firstn 200 (one_line (message lr))) <= 200
    /\ ~ In LF (firstn 200 (one_line (message lr)))
    /\ length (one_line (message lr)) = length (message lr)
    /\ (forall i c, i < 200 -> nth_error (message lr) i = Some c ->
          nth_error (firstn 200 (one_line (message lr))) i =
          Some (if (c =? LF)%N then chr " " else c)).
Proof.
  intros Hv Hne.
  destruct (compute_stats_nonempty v records Hv (content_msgs_users records Hne))
    as (quiet & bh & bd & name & pm & dt & lm & w & e & _ & _ & _ & _ & _ & _
        & Hlm & _ & _ & Hres).
  destruct (longest_stat_spec (content_msgs records)) as (lm' & Hlm' & Hspec).
  rewrite Hlm in Hlm'. injection Hlm' as <-.
  destruct lm as [d |]; [| contradiction].
  destruct Hspec as (pre & lr & post & Heq & H1 & H2 & ->).
  assert (Hin : In lr (user_msgs_of records)).
  { assert (Hc : In lr (content_msgs records)) by (rewrite Heq; apply in_elt).
    unfold content_msgs in Hc. now apply filter_In in Hc. }
  assert (Hiso : isoformat (timestamp lr) = iso8601_2025 (timestamp lr)).
  { apply isoformat_2025.
    - apply in_user_msgs_of in Hin as (Hin & _).
      unfold valid_records in Hv. rewrite Forall_forall in Hv. now apply Hv.
    - now apply (user_msgs_valid records lr Hv Hin). }
  eexists. exists pre, lr, post.
  split; [exact Hres |]. split; [exact Heq |].
  split; [exact H1 |]. split; [exact H2 |].
  split.
  { simpl. unfold longest_of. rewrite replace_char_one, Hiso. reflexivity. }
  split; [exact Hiso |].
  split; [reflexivity |].
  split.
  { rewrite length_firstn. now rewrite (proj1 (one_line_spec (message lr))). }
  split; [apply firstn_le_length |].
  split.
  { intros H. apply (proj1 (proj2 (one_line_spec (message lr)))).
    rewrite <- (firstn_skipn 200 (one_line (message lr))).
    apply in_or_app. now left. }
  split; [apply one_line_spec |].
  intros i c Hi Hc.
  rewrite nth_error_firstn.
  destruct (Nat.ltb_spec i 200) as [_ | Hge]; [| lia].
  now apply one_line_spec.
Qed.

Lemma longest_message_spec_witness :
  valid_records seven_records
  /\ content_msgs seven_records <> []
  /\ content_msgs seven_records = [alice_hello; dave_long; erin_long; alice_hello]
  /\ length (message dave_long) = 251
  /\ length (message erin_long) = 251
  /\ In LF (message dave_long)
  /\ exists res,
       compute_stats (U := ascii_only_unicode) pydantic_v2 seven_records = ok res
       /\ longest_message res =
          Some {| lm_sender := py "Dave";
                  lm_timestamp := py "2025-12-31T04:59:00";
                  lm_length_chars := 251;
                  lm_preview :=
                    repeat (chr "a") 150 ++ [chr " "] ++ repeat (chr "b") 49 |}.
Proof.
  assert (H1 : valid_records seven_records)
    by (repeat constructor).
  assert (H2 : content_msgs seven_records <> [])
    by (vm_compute; discriminate).
  assert (H3 : content_msgs seven_records =
               [alice_hello] ++ dave_long :: [erin_long; alice_hello])
    by (vm_compute; reflexivity).
  split; [exact H1 |]. split; [exact H2 |]. split; [exact H3 |].
  split; [reflexivity |]. split; [reflexivity |].
  split; [apply (in_elt LF (repeat (chr "a") 150)) |].
  destruct (longest_message_spec (U := ascii_only_unicode) pydantic_v2
              seven_records H1 H2)
    as (res & pre & lr & post & Hres & Hsplit & Hpre & Hpost & Hlm & _).
  exists res. split; [exact Hres |].
  rewrite H3 in Hsplit.
  assert (Hd1 : Forall (fun r => length (message r) < length (message dave_long))
                       [alice_hello])
    by (repeat constructor; vm_compute; lia).
  assert (Hd2 : Forall (fun r => length (message r) <= length (message dave_long))
                       [erin_long; alice_hello])
    by (repeat constructor; vm_compute; lia).
  destruct (first_longest_unique (fun r => length (message r))
              [alice_hello] pre [erin_long; alice_hello] post dave_long lr
              Hsplit Hd1 Hd2 Hpre Hpost) as (_ & <- & _).
  rewrite Hlm. vm_compute. reflexivity.
Defined.

(** C9.  When there is a user message, each statistic that takes the key of
    the highest count (busiest hour, busiest day of the week, peak month, most
    used word, most used emoji) gives the most frequent key of its scan and,
    among keys of that count, the one met first in the scan; the quietest
    sender is the least frequent sender and, among senders of that count, the
    one met first.  The top talkers are at most 10, each with its count, in
    descending order of the count and, for equal counts, in the order of
    first encounter; a sender left out ranks after each of the 10 retained. *)
Theorem frequency_statistics {U : UnicodeData} (v : pydantic)
    (records : list record) :
  valid_records records -> user_msgs_of records <> [] ->
  exists res,
    compute_stats v records = ok res
    /\ length (top_talkers res) <= 10
    /\ Forall (fun t => In (tt_sender t) (scan_senders records)
                        /\ tt_count t =
                           occurrences str_eqb (scan_senders records) (tt_sender t))
              (top_talkers res)
    /\ StronglySorted
         (fun a b => ranked_before str_eqb (scan_senders records)
                                   (tt_sender a) (tt_sender b))
         (top_talkers res)
    /\ (forall s, In s (scan_senders records) ->
          ~ In s (map tt_sender (top_talkers res)) ->
          length (top_talkers res) = 10
          /\ Forall (fun t => ranked_before str_eqb (scan_senders records)
                                            (tt_sender t) s)
                    (top_talkers res))
    /\ (exists q, quietest_sender res = Some q
          /\ least_frequent str_eqb (scan_senders records)
                            (tt_sender q) (tt_count q))
    /\ (exists h, bh_hour (busiest_hour res) = Some h
          /\ most_frequent Z.eqb (scan_hours records) h
                           (bh_count (busiest_hour res)))
    /\ (exists d, bd_day (busiest_day_of_week res) =
                  nth_error DOW_NAMES (Z.to_nat d)
          /\ (0 <= d < 7)%Z
          /\ most_frequent Z.eqb (scan_weekdays records) d
                           (bd_count (busiest_day_of_week res)))
    /\ (exists y m, pm_year (peak_month res) = Some y
          /\ pm_month (peak_month res) = Some m
          /\ most_frequent pair_eqb (scan_months records) (y, m)
                           (pm_count (peak_month res)))
    /\ match most_used_word res with
       | None => scan_words records = []
       | Some wc =>
           most_frequent str_eqb (scan_words records) (wc_word wc) (wc_count wc)
       end
    /\ match most_used_emoji res with
       | None => scan_emoji records = []
       | Some ec =>
           most_frequent str_eqb (scan_emoji records) (ec_emoji ec) (ec_count ec)
       end.
Proof.
  intros Hv Hne.
  assert (Hmap : forall {B} (g : record -> B), map g (user_msgs_of records) <> []).
  { intros B g E. apply map_eq_nil in E. contradiction. }
  destruct (compute_stats_nonempty v records Hv Hne)
    as (quiet & bh & bd & name & pm & dt & lm & w & e
        & Hquiet & Hbh & Hbd & Hname & Hpm & Hdt & Hlm & Hw & He & Hres).
  eexists. split; [exact Hres |]. cbn [top_talkers quietest_sender busiest_hour
    busiest_day_of_week peak_month most_used_word most_used_emoji
    bh_hour bh_count bd_day bd_count pm_year pm_month pm_count].
  destruct (most_common_ranking str_eqb str_eqb_eq 10 (scan_senders records)
              ltac:(discriminate)) as (Hlen & Hent & Hsort & Hout).
  split; [rewrite length_map; exact Hlen |].
  split; [apply Forall_map; exact Hent |].
  split.
  { apply (StronglySorted_map
             (fun a b => ranked_before str_eqb (scan_senders records)
                                       (tt_sender a) (tt_sender b)) to_talker).
    exact Hsort. }
  split.
  { intros s Hs Hnot. rewrite map_map in Hnot. rewrite length_map.
    destruct (Hout s Hs Hnot) as [Hl Hf]. split; [exact Hl |].
    apply Forall_map. exact Hf. }
  split.
  { exists (to_talker quiet). split; [reflexivity |].
    destruct (py_min_first str_eqb str_eqb_eq (scan_senders records) (Hmap _ _))
      as (q' & Hq' & Hleast).
    rewrite Hquiet in Hq'. injection Hq' as <-. exact Hleast. }
  split.
  { exists (fst bh). split; [reflexivity |].
    destruct (most_common_first Z.eqb Z.eqb_eq (scan_hours records) (Hmap _ _))
      as (m & Hm & _ & Hmost).
    rewrite Hbh in Hm. injection Hm as <-. exact Hmost. }
  split.
  { exists (fst bd).
    destruct (most_common_first Z.eqb Z.eqb_eq (scan_weekdays records) (Hmap _ _))
      as (m & Hm & _ & Hmost).
    rewrite Hbd in Hm. injection Hm as <-.
    split; [symmetry; exact Hname |]. split; [| exact Hmost].
    destruct Hmost as (Hin & _). unfold scan_weekdays in Hin.
    apply in_map_iff in Hin as (r & <- & _). unfold weekday.
    apply Z.mod_pos_bound. lia. }
  split.
  { exists (fst (fst pm)), (snd (fst pm)).
    split; [reflexivity |]. split; [reflexivity |].
    destruct (most_common_first pair_eqb pair_eqb_eq (scan_months records) (Hmap _ _))
      as (m & Hm & _ & Hmost).
    rewrite Hpm in Hm. injection Hm as <-.
    destruct pm as [[y mo] c]. exact Hmost. }
  split.
  { destruct (most_word_stat_spec records) as (w' & Hw' & Hspec).
    rewrite Hw in Hw'. injection Hw' as <-. exact Hspec. }
  destruct (most_emoji_stat_spec records) as (e' & He' & Hspec).
  rewrite He in He'. injection He' as <-. exact Hspec.
Qed.

Lemma frequency_statistics_witness :
  valid_records three_records
  /\ user_msgs_of three_records <> []
  /\ exists res,
       compute_stats (U := ascii_only_unicode) pydantic_v1 three_records = ok res
       /\ length (top_talkers res) <= 10
       /\ (exists q, quietest_sender res = Some q
             /\ least_frequent str_eqb (scan_senders three_records)
                               (tt_sender q) (tt_count q))
       /\ (exists h, bh_hour (busiest_hour res) = Some h
             /\ most_frequent Z.eqb (scan_hours three_records) h
                              (bh_count (busiest_hour res))).
Proof.
  assert (H1 : valid_records three_records) by (repeat constructor).
  assert (H2 : user_msgs_of three_records <> []) by (vm_compute; discriminate).
  split; [exact H1 |]. split; [exact H2 |].
  destruct (frequency_statistics (U := ascii_only_unicode) pydantic_v1
              three_records H1 H2)
    as (res & Hres & Hlen & _ & _ & _ & Hq & Hh & _).
  exists res. repeat split; assumption.
Defined.

(** ** Examples *)

(** Two senders with one message each: the first met is both the top talker
    and the quietest sender. *)
Example tie_goes_to_the_first_met :
  forall res,
    compute_stats (U := ascii_only_unicode) pydantic_v2 three_records = ok res ->
    map tt_sender (top_talkers res) = [py "Alice"; py "Carol"]
    /\ option_map tt_sender (quietest_sender res) = Some (py "Alice")
    /\ bh_hour (busiest_hour res) = Some 23%Z
    /\ option_map lm_sender (longest_message res) = Some (py "Alice")
    /\ total_user_messages res = 2.
Proof.
  intros res H. vm_compute in H. injection H as <-. repeat split.
Qed.

Example tokenize_example :
  tokenize (U := ascii_only_unicode) (py "The QUICK brown's fox--I'm a-ok 42 x lol LOL")
  = [py "quick"; py "brown's"; py "fox"; py "ok"; py "42"].
Proof. reflexivity. Qed.

Example parse_example :
  parse_chat_text (U := ascii_only_unicode)
    (py "junk" ++ [LF] ++ py "[2025/03/09, 23:01:00]  Alice : hello " ++ [13; LF]%N
     ++ py "  more " ++ [LF; LF] ++ py "   " ++ [LF] ++ py "x")
  = ok [with_message alice_hello
          (py "hello" ++ [LF] ++ py "more" ++ [LF] ++ py "x")].
Proof. reflexivity. Qed.

Example strptime_rejects_february_29 :
  parse_chat_text (U := ascii_only_unicode) (py "[2025/02/29, 22:15:03] A: x")
  = raise (ValueError "out of range").
Proof. reflexivity. Qed.

(** * Further properties *)

(** ** The parser, line by line *)

Section ParserLines.
Context {U : UnicodeData}.

Lemma parse_lines_app (ls1 ls2 : list pystr) (records : list record)
    (current : option record) :
  parse_lines (ls1 ++ ls2) records current =
  (st <- parse_lines ls1 records current ;; parse_lines ls2 (fst st) (snd st)).
Proof.
  revert records current. induction ls1 as [|l ls1 IH]; intros records current.
  - reflexivity.
  - cbn [app parse_lines].
    destruct (parse_line records current l) as [st |]; [| reflexivity].
    cbn [bind]. apply IH.
Qed.

Lemma parse_line_keys (records : list record) (current : option record)
    (l : pystr) (st : list record * option record) :
  parse_line records current l = ok st ->
  map record_key (finish st) =
  map record_key (finish (records, current)) ++ headers_of [l].
Proof.
  unfold parse_line, headers_of, header_of. cbn [flat_map].
  destruct (header_match (rstrip_newline l))
    as [[[[date_str time_str] sender0] msg] |].
  - destruct (strptime _) as [ts |]; [| discriminate].
    cbn [bind]. intros H. injection H as <-.
    rewrite app_nil_r. unfold finish. cbn [fst snd].
    rewrite map_app. reflexivity.
  - rewrite app_nil_r. destruct current as [c |].
    + destruct (negb _); intros H; injection H as <-; [| reflexivity].
      unfold finish. cbn [fst snd]. rewrite !map_app. reflexivity.
    + intros H. injection H as <-. reflexivity.
Qed.

Lemma headers_of_cons (l : pystr) (ls : list pystr) :
  headers_of (l :: ls) = headers_of [l] ++ headers_of ls.
Proof. unfold headers_of. cbn [flat_map]. now rewrite app_nil_r. Qed.

Lemma parse_lines_keys (lines : list pystr) (records : list record)
    (current : option record) (st : list record * option record) :
  parse_lines lines records current = ok st ->
  map record_key (finish st) =
  map record_key (finish (records, current)) ++ headers_of lines.
Proof.
  revert records current. induction lines as [|l lines IH];
    intros records current; cbn [parse_lines].
  - intros H. injection H as <-. now rewrite app_nil_r.
  - destruct (parse_line records current l) as [[records' current'] |] eqn:E;
      [| discriminate].
    cbn [bind fst snd]. intros H.
    rewrite (IH _ _ H), (parse_line_keys _ _ _ _ E), (headers_of_cons l lines).
    now rewrite app_assoc.
Qed.

Lemma parse_lines_header_count (lines : list pystr) (records : list record)
    (current : option record) (st : list record * option record) :
  parse_lines lines records current = ok st ->
  length (headers_of lines) = length (filter header_matches lines).
Proof.
  revert records current. induction lines as [|l lines IH];
    intros records current; cbn [parse_lines]; [reflexivity |].
  destruct (parse_line records current l) as [[records' current'] |] eqn:E;
    [| discriminate].
  cbn [bind fst snd]. intros H.
  rewrite (headers_of_cons l lines), length_app, (IH _ _ H).
  cbn [filter]. unfold headers_of, header_of, header_matches. cbn [flat_map].
  unfold parse_line in E.
  destruct (header_match (rstrip_newline l))
    as [[[[date_str time_str] sender0] msg] |]; [| reflexivity].
  destruct (strptime _) as [ts |]; [reflexivity | discriminate].
Qed.

End ParserLines.

(** X1.  When the parser returns, it returns one record for each header line of
    the text, in the order of the lines, with the timestamp and the stripped
    sender of that line; continuation lines add no record and move none. *)
Theorem one_record_per_header {U : UnicodeData} (content : pystr)
    (records : list record) :
  parse_chat_text content = ok records ->
  map (fun r => (timestamp r, sender r)) records =
  headers_of (splitlines content)
  /\ length records = length (filter header_matches (splitlines content)).
Proof.
  unfold parse_chat_text.
  destruct (parse_lines (splitlines content) [] None) as [st |] eqn:E;
    [| discriminate].
  cbn [bind]. intros H. injection H as <-.
  pose proof (parse_lines_keys _ _ _ _ E) as Hk. cbn in Hk.
  split; [exact Hk |].
  rewrite <- (parse_lines_header_count _ _ _ _ E), <- Hk. now rewrite length_map.
Qed.

Lemma one_record_per_header_witness :
  parse_chat_text (U := ascii_only_unicode)
    (py "junk" ++ [LF] ++ example_chat ++ [LF] ++ py "more") =
  ok [ {| timestamp := {| year := 2025; month := 1; day := 5;
                          hour := 22; minute := 15; second := 3 |};
          sender := py "Alice"; message := py "hello world" |};
       {| timestamp := at_2025 1 5 22 16; sender := py "Bob";
          message := py "<Media omitted>" ++ [LF] ++ py "more" |} ]
  /\ headers_of (U := ascii_only_unicode)
       (splitlines (py "junk" ++ [LF] ++ example_chat ++ [LF] ++ py "more")) =
     [ ({| year := 2025; month := 1; day := 5;
           hour := 22; minute := 15; second := 3 |}, py "Alice");
       (at_2025 1 5 22 16, py "Bob") ].
Proof.
  assert (H : parse_chat_text (U := ascii_only_unicode)
                (py "junk" ++ [LF] ++ example_chat ++ [LF] ++ py "more") =
              ok [ {| timestamp := {| year := 2025; month := 1; day := 5;
                                      hour := 22; minute := 15; second := 3 |};
                      sender := py "Alice"; message := py "hello world" |};
                   {| timestamp := at_2025 1 5 22 16; sender := py "Bob";
                      message := py "<Media omitted>" ++ [LF] ++ py "more" |} ])
    by (vm_compute; reflexivity).
  split; [exact H |].
  symmetry.
  exact (proj1 (one_record_per_header (U := ascii_only_unicode) _ _ H)).
Defined.

(** ** The header pattern *)

Section HeaderPattern.
Context {U : UnicodeData}.

Lemma lit_Some (p : N) (s s' : pystr) : lit p s = Some s' <-> s = p :: s'.
Proof.
  unfold lit. destruct s as [|c s]; [split; discriminate |].
  destruct (c =? p)%N eqn:E.
  - apply N.eqb_eq in E. subst c. split; intros H; injection H as ->; reflexivity.
  - apply N.eqb_neq in E. split; [discriminate |].
    intros H. injection H as -> _. contradiction E. reflexivity.
Qed.

Lemma space_Some (s s' : pystr) :
  space s = Some s' <-> exists c, s = c :: s' /\ isspace c = true.
Proof.
  unfold space. destruct s as [|c s].
  - split; [discriminate | intros (c & H & _); discriminate H].
  - destruct (isspace c) eqn:E; split.
    + intros H. injection H as ->. now exists c.
    + intros (d & H & _). injection H as -> ->. reflexivity.
    + discriminate.
    + intros (d & H & Hd). injection H as -> ->. congruence.
Qed.

Lemma digits_Some (n : nat) (s ds r : pystr) :
  digits n s = Some (ds, r) <->
  s = ds ++ r /\ length ds = n /\ Forall (fun c => isdecimal c = true) ds.
Proof.
  revert s ds. induction n as [|n IH]; intros s ds; cbn [digits].
  - split.
    + intros H. injection H as <- <-. repeat split. constructor.
    + intros (-> & Hl & _). apply length_zero_iff_nil in Hl. now subst ds.
  - destruct s as [|c s].
    + split; [discriminate |]. intros (H & Hl & _).
      symmetry in H. apply app_eq_nil in H as [-> _]. discriminate Hl.
    + destruct (isdecimal c) eqn:Ec.
      * destruct (digits n s) as [[ds' r'] |] eqn:E; cbn [obind]; split.
        -- intros H. injection H as <- <-. apply IH in E as (-> & Hl & Hd).
           repeat split; [simpl; now f_equal | now constructor].
        -- intros (H & Hl & Hd). destruct ds as [|d ds]; [discriminate Hl |].
           injection H as <- ->. inversion Hd; subst.
           assert (E' : digits n (ds ++ r) = Some (ds, r)).
           { apply IH. repeat split; [now injection Hl | assumption]. }
           rewrite E' in E. now injection E as <- <-.
        -- discriminate.
        -- intros (H & Hl & Hd). destruct ds as [|d ds]; [discriminate Hl |].
           injection H as <- ->. inversion Hd; subst.
           assert (E' : digits n (ds ++ r) = Some (ds, r)).
           { apply IH. repeat split; [now injection Hl | assumption]. }
           rewrite E' in E. discriminate E.
      * split; [discriminate |].
        intros (H & Hl & Hd). destruct ds as [|d ds]; [discriminate Hl |].
        injection H as <- ->. inversion Hd; subst. congruence.
Qed.

Lemma lit_same (p : N) (r : pystr) : lit p (p :: r) = Some r.
Proof. now apply lit_Some. Qed.

Lemma space_blank (r : pystr) : space (chr " " :: r) = Some r.
Proof. reflexivity. Qed.

Lemma digits_app (n : nat) (ds r : pystr) :
  length ds = n -> Forall (fun c => isdecimal c = true) ds ->
  digits n (ds ++ r) = Some (ds, r).
Proof. intros Hl Hd. now apply digits_Some. Qed.

Lemma until_colon_Some (s g r : pystr) :
  until_colon s = Some (g, r) <-> s = g ++ chr ":" :: r /\ ~ In (chr ":") g.
Proof.
  revert g r. induction s as [|c s IH]; intros g r; cbn [until_colon].
  - split; [discriminate |]. intros [H _]. now destruct g.
  - destruct (c =? chr ":")%N eqn:Ec.
    + apply N.eqb_eq in Ec. subst c. split.
      * intros H. injection H as <- <-. split; [reflexivity | intros []].
      * intros [H Hg]. destruct g as [|d g].
        -- now injection H as ->.
        -- injection H as <- _. contradiction Hg. now left.
    + apply N.eqb_neq in Ec. split.
      * destruct (until_colon s) as [[g' r'] |] eqn:E; [| discriminate].
        cbn [obind]. intros H. injection H as <- <-.
        destruct (proj1 (IH g' r') eq_refl) as [-> Hg].
        split; [reflexivity |]. intros [H | H]; [congruence | contradiction].
      * intros [H Hg]. destruct g as [|d g].
        -- injection H as -> _. contradiction Ec. reflexivity.
        -- injection H as <- ->.
           rewrite (proj2 (IH g r)); [reflexivity |].
           split; [reflexivity |]. intros Hin. apply Hg. now right.
Qed.

Lemma sender_group_Some (s g r : pystr) :
  sender_group s = Some (g, r) <->
  s = g ++ chr ":" :: r /\ ~ In (chr ":") g /\ g <> [].
Proof.
  unfold sender_group. split.
  - destruct (until_colon s) as [[g' r'] |] eqn:E; [| discriminate].
    cbn [obind]. destruct g' as [|c g']; [discriminate |].
    intros H. injection H as <- <-. apply until_colon_Some in E as [-> Hg].
    repeat split; [assumption | discriminate].
  - intros (H & Hg & Hne).
    assert (E : until_colon s = Some (g, r)) by now apply until_colon_Some.
    rewrite E. cbn [obind]. destruct g; [contradiction Hne |]; reflexivity.
Qed.

Lemma no_LF_forallb (s : pystr) :
  forallb (fun c => negb (c =? LF)%N) s = true <-> ~ In LF s.
Proof.
  rewrite forallb_forall. split.
  - intros H Hin. specialize (H LF Hin). discriminate H.
  - intros H c Hc. destruct (c =? LF)%N eqn:E; [| reflexivity].
    apply N.eqb_eq in E. subst c. contradiction.
Qed.

Lemma dot_star_eol_plain (s : pystr) : ~ In LF s -> dot_star_eol s = Some s.
Proof.
  intros H. unfold dot_star_eol.
  now rewrite (proj2 (no_LF_forallb s) H).
Qed.

Lemma dot_star_eol_Some (s m : pystr) :
  dot_star_eol s = Some m -> (s = m \/ s = m ++ [LF]) /\ ~ In LF m.
Proof.
  unfold dot_star_eol.
  destruct (forallb _ s) eqn:E.
  - intros H. injection H as <-. split; [now left | now apply no_LF_forallb].
  - destruct (rev s) as [|c t] eqn:Er; [discriminate |].
    destruct ((c =? LF)%N && forallb (fun c => negb (c =? LF)%N) t) eqn:Ec;
      [| discriminate].
    intros H. injection H as <-.
    apply andb_true_iff in Ec as [Ec Et]. apply N.eqb_eq in Ec. subst c.
    split.
    + right. rewrite <- (rev_involutive s), Er. reflexivity.
    + apply no_LF_forallb in Et. intros Hin. apply Et. now apply in_rev.
Qed.

End HeaderPattern.

(** X2.  A line that is written as the export writes it is read back by the
    header pattern into its four groups: an opening bracket, a date of 4, 2
    and 2 decimal digits between slashes, a comma and a blank, a time of
    three pairs of decimal digits between colons, a closing bracket and a
    blank, a sender that is not empty and holds no colon, a colon and a blank,
    and a message with no line feed. *)
Theorem header_match_export_line {U : UnicodeData}
    (y mo d h mi se sender_ msg : pystr) :
  length y = 4 -> length mo = 2 -> length d = 2 ->
  length h = 2 -> length mi = 2 -> length se = 2 ->
  Forall (fun c => isdecimal c = true) (y ++ mo ++ d ++ h ++ mi ++ se) ->
  sender_ <> [] -> ~ In (chr ":") sender_ -> ~ In LF msg ->
  header_match (export_line y mo d h mi se sender_ msg) =
  Some (y ++ [chr "/"] ++ mo ++ [chr "/"] ++ d,
        h ++ [chr ":"] ++ mi ++ [chr ":"] ++ se,
        sender_, msg).
Proof.
  intros Hy Hmo Hd Hh Hmi Hse Hdig Hne Hcolon Hmsg.
  repeat (apply Forall_app in Hdig as [? Hdig]).
  unfold header_match, export_line.
  change (py ", ") with [chr ","; chr " "].
  change (py "] ") with [chr "]"; chr " "].
  change (py ": ") with [chr ":"; chr " "].
  cbn [app].
  rewrite lit_same. cbn [obind].
  rewrite (digits_app 4 y) by assumption. cbn [obind].
  rewrite lit_same. cbn [obind].
  rewrite (digits_app 2 mo) by assumption. cbn [obind].
  rewrite lit_same. cbn [obind].
  rewrite (digits_app 2 d) by assumption. cbn [obind].
  rewrite lit_same. cbn [obind]. rewrite space_blank. cbn [obind].
  rewrite (digits_app 2 h) by assumption. cbn [obind].
  rewrite lit_same. cbn [obind].
  rewrite (digits_app 2 mi) by assumption. cbn [obind].
  rewrite lit_same. cbn [obind].
  rewrite (digits_app 2 se) by assumption. cbn [obind].
  rewrite lit_same. cbn [obind]. rewrite space_blank. cbn [obind].
  rewrite (proj2 (sender_group_Some (sender_ ++ chr ":" :: chr " " :: msg)
                    sender_ (chr " " :: msg)))
    by (repeat split; auto).
  cbn [obind]. rewrite space_blank. cbn [obind].
  rewrite (dot_star_eol_plain msg Hmsg). reflexivity.
Qed.

Lemma header_match_export_line_witness :
  header_match (U := ascii_only_unicode)
    (export_line (py "2025") (py "01") (py "05") (py "22") (py "15") (py "03")
                 (py "Alice") (py "hello world")) =
  Some (py "2025/01/05", py "22:15:03", py "Alice", py "hello world").
Proof.
  refine (header_match_export_line (U := ascii_only_unicode)
            (py "2025") (py "01") (py "05") (py "22") (py "15") (py "03")
            (py "Alice") (py "hello world") _ _ _ _ _ _ _ _ _ _);
    try reflexivity.
  - repeat constructor.
  - discriminate.
  - vm_compute. intuition discriminate.
  - vm_compute. intuition discriminate.
Defined.

Ltac obind_inv H :=
  repeat
    match type of H with
    | obind ?m _ = Some _ =>
        let E := fresh "E" in
        destruct m as [? |] eqn:E; cbn [obind] in H; [| discriminate H]
    | (let '(_, _) := ?p in _) = Some _ => destruct p
    end.

(** What a line that the header pattern matches is made of. *)
Lemma header_match_inv {U : UnicodeData} (line date_str time_str sender_ msg : pystr) :
  header_match line = Some (date_str, time_str, sender_, msg) ->
  exists y mo d h mi se sp1 sp2 sp3 tail,
    line = chr "[" :: y ++ chr "/" :: mo ++ chr "/" :: d ++ chr "," :: sp1
           :: h ++ chr ":" :: mi ++ chr ":" :: se ++ chr "]" :: sp2
           :: sender_ ++ chr ":" :: sp3 :: tail
    /\ date_str = y ++ [chr "/"] ++ mo ++ [chr "/"] ++ d
    /\ time_str = h ++ [chr ":"] ++ mi ++ [chr ":"] ++ se
    /\ (length y = 4 /\ length mo = 2 /\ length d = 2
        /\ length h = 2 /\ length mi = 2 /\ length se = 2)
    /\ Forall (fun c => isdecimal c = true) (y ++ mo ++ d ++ h ++ mi ++ se)
    /\ (isspace sp1 = true /\ isspace sp2 = true /\ isspace sp3 = true)
    /\ sender_ <> [] /\ ~ In (chr ":") sender_
    /\ (tail = msg \/ tail = msg ++ [LF]) /\ ~ In LF msg.
Proof.
  unfold header_match. intros H. obind_inv H.
  injection H as <- <- <- <-.
  repeat match goal with
         | E : lit _ _ = Some _ |- _ => apply lit_Some in E
         | E : space _ = Some _ |- _ =>
             apply space_Some in E; destruct E as (? & E & ?)
         | E : digits _ _ = Some _ |- _ =>
             apply digits_Some in E; destruct E as (E & ? & ?)
         | E : sender_group _ = Some _ |- _ =>
             apply sender_group_Some in E; destruct E as (E & ? & ?)
         | E : dot_star_eol _ = Some _ |- _ =>
             apply dot_star_eol_Some in E; destruct E as (E & ?)
         end.
  subst.
  match goal with
  | Ht : ?tail = ?m \/ ?tail = ?m ++ [LF] |- _ =>
      do 9 eexists; exists tail
  end.
  split; [reflexivity |]. split; [reflexivity |]. split; [reflexivity |].
  split; [repeat split; assumption |].
  split; [repeat (apply Forall_app; split); assumption |].
  repeat split; assumption.
Qed.

(** X3.  The header pattern reads nothing else: a line it matches is made of
    the bracketed date and time of decimal digits, one blank character after
    the comma, after the bracket and after the colon, a sender that is not
    empty and holds no colon, and the message, which holds no line feed and
    is the rest of the line, up to one line feed at its end. *)
Theorem header_match_shape {U : UnicodeData} (line date_str time_str sender_ msg : pystr) :
  header_match line = Some (date_str, time_str, sender_, msg) ->
  exists y mo d h mi se sp1 sp2 sp3 tail,
    line = chr "[" :: y ++ chr "/" :: mo ++ chr "/" :: d ++ chr "," :: sp1
           :: h ++ chr ":" :: mi ++ chr ":" :: se ++ chr "]" :: sp2
           :: sender_ ++ chr ":" :: sp3 :: tail
    /\ date_str = y ++ [chr "/"] ++ mo ++ [chr "/"] ++ d
    /\ time_str = h ++ [chr ":"] ++ mi ++ [chr ":"] ++ se
    /\ (length y = 4 /\ length mo = 2 /\ length d = 2
        /\ length h = 2 /\ length mi = 2 /\ length se = 2)
    /\ Forall (fun c => isdecimal c = true) (y ++ mo ++ d ++ h ++ mi ++ se)
    /\ (isspace sp1 = true /\ isspace sp2 = true /\ isspace sp3 = true)
    /\ sender_ <> [] /\ ~ In (chr ":") sender_
    /\ (tail = msg \/ tail = msg ++ [LF]) /\ ~ In LF msg.
Proof. apply header_match_inv. Qed.

Lemma header_match_shape_witness :
  exists y mo d h mi se sp1 sp2 sp3 tail,
    py "[2025/01/05, 22:15:03] Alice: hello world" =
      chr "[" :: y ++ chr "/" :: mo ++ chr "/" :: d ++ chr "," :: sp1
      :: h ++ chr ":" :: mi ++ chr ":" :: se ++ chr "]" :: sp2
      :: py "Alice" ++ chr ":" :: sp3 :: tail
    /\ length y = 4 /\ isspace sp3 = true /\ ~ In LF (py "hello world").
Proof.
  destruct (header_match_shape (U := ascii_only_unicode)
              (py "[2025/01/05, 22:15:03] Alice: hello world")
              (py "2025/01/05") (py "22:15:03") (py "Alice") (py "hello world")
              eq_refl)
    as (y & mo & d & h & mi & se & sp1 & sp2 & sp3 & tail
        & Hl & _ & _ & (Hy & _) & _ & (_ & _ & Hs) & _ & _ & _ & Hm).
  exists y, mo, d, h, mi, se, sp1, sp2, sp3, tail. auto.
Defined.

(** ** The records of the parser *)

Lemma strip_In (s : pystr) (c : N) : In c (strip s) -> In c s.
Proof.
  destruct (strip_spec s) as [(a & b & E & _) _]. intros H.
  rewrite E. apply in_or_app. right. apply in_or_app. now left.
Qed.

Lemma strip_trimmed (s : pystr) : trimmed (strip s).
Proof.
  destruct (strip_spec s) as (_ & Hh & Ht). split.
  - exact Hh.
  - intros t c E. exact (Ht c t E).
Qed.

Lemma no_trailing_space_app (a b : pystr) :
  b <> [] -> no_trailing_space b -> no_trailing_space (a ++ b).
Proof.
  intros Hne Hb t c E.
  destruct (exists_last Hne) as (b' & d & ->).
  rewrite app_assoc in E. apply app_inj_tail in E as [_ ->].
  exact (Hb b' c eq_refl).
Qed.

Section Shapes.
Context {U : UnicodeData}.

Lemma parse_line_shaped (records : list record) (current : option record)
    (l : pystr) (st : list record * option record) :
  no_linebreak l ->
  Forall well_shaped records ->
  (forall c, current = Some c -> well_shaped c) ->
  parse_line records current l = ok st ->
  Forall well_shaped (fst st) /\ forall c, snd st = Some c -> well_shaped c.
Proof.
  intros Hl Hr Hc. unfold parse_line.
  rewrite (rstrip_newline_clean l Hl).
  destruct (header_match l) as [[[[date_str time_str] sender0] msg] |] eqn:Eh.
  - destruct (strptime _) as [ts |]; [| discriminate].
    cbn [bind]. intros H. injection H as <-. cbn [fst snd]. split.
    + destruct current as [c |]; [| exact Hr].
      apply Forall_app. split; [exact Hr |].
      constructor; [now apply Hc | constructor].
    + intros c E. injection E as <-.
      destruct (header_match_inv _ _ _ _ _ Eh)
        as (y & mo & d & h & mi & se & sp1 & sp2 & sp3 & tail
            & Hline & _ & _ & _ & _ & _ & _ & Hcolon & Htail & _).
      unfold well_shaped. cbn [sender message].
      split; [apply strip_trimmed |].
      split; [intros Hin; apply Hcolon; now apply strip_In |].
      split; [apply strip_trimmed |].
      apply Forall_forall. intros c Hin Hb.
      apply strip_In in Hin.
      assert (Hin' : In c l).
      { rewrite Hline.
        repeat first [apply in_cons | apply in_or_app; right].
        destruct Htail as [-> | ->]; [assumption |].
        apply in_or_app. now left. }
      unfold no_linebreak in Hl. rewrite Forall_forall in Hl.
      rewrite (Hl c Hin') in Hb. discriminate Hb.
  - destruct current as [c |].
    + destruct (str_eqb (strip l) []) eqn:Eb; cbn [negb];
        intros H; injection H as <-; cbn [fst snd];
        (split; [exact Hr |]); [exact Hc |].
      intros c' E. injection E as <-.
      destruct (Hc c eq_refl) as (Hs1 & Hs2 & Hm1 & Hm2).
      unfold well_shaped. cbn [sender message].
      split; [exact Hs1 |]. split; [exact Hs2 |].
      assert (Hne : strip l <> []).
      { intros E. rewrite E in Eb. discriminate Eb. }
      split.
      * change (message c ++ LF :: strip l)
          with (message c ++ [LF] ++ strip l).
        rewrite app_assoc. apply no_trailing_space_app; [exact Hne |].
        apply strip_trimmed.
      * apply Forall_app. split; [exact Hm2 |].
        constructor; [reflexivity |].
        apply Forall_forall. intros d Hin Hb. apply strip_In in Hin.
        unfold no_linebreak in Hl. rewrite Forall_forall in Hl.
        rewrite (Hl d Hin) in Hb. discriminate Hb.
    + intros H. injection H as <-. cbn [fst snd]. split; [exact Hr | exact Hc].
Qed.

Lemma parse_lines_shaped (lines : list pystr) (records : list record)
    (current : option record) (st : list record * option record) :
  Forall no_linebreak lines ->
  Forall well_shaped records ->
  (forall c, current = Some c -> well_shaped c) ->
  parse_lines lines records current = ok st ->
  Forall well_shaped (fst st) /\ forall c, snd st = Some c -> well_shaped c.
Proof.
  intros Hl. revert records current.
  induction Hl as [| l lines Hl _ IH]; intros records current Hr Hc;
    cbn [parse_lines].
  - intros H. injection H as <-. auto.
  - destruct (parse_line records current l) as [st' |] eqn:E; [| discriminate].
    cbn [bind].
    destruct (parse_line_shaped records current l st' Hl Hr Hc E) as [Hr' Hc'].
    now apply IH.
Qed.

End Shapes.

(** X4.  In every record that the parser returns the sender has no blank at
    either end and holds no colon, and the message has no blank at its end and
    no line boundary but the line feeds that join its lines. *)
Theorem parsed_records_shape {U : UnicodeData} (content : pystr)
    (records : list record) :
  parse_chat_text content = ok records -> Forall well_shaped records.
Proof.
  unfold parse_chat_text.
  destruct (parse_lines (splitlines content) [] None) as [st |] eqn:E;
    [| discriminate].
  cbn [bind]. intros H. injection H as <-.
  destruct (parse_lines_shaped _ [] None st (splitlines_clean content)
              (Forall_nil _) ltac:(discriminate) E) as [Hr Hc].
  unfold finish. destruct (snd st) as [c |]; [| exact Hr].
  apply Forall_app. split; [exact Hr |]. constructor; [now apply Hc | constructor].
Qed.

Lemma parsed_records_shape_witness :
  exists records,
    parse_chat_text (U := ascii_only_unicode)
      (py "[2025/03/09, 23:01:00]  Alice : " ++ [13; LF]%N ++ py "  hello ") =
    ok records
    /\ map message records = [LF :: py "hello"]
    /\ Forall well_shaped records.
Proof.
  eexists. split; [vm_compute; reflexivity |]. split; [reflexivity |].
  refine (parsed_records_shape (U := ascii_only_unicode)
            (py "[2025/03/09, 23:01:00]  Alice : " ++ [13; LF]%N ++ py "  hello ")
            _ _).
  vm_compute. reflexivity.
Defined.

(** ** A date that [strptime] refuses, and texts put end to end *)

Section ParserFlow.
Context {U : UnicodeData}.

Lemma parse_line_prefix (r0 records : list record) (current : option record)
    (l : pystr) :
  parse_line (r0 ++ records) current l =
  map_result (fun st => (r0 ++ fst st, snd st)) (parse_line records current l).
Proof.
  unfold parse_line.
  destruct (header_match (rstrip_newline l))
    as [[[[date_str time_str] sender0] msg] |].
  - destruct (strptime _) as [ts |]; [| reflexivity].
    cbn [bind map_result fst snd].
    destruct current; [rewrite app_assoc |]; reflexivity.
  - destruct current as [c |]; [destruct (negb _) |]; reflexivity.
Qed.

Lemma parse_lines_prefix (lines : list pystr) (r0 records : list record)
    (current : option record) :
  parse_lines lines (r0 ++ records) current =
  map_result (fun st => (r0 ++ fst st, snd st))
             (parse_lines lines records current).
Proof.
  revert records current. induction lines as [|l lines IH];
    intros records current; cbn [parse_lines].
  - reflexivity.
  - rewrite parse_line_prefix.
    destruct (parse_line records current l) as [st |]; [| reflexivity].
    cbn [bind map_result fst snd]. apply IH.
Qed.

Lemma parse_line_closes (records : list record) (current : option record)
    (l : pystr) :
  is_header l ->
  parse_line records current l = parse_line (finish (records, current)) None l.
Proof.
  unfold is_header, parse_line, finish. cbn [fst snd].
  destruct (header_match (rstrip_newline l)) as [[[[? ?] ?] ?] |];
    [| intros H; contradiction H; reflexivity].
  intros _. destruct current; reflexivity.
Qed.

End ParserFlow.

(** X5.  The parser can raise: when a line has the shape of a header and
    [strptime] refuses its date or time, the [ValueError] leaves
    [parse_chat_text] and the handler, whatever the lines after it are; no
    record and no format error is returned. *)
Theorem refused_date_raises {U : UnicodeData} (v : pydantic) (text : pystr)
    (pre rest : list pystr) (l date_str time_str sender_ msg : pystr)
    (st : list record * option record) (e : exn) :
  splitlines text = pre ++ l :: rest ->
  parse_lines pre [] None = ok st ->
  header_match (rstrip_newline l) = Some (date_str, time_str, sender_, msg) ->
  strptime (date_str ++ [chr " "] ++ time_str) = raise e ->
  parse_chat_text text = raise e /\ wrapped_text v text = raise e.
Proof.
  intros Hs Hpre Hh He.
  assert (Hp : parse_chat_text text = raise e).
  { unfold parse_chat_text. rewrite Hs, parse_lines_app, Hpre.
    cbn [bind parse_lines]. unfold parse_line. rewrite Hh, He. reflexivity. }
  split; [exact Hp |]. unfold wrapped_text. now rewrite Hp.
Qed.

Lemma refused_date_raises_witness :
  parse_chat_text (U := ascii_only_unicode)
    (py "[2025/01/05, 22:15:03] Alice: hi" ++ [LF]
     ++ py "[2025/02/30, 10:00:00] Bob: hello" ++ [LF] ++ py "more") =
  raise (ValueError "out of range")
  /\ wrapped_text (U := ascii_only_unicode) pydantic_v1
       (py "[2025/01/05, 22:15:03] Alice: hi" ++ [LF]
        ++ py "[2025/02/30, 10:00:00] Bob: hello" ++ [LF] ++ py "more") =
     raise (ValueError "out of range").
Proof.
  refine (refused_date_raises (U := ascii_only_unicode) pydantic_v1 _
            [py "[2025/01/05, 22:15:03] Alice: hi"] [py "more"]
            (py "[2025/02/30, 10:00:00] Bob: hello")
            (py "2025/02/30") (py "10:00:00") (py "Bob") (py "hello")
            _ (ValueError "out of range") _ _ _ _).
  - vm_compute. reflexivity.
  - vm_compute. reflexivity.
  - vm_compute. reflexivity.
  - vm_compute. reflexivity.
Defined.

(** X6.  Lines put after other lines are parsed on their own when they start
    with a header line: the records of the whole are the records of the first
    part followed by the records of the second, and an error of either part
    is the error of the whole, the first part's first. *)
Theorem parse_lines_concat {U : UnicodeData} (ls1 ls2 : list pystr) (h : pystr) :
  is_header h ->
  parse_chat_text_lines (ls1 ++ h :: ls2) =
  (r1 <- parse_chat_text_lines ls1 ;;
   r2 <- parse_chat_text_lines (h :: ls2) ;;
   ok (r1 ++ r2)).
Proof.
  intros Hh. unfold parse_chat_text_lines.
  rewrite parse_lines_app.
  destruct (parse_lines ls1 [] None) as [[records current] |]; [| reflexivity].
  cbn [bind fst snd parse_lines].
  rewrite (parse_line_closes records current h Hh).
  rewrite <- (app_nil_r (finish (records, current))) at 1.
  rewrite parse_line_prefix.
  destruct (parse_line [] None h) as [st |]; [| reflexivity].
  cbn [bind map_result fst snd].
  rewrite parse_lines_prefix.
  destruct (parse_lines ls2 (fst st) (snd st)) as [st2 |]; [| reflexivity].
  cbn [bind map_result]. f_equal.
  set (r1 := finish (records, current)).
  unfold finish. cbn [fst snd].
  destruct (snd st2); [rewrite <- app_assoc |]; reflexivity.
Qed.

Lemma parse_lines_concat_witness :
  is_header (U := ascii_only_unicode) (py "[2025/03/09, 23:02:00] Bob: Bob added Carol")
  /\ parse_chat_text_lines (U := ascii_only_unicode)
       ([py "[2025/03/09, 23:01:00] Alice: hello"; py "   "]
        ++ py "[2025/03/09, 23:02:00] Bob: Bob added Carol" :: []) =
     ok [alice_hello; bob_added].
Proof.
  assert (H : is_header (U := ascii_only_unicode)
                (py "[2025/03/09, 23:02:00] Bob: Bob added Carol"))
    by (vm_compute; discriminate).
  split; [exact H |].
  rewrite (parse_lines_concat (U := ascii_only_unicode)
             [py "[2025/03/09, 23:01:00] Alice: hello"; py "   "] []
             (py "[2025/03/09, 23:02:00] Bob: Bob added Carol") H).
  vm_compute. reflexivity.
Defined.

(** ** The administrative pattern *)

Lemma ci_char_refl (p : N) : ci_char p p = true.
Proof.
  unfold ci_char. destruct (is_ascii_lower p); rewrite N.eqb_refl; reflexivity.
Qed.

Lemma ci_equal_refl (pat : pystr) : ci_equal pat pat.
Proof. induction pat; constructor; [apply ci_char_refl | assumption]. Qed.

Lemma ci_char_letter_not_LF (p c : N) :
  is_ascii_lower p = true -> ci_char p c = true -> c <> LF.
Proof.
  unfold ci_char, is_ascii_lower. intros Hp. rewrite Hp.
  apply andb_true_iff in Hp as [Hp1 Hp2]. apply N.leb_le in Hp1, Hp2.
  change (chr "i") with 105%N. change (chr "s") with 115%N.
  change (chr "k") with 107%N.
  rewrite !orb_true_iff, !andb_true_iff, !orb_true_iff, !N.eqb_eq.
  unfold LF. lia.
Qed.

Lemma ci_prefix_Some (pat s r : pystr) :
  ci_prefix pat s = Some r <-> exists t, s = t ++ r /\ ci_equal pat t.
Proof.
  revert s. induction pat as [|p pat IH]; intros s; cbn [ci_prefix].
  - split.
    + intros H. injection H as ->. exists []. split; [reflexivity | constructor].
    + intros (t & -> & Ht). inversion Ht. reflexivity.
  - destruct s as [|c s].
    + split; [discriminate |]. intros (t & H & Ht).
      inversion Ht; subst. discriminate H.
    + destruct (ci_char p c) eqn:Ec; split.
      * intros H. apply IH in H as (t & -> & Ht).
        exists (c :: t). split; [reflexivity | now constructor].
      * intros (t & H & Ht). inversion Ht as [| ? d ? t' Hd Ht']; subst.
        injection H as <- ->. apply IH. now exists t'.
      * discriminate.
      * intros (t & H & Ht). inversion Ht as [| ? d ? t' Hd Ht']; subst.
        injection H as <- ->. congruence.
Qed.

Lemma ci_find_true (pat s : pystr) :
  ci_find pat s = true <-> exists a t b, s = a ++ t ++ b /\ ci_equal pat t.
Proof.
  induction s as [|c s IH].
  - cbn [ci_find]. destruct (ci_prefix pat []) as [r |] eqn:E; split.
    + intros _. apply ci_prefix_Some in E as (t & -> & Ht).
      exists [], t, r. auto.
    + reflexivity.
    + discriminate.
    + intros (a & t & b & H & Ht).
      symmetry in H. apply app_eq_nil in H as [-> H].
      apply app_eq_nil in H as [-> ->].
      assert (E' : ci_prefix pat [] = Some []).
      { apply ci_prefix_Some. exists []. auto. }
      congruence.
  - cbn [ci_find]. destruct (ci_prefix pat (c :: s)) as [r |] eqn:E.
    + split; [| reflexivity]. intros _.
      apply ci_prefix_Some in E as (t & -> & Ht). exists [], t, r. auto.
    + rewrite IH. split.
      * intros (a & t & b & -> & Ht). exists (c :: a), t, b. auto.
      * intros (a & t & b & H & Ht). destruct a as [|d a].
        -- exfalso. assert (E' : ci_prefix pat (c :: s) = Some b).
           { apply ci_prefix_Some. exists t. auto. }
           congruence.
        -- injection H as <- ->. exists a, t, b. auto.
Qed.

Lemma dot_reach_app (a b : pystr) :
  ~ In LF a -> dot_reach (a ++ b) = a ++ dot_reach b.
Proof.
  induction a as [|c a IH]; intros H; [reflexivity |].
  cbn [app dot_reach]. destruct (c =? LF)%N eqn:E.
  - apply N.eqb_eq in E. subst c. contradiction H. now left.
  - rewrite IH; [reflexivity |]. intros Hin. apply H. now right.
Qed.

Lemma dot_reach_split (s : pystr) :
  exists rest, s = dot_reach s ++ rest /\ ~ In LF (dot_reach s).
Proof.
  induction s as [|c s (rest & E & H)]; cbn [dot_reach].
  - exists []. split; [reflexivity | intros []].
  - destruct (c =? LF)%N eqn:Ec.
    + exists (c :: s). split; [reflexivity | intros []].
    + exists rest. split; [cbn [app]; now f_equal |].
      intros [-> | Hin]; [discriminate Ec | contradiction].
Qed.

Lemma ci_equal_admin_no_LF (t : pystr) : ci_equal (py "admin") t -> ~ In LF t.
Proof.
  intros H.
  repeat match goal with
         | H : ci_equal _ _ |- _ => inversion H; clear H; subst
         | H : Forall2 _ _ _ |- _ => inversion H; clear H; subst
         end.
  intros Hin. cbn [In] in Hin.
  repeat (destruct Hin as [Hin | Hin];
          [revert Hin;
           eapply ci_char_letter_not_LF; [| eassumption]; reflexivity |]).
  exact Hin.
Qed.

Lemma in_app_split {A} (x : A) (l1 l2 : list A) :
  ~ In x (l1 ++ l2) <-> ~ In x l1 /\ ~ In x l2.
Proof. rewrite in_app_iff. tauto. Qed.

Lemma admin_action_at_true (s : pystr) :
  admin_action_at s = true <->
  (exists pat t b, In pat ADMIN_LITERALS /\ ci_equal pat t /\ s = t ++ b)
  \/ (exists t1 mid t2 b,
        ci_equal (py "made") t1 /\ ~ In LF mid /\ ci_equal (py "admin") t2
        /\ s = t1 ++ mid ++ t2 ++ b).
Proof.
  unfold admin_action_at. rewrite orb_true_iff, existsb_exists. split.
  - intros [(pat & Hpat & H) | H].
    + left. destruct (ci_prefix pat s) as [r |] eqn:E; [| discriminate].
      apply ci_prefix_Some in E as (t & -> & Ht). exists pat, t, r. auto.
    + right. destruct (ci_prefix (py "made") s) as [r |] eqn:E; [| discriminate].
      apply ci_prefix_Some in E as (t1 & -> & Ht1).
      apply ci_find_true in H as (mid & t2 & b & Hr & Ht2).
      destruct (dot_reach_split r) as (rest & Er & Hno).
      rewrite Hr in Hno. apply in_app_split in Hno as [Hmid _].
      exists t1, mid, t2, (b ++ rest). repeat split; try assumption.
      rewrite Er, Hr, <- !app_assoc. reflexivity.
  - intros [(pat & t & b & Hpat & Ht & ->) | (t1 & mid & t2 & b & H1 & Hmid & H2 & ->)].
    + left. exists pat. split; [assumption |].
      rewrite (proj2 (ci_prefix_Some pat (t ++ b) b)); [reflexivity |].
      now exists t.
    + right.
      rewrite (proj2 (ci_prefix_Some (py "made") (t1 ++ mid ++ t2 ++ b)
                        (mid ++ t2 ++ b))) by (now exists t1).
      rewrite dot_reach_app by assumption.
      rewrite dot_reach_app by (now apply ci_equal_admin_no_LF).
      apply ci_find_true. exists mid, t2, (dot_reach b). auto.
Qed.

Lemma search_true (s : pystr) :
  ADMIN_ACTION_RE_search s = true <->
  exists a r, s = a ++ r /\ admin_action_at r = true.
Proof.
  induction s as [|c s IH]; cbn [ADMIN_ACTION_RE_search].
  - rewrite orb_false_r. split.
    + intros H. exists [], []. auto.
    + intros (a & r & H & Hr). symmetry in H.
      apply app_eq_nil in H as [_ ->]. exact Hr.
  - rewrite orb_true_iff, IH. split.
    + intros [H | (a & r & -> & Hr)].
      * exists [], (c :: s). auto.
      * exists (c :: a), r. auto.
    + intros (a & r & H & Hr). destruct a as [|d a].
      * left. cbn [app] in H. now subst r.
      * right. injection H as <- ->. now exists a, r.
Qed.

(** X7.  The administrative pattern finds a match in a text exactly when the
    text holds, in any case of the letters, one of [created this group],
    [added], [removed], [changed], [promoted], [omitted], or holds [made] and
    later, with no line feed between, [admin].  So a text with one of these
    words anywhere inside, such as a sentence with [added], is a system
    event. *)
Theorem admin_search_spec (s : pystr) :
  (ADMIN_ACTION_RE_search s = true <-> admin_action_in s)
  /\ forall pat a b,
       In pat ADMIN_LITERALS -> s = a ++ pat ++ b ->
       ADMIN_ACTION_RE_search s = true.
Proof.
  assert (Hiff : ADMIN_ACTION_RE_search s = true <-> admin_action_in s).
  { rewrite search_true. unfold admin_action_in. split.
    - intros (a & r & -> & Hr). apply admin_action_at_true in Hr.
      destruct Hr as [(pat & t & b & Hp & Ht & ->)
                     | (t1 & mid & t2 & b & H1 & Hm & H2 & ->)].
      + exists a, b. left. exists pat, t. auto.
      + exists a, b. right. exists t1, mid, t2. auto.
    - intros (a & b & [(pat & t & Hp & Ht & ->)
                      | (t1 & mid & t2 & H1 & Hm & H2 & ->)]).
      + exists a, (t ++ b). split; [reflexivity |].
        apply admin_action_at_true. left. exists pat, t, b. auto.
      + exists a, (t1 ++ mid ++ t2 ++ b). split; [reflexivity |].
        apply admin_action_at_true. right. exists t1, mid, t2, b. auto. }
  split; [exact Hiff |].
  intros pat a b Hp ->. apply Hiff. exists a, b. left.
  exists pat, pat. split; [assumption |]. split; [apply ci_equal_refl | reflexivity].
Qed.

Lemma admin_search_spec_witness :
  In (py "added") ADMIN_LITERALS
  /\ ADMIN_ACTION_RE_search (py "John added a photo") = true
  /\ ADMIN_ACTION_RE_search (py "He MADE me an Admin") = true
  /\ ADMIN_ACTION_RE_search (py "made" ++ [LF] ++ py "admin") = false.
Proof.
  assert (H : In (py "added") ADMIN_LITERALS) by (right; left; reflexivity).
  split; [exact H |]. split.
  - exact (proj2 (admin_search_spec (py "John added a photo"))
             (py "added") (py "John ") (py " a photo") H eq_refl).
  - split; reflexivity.
Defined.

(** ** The media filter and the left-to-right mark *)

Lemma replace_char_absent (old : N) (s : pystr) :
  ~ In old s -> replace_char old [] s = s.
Proof.
  unfold replace_char. induction s as [|c s IH]; intros H; [reflexivity |].
  cbn [flat_map]. destruct (c =? old)%N eqn:E.
  - apply N.eqb_eq in E. subst c. contradiction H. now left.
  - rewrite IH; [reflexivity |]. intros Hin. apply H. now right.
Qed.

Lemma filter_all {A} (f : A -> bool) (l : list A) :
  Forall (fun x => f x = true) l -> filter f l = l.
Proof.
  induction 1 as [| x l Hx _ IH]; [reflexivity |].
  cbn [filter]. now rewrite Hx, IH.
Qed.

Lemma media_without_mark (m : pystr) :
  is_media_message m = true -> ~ In LRM m -> ADMIN_ACTION_RE_search m = true.
Proof.
  unfold is_media_message. intros H Hno.
  rewrite (replace_char_absent LRM m Hno) in H. apply str_in_In in H.
  destruct (placeholders_contain_omitted _ H) as (a & b & E).
  destruct (strip_spec m) as [(a' & b' & Em & _) _].
  rewrite Em, E, <- !app_assoc.
  rewrite (app_assoc a' a). apply search_omitted.
Qed.

(** X8.  The media filter removes a user message only if its text holds a
    left-to-right mark: a placeholder without the mark holds [omitted] and is a
    system event already.  In a chat with no such mark the filter removes
    nothing, and the longest message, the words and the emoji are taken from
    all the user messages. *)
Theorem media_filter_needs_mark (records : list record) :
  Forall (fun r => ~ In LRM (message r)) records ->
  content_msgs records = user_msgs_of records
  /\ Forall (fun r => is_media_message (message r) = false)
            (user_msgs_of records).
Proof.
  intros H. rewrite Forall_forall in H.
  assert (Hu : Forall (fun r => is_media_message (message r) = false)
                      (user_msgs_of records)).
  { apply Forall_forall. intros r Hr.
    apply in_user_msgs_of in Hr as (Hin & _ & Hs).
    destruct (is_media_message (message r)) eqn:E; [| reflexivity].
    unfold is_system_event in Hs.
    rewrite (media_without_mark _ E (H r Hin)) in Hs. discriminate Hs. }
  split; [| exact Hu].
  unfold content_msgs. apply filter_all.
  eapply Forall_impl; [| exact Hu]. intros r Hr. cbn beta. now rewrite Hr.
Qed.

Lemma media_filter_needs_mark_witness :
  Forall (fun r => ~ In LRM (message r)) [alice_hello; bob_media; bob_added]
  /\ content_msgs [alice_hello; bob_media; bob_added] = [alice_hello]
  /\ content_msgs three_records <> user_msgs_of three_records.
Proof.
  assert (H : Forall (fun r => ~ In LRM (message r))
                     [alice_hello; bob_media; bob_added]).
  { repeat constructor; vm_compute; intuition discriminate. }
  split; [exact H |]. split.
  - rewrite (proj1 (media_filter_needs_mark _ H)). vm_compute. reflexivity.
  - vm_compute. discriminate.
Defined.

(** ** Words across lines *)

Lemma findall_runs_sep (f : N -> bool) (s1 s2 cur : pystr) (c : N) :
  f c = false ->
  findall_runs f cur (s1 ++ c :: s2) =
  findall_runs f cur s1 ++ findall_runs f [] s2.
Proof.
  intros Hc. revert cur. induction s1 as [|x s1 IH]; intros cur;
    cbn [app findall_runs].
  - rewrite Hc. destruct cur; reflexivity.
  - destruct (f x); [apply IH |].
    destruct cur; [apply IH |]. cbn [app]. f_equal. apply IH.
Qed.

Section Words.
Context {U : UnicodeData}.

Lemma lower_app (a b : pystr) : lower (a ++ b) = lower a ++ lower b.
Proof. unfold lower. apply flat_map_app. Qed.

Lemma tokenize_LF (a b : pystr) :
  tokenize (a ++ LF :: b) = tokenize a ++ tokenize b.
Proof.
  unfold tokenize. rewrite lower_app.
  change (lower (LF :: b)) with (LF :: lower b).
  rewrite findall_runs_sep by reflexivity. apply filter_app.
Qed.

Lemma tokenize_lines (x : pystr) (ys : list pystr) :
  tokenize (x ++ flat_map (fun l => LF :: l) ys) =
  tokenize x ++ flat_map tokenize ys.
Proof.
  revert x. induction ys as [|y ys IH]; intros x; cbn [flat_map].
  - now rewrite !app_nil_r.
  - cbn [app]. rewrite tokenize_LF, IH. reflexivity.
Qed.

End Words.

(** X9.  A line feed parts words: the tokens of a text with a line feed are
    the tokens of what comes before it followed by the tokens of what comes
    after.  So the words of a message with continuation lines are the words of
    its first line followed by the words of each continuation line that is
    not blank. *)
Theorem tokenize_message_lines {U : UnicodeData} (a b msg : pystr)
    (ls : list pystr) :
  tokenize (a ++ LF :: b) = tokenize a ++ tokenize b
  /\ tokenize (body_after msg ls) =
     tokenize msg
     ++ flat_map (fun l => tokenize (strip l))
                 (filter (fun l => negb (str_eqb (strip l) [])) ls).
Proof.
  split; [apply tokenize_LF |].
  unfold body_after.
  set (keep := filter (fun l => negb (str_eqb (strip l) [])) ls).
  replace (flat_map (fun l => LF :: strip l) keep)
    with (flat_map (fun l => LF :: l) (map strip keep))
    by (rewrite flat_map_concat_map, map_map, <- flat_map_concat_map; reflexivity).
  rewrite tokenize_lines.
  f_equal. rewrite !flat_map_concat_map, map_map. reflexivity.
Qed.

(** ** What a response holds *)

Section Inversion.
Context {U : UnicodeData}.

(** A response for a set of user messages that is not empty: the steps that
    gave its fields. *)
Lemma compute_stats_ok_inv (v : pydantic) (records : list record)
    (res : WrappedResponse) :
  compute_stats v records = ok res -> user_msgs_of records <> [] ->
  exists quiet bh bd name pm dt,
    py_min snd (Counter str_eqb (scan_senders records)) = ok quiet
    /\ first_item (most_common 1 (Counter Z.eqb (scan_hours records))) = ok bh
    /\ first_item (most_common 1 (Counter Z.eqb (scan_weekdays records))) = ok bd
    /\ nth_error DOW_NAMES (Z.to_nat (fst bd)) = Some name
    /\ first_item (most_common 1 (Counter pair_eqb (scan_months records))) = ok pm
    /\ datetime_new (fst (fst pm)) (snd (fst pm)) 1 0 0 0 = ok dt
    /\ longest_stat (content_msgs records) = ok (longest_message res)
    /\ most_word_stat (word_counter_of (content_msgs records)) =
       ok (most_used_word res)
    /\ most_emoji_stat (emoji_counter_of (content_msgs records)) =
       ok (most_used_emoji res)
    /\ top_talkers res =
       map to_talker (most_common 10 (Counter str_eqb (scan_senders records)))
    /\ quietest_sender res = Some (to_talker quiet)
    /\ busiest_hour res = {| bh_hour := Some (fst bh); bh_count := snd bh |}
    /\ busiest_day_of_week res = {| bd_day := Some name; bd_count := snd bd |}
    /\ peak_month res =
       {| pm_year := Some (fst (fst pm)); pm_month := Some (snd (fst pm));
          pm_label := Some (strftime_B_Y dt); pm_count := snd pm |}
    /\ no_count (night_owl res) =
       length (filter (fun r => is_night (timestamp r)) (user_msgs_of records)).
Proof.
  intros H Hne. unfold compute_stats in H. rewrite classify_classes in H.
  destruct (length (user_msgs_of records) =? 0) eqn:E0.
  { apply Nat.eqb_eq, length_zero_iff_nil in E0. contradiction. }
  unfold scan_senders, scan_hours, scan_weekdays, scan_months, content_msgs.
  unfold user_non_media_of in H.
  destruct (py_min snd _) as [quiet |] eqn:E1; [| discriminate H].
  cbn [bind] in H.
  destruct (first_item (most_common 1 (Counter Z.eqb (map (fun r => hour (timestamp r)) _))))
    as [bh |] eqn:E2; [| discriminate H].
  cbn [bind] in H.
  destruct (first_item (most_common 1 (Counter Z.eqb (map (fun r => weekday (timestamp r)) _))))
    as [bd |] eqn:E3; [| discriminate H].
  cbn [bind] in H.
  destruct (first_item (most_common 1 (Counter pair_eqb _)))
    as [[[py pmo] pc] |] eqn:E4; [| discriminate H].
  cbn [bind] in H.
  destruct (datetime_new py pmo 1 0 0 0) as [dt |] eqn:E5; [| discriminate H].
  cbn [bind] in H.
  destruct (longest_stat _) as [lm |] eqn:E6; [| discriminate H].
  cbn [bind] in H.
  destruct (most_word_stat _) as [w |] eqn:E7; [| discriminate H].
  cbn [bind] in H.
  destruct (most_emoji_stat _) as [e |] eqn:E8; [| discriminate H].
  cbn [bind] in H.
  destruct (nth_error DOW_NAMES (Z.to_nat (fst bd))) as [name |] eqn:E9;
    [| discriminate H].
  cbn in H. injection H as <-.
  exists quiet, bh, bd, name, (py, pmo, pc), dt. cbn.
  repeat split; assumption.
Qed.

End Inversion.

(** ** Counts *)

Section CounterSums.
Context {K : Type}.
Variable eqb : K -> K -> bool.

Lemma counter_incr_sum (k : K) (c : counter K) :
  list_sum (map snd (counter_incr eqb k c)) = S (list_sum (map snd c)).
Proof.
  induction c as [|[k0 n0] c IH]; cbn [counter_incr]; [reflexivity |].
  unfold list_sum in *.
  destruct (eqb k0 k); cbn [map snd fold_right] in *; lia.
Qed.

(** The counts of a frequency table add up to the length of the scan. *)
Lemma Counter_sum (xs : list K) :
  list_sum (map snd (Counter eqb xs)) = length xs.
Proof.
  induction xs as [|k xs IH] using rev_ind; [reflexivity |].
  unfold Counter in *. rewrite counter_update_app. cbn [counter_update fold_left].
  rewrite counter_incr_sum. fold (counter_update eqb [] xs).
  rewrite IH, length_app. cbn [length]. lia.
Qed.

Lemma insert_desc_sum (x : K * nat) (l : list (K * nat)) :
  list_sum (map snd (insert_desc x l)) = snd x + list_sum (map snd l).
Proof.
  induction l as [|y l IH]; cbn [insert_desc]; [reflexivity |].
  unfold list_sum in *.
  destruct (snd x <? snd y); cbn [map fold_right] in *; lia.
Qed.

Lemma sorted_desc_sum (l : list (K * nat)) :
  list_sum (map snd (sorted_desc l)) = list_sum (map snd l).
Proof.
  induction l as [|x l IH]; [reflexivity |].
  cbn [sorted_desc]. rewrite insert_desc_sum, IH. reflexivity.
Qed.

Lemma firstn_sum_le (n : nat) (l : list nat) :
  list_sum (firstn n l) <= list_sum l.
Proof.
  rewrite <- (firstn_skipn n l) at 2. rewrite list_sum_app. lia.
Qed.

Lemma occurrences_le (xs : list K) (k : K) : occurrences eqb xs k <= length xs.
Proof. unfold occurrences. apply filter_length_le. Qed.

End CounterSums.

(** X10.  The counts of the top talkers add up to at most the number of user
    messages, and to exactly that number when fewer than 10 senders are
    listed, that is when no sender is cut off. *)
Theorem top_talkers_sum {U : UnicodeData} (v : pydantic) (records : list record)
    (res : WrappedResponse) :
  compute_stats v records = ok res ->
  list_sum (map tt_count (top_talkers res)) <= total_user_messages res
  /\ (length (top_talkers res) < 10 ->
      list_sum (map tt_count (top_talkers res)) = total_user_messages res).
Proof.
  intros H.
  destruct (compute_stats_totals v records res H) as (_ & Hu & _).
  destruct (user_msgs_of records) as [|u us] eqn:Eu.
  - assert (E : top_talkers res = []).
    { destruct v.
      - rewrite (compute_stats_empty_v1 records Eu) in H. now injection H as <-.
      - rewrite (compute_stats_empty_v2 records Eu) in H. discriminate H. }
    rewrite E, Hu. cbn. lia.
  - assert (Hne : user_msgs_of records <> []) by (rewrite Eu; discriminate).
    destruct (compute_stats_ok_inv v records res H Hne)
      as (quiet & bh & bd & name & pm & dt & _ & _ & _ & _ & _ & _ & _ & _ & _
          & Htop & _).
    rewrite Htop, map_map, Hu, <- Eu.
    rewrite (map_ext (fun x => tt_count (to_talker x)) snd (fun _ => eq_refl)).
    change (most_common 10 (Counter str_eqb (scan_senders records)))
      with (firstn 10 (sorted_desc (Counter str_eqb (scan_senders records)))).
    set (sorted := sorted_desc (Counter str_eqb (scan_senders records))).
    assert (Hsum : list_sum (map snd sorted) = length (user_msgs_of records)).
    { unfold sorted. rewrite sorted_desc_sum, Counter_sum.
      unfold scan_senders. apply length_map. }
    rewrite <- firstn_map. split.
    + rewrite <- Hsum. apply firstn_sum_le.
    + rewrite length_map, length_firstn. intros Hlt.
      rewrite firstn_all2 by (rewrite length_map; lia). exact Hsum.
Qed.

Lemma top_talkers_sum_witness :
  exists res,
    compute_stats (U := ascii_only_unicode) pydantic_v2 three_records = ok res
    /\ list_sum (map tt_count (top_talkers res)) = total_user_messages res.
Proof.
  eexists. split; [vm_compute; reflexivity |].
  refine (proj2 (top_talkers_sum (U := ascii_only_unicode) pydantic_v2
                   three_records _ _) _).
  - vm_compute. reflexivity.
  - vm_compute. lia.
Defined.

Section Bounds.
Context {U : UnicodeData}.

Lemma most_frequent_bounds {K} (eqb : K -> K -> bool)
    (eqb_eq : forall a b, eqb a b = true <-> a = b)
    (xs : list K) (k : K) (n : nat) :
  most_frequent eqb xs k n -> 1 <= n <= length xs.
Proof.
  intros (Hin & -> & _). split.
  - now apply occurrences_in.
  - apply occurrences_le.
Qed.

Lemma first_item_most_common {K} (eqb : K -> K -> bool)
    (eqb_eq : forall a b, eqb a b = true <-> a = b)
    (xs : list K) (m : K * nat) :
  xs <> [] ->
  first_item (most_common 1 (Counter eqb xs)) = ok m ->
  most_frequent eqb xs (fst m) (snd m).
Proof.
  intros Hne H.
  destruct (most_common_first eqb eqb_eq xs Hne) as (m' & Hm' & _ & Hf).
  rewrite H in Hm'. now injection Hm' as <-.
Qed.

End Bounds.

(** X11.  In a response for at least one user message, the count of the
    busiest hour, of the busiest day, of the peak month, of the quietest
    sender and of each top talker is at least 1 and at most the number of user
    messages; the night count is at most that number; and no top talker has a
    lower count than the quietest sender. *)
Theorem counts_within_total {U : UnicodeData} (v : pydantic)
    (records : list record) (res : WrappedResponse) :
  compute_stats v records = ok res -> user_msgs_of records <> [] ->
  let n := total_user_messages res in
  1 <= n
  /\ 1 <= bh_count (busiest_hour res) <= n
  /\ 1 <= bd_count (busiest_day_of_week res) <= n
  /\ 1 <= pm_count (peak_month res) <= n
  /\ no_count (night_owl res) <= n
  /\ Forall (fun t => 1 <= tt_count t <= n) (top_talkers res)
  /\ exists q, quietest_sender res = Some q
       /\ 1 <= tt_count q <= n
       /\ Forall (fun t => tt_count q <= tt_count t) (top_talkers res).
Proof.
  intros H Hne n.
  destruct (compute_stats_totals v records res H) as (_ & Hu & _).
  assert (Hmap : forall {B} (g : record -> B), map g (user_msgs_of records) <> []).
  { intros B g E. apply map_eq_nil in E. contradiction. }
  assert (Hlen : forall {B} (g : record -> B),
             length (map g (user_msgs_of records)) = n).
  { intros B g. subst n. rewrite Hu. apply length_map. }
  destruct (compute_stats_ok_inv v records res H Hne)
    as (quiet & bh & bd & name & pm & dt & Hq & Hbh & Hbd & _ & Hpm & _ & _ & _
        & _ & Htop & Hquiet & Ebh & Ebd & Epm & Eno).
  rewrite Ebh, Ebd, Epm, Eno, Htop, Hquiet. cbn [bh_count bd_count pm_count].
  split.
  { subst n. rewrite Hu. destruct (user_msgs_of records); [contradiction |].
    cbn. lia. }
  split.
  { rewrite <- (Hlen _ (fun r => hour (timestamp r))).
    apply (most_frequent_bounds Z.eqb Z.eqb_eq _ (fst bh)).
    apply (first_item_most_common Z.eqb Z.eqb_eq); [apply Hmap | exact Hbh]. }
  split.
  { rewrite <- (Hlen _ (fun r => weekday (timestamp r))).
    apply (most_frequent_bounds Z.eqb Z.eqb_eq _ (fst bd)).
    apply (first_item_most_common Z.eqb Z.eqb_eq); [apply Hmap | exact Hbd]. }
  split.
  { rewrite <- (Hlen _ (fun r => (year (timestamp r), month (timestamp r)))).
    apply (most_frequent_bounds pair_eqb pair_eqb_eq _ (fst pm)).
    apply (first_item_most_common pair_eqb pair_eqb_eq); [apply Hmap | exact Hpm]. }
  split.
  { subst n. rewrite Hu. apply filter_length_le. }
  destruct (most_common_ranking str_eqb str_eqb_eq 10 (scan_senders records)
              ltac:(discriminate)) as (_ & Hent & _ & _).
  destruct (py_min_first str_eqb str_eqb_eq (scan_senders records) (Hmap _ _))
    as (q' & Hq' & (Hqin & Hqn & Hleast)).
  rewrite Hq in Hq'. injection Hq' as <-.
  split.
  { apply Forall_map. eapply Forall_impl; [| exact Hent].
    intros [s c] [Hin Hc]. cbn [to_talker tt_count fst snd] in *. subst c.
    rewrite <- (Hlen _ sender). split.
    - now apply (occurrences_in str_eqb str_eqb_eq).
    - apply occurrences_le. }
  exists (to_talker quiet). split; [reflexivity |]. cbn [to_talker tt_count].
  split.
  { rewrite Hqn, <- (Hlen _ sender). split.
    - now apply (occurrences_in str_eqb str_eqb_eq).
    - apply occurrences_le. }
  apply Forall_map. eapply Forall_impl; [| exact Hent].
  intros [s c] [Hin Hc]. cbn [to_talker tt_count fst snd] in *. subst c.
  rewrite Hqn.
  destruct (list_eq_dec N.eq_dec s (fst quiet)) as [-> | Hdiff]; [lia |].
  destruct (Hleast s Hin Hdiff) as [Hlt | [Heq _]]; lia.
Qed.

Lemma counts_within_total_witness :
  user_msgs_of three_records <> []
  /\ exists res,
       compute_stats (U := ascii_only_unicode) pydantic_v2 three_records = ok res
       /\ 1 <= bh_count (busiest_hour res) <= total_user_messages res
       /\ no_count (night_owl res) <= total_user_messages res.
Proof.
  assert (H2 : user_msgs_of three_records <> []) by (vm_compute; discriminate).
  split; [exact H2 |].
  eexists. split; [vm_compute; reflexivity |].
  pose proof (counts_within_total (U := ascii_only_unicode) pydantic_v2
                three_records _ eq_refl H2) as (_ & Hb & _ & _ & Hn & _).
  split; [exact Hb | exact Hn].
Defined.

(** X12.  In a response for at least one user message the peak month is a
    month of 2025: its year is 2025, its month is between 1 and 12 and its
    label is the English name of that month followed by [ 2025]; and the
    busiest day is one of the seven names of [DOW_NAMES]. *)
Theorem peak_month_in_2025 {U : UnicodeData} (v : pydantic)
    (records : list record) (res : WrappedResponse) :
  compute_stats v records = ok res -> user_msgs_of records <> [] ->
  (exists m, (1 <= m <= 12)%Z
     /\ pm_year (peak_month res) = Some 2025%Z
     /\ pm_month (peak_month res) = Some m
     /\ pm_label (peak_month res) =
        Some (nth (Z.to_nat (m - 1)) MONTH_NAMES [] ++ py " 2025"))
  /\ exists name, bd_day (busiest_day_of_week res) = Some name
       /\ In name DOW_NAMES.
Proof.
  intros H Hne.
  assert (Hmap : forall {B} (g : record -> B), map g (user_msgs_of records) <> []).
  { intros B g E. apply map_eq_nil in E. contradiction. }
  destruct (compute_stats_ok_inv v records res H Hne)
    as (quiet & bh & bd & name & pm & dt & _ & _ & _ & Hname & Hpm & Hdt & _ & _
        & _ & _ & _ & _ & Ebd & Epm & _).
  rewrite Ebd, Epm. cbn [pm_year pm_month pm_label bd_day]. split.
  - pose proof (first_item_most_common pair_eqb pair_eqb_eq _ pm (Hmap _ _) Hpm)
      as (Hin & _).
    unfold scan_months in Hin. apply in_map_iff in Hin as (r & Er & Hr).
    apply in_user_msgs_of in Hr as (_ & Hy & _).
    unfold in_2025 in Hy. apply Z.eqb_eq in Hy.
    rewrite <- Er in *. cbn [fst snd] in *. rewrite Hy in *.
    unfold datetime_new in Hdt.
    match type of Hdt with
    | (if ?b then _ else _) = _ => destruct b eqn:Eok; [| discriminate Hdt]
    end.
    injection Hdt as <-.
    apply datetime_ok_month in Eok. cbn [month] in Eok.
    exists (month (timestamp r)). repeat split; try lia.
  - exists name. split; [reflexivity |]. eapply nth_error_In. exact Hname.
Qed.

Lemma peak_month_in_2025_witness :
  user_msgs_of three_records <> []
  /\ exists res,
       compute_stats (U := ascii_only_unicode) pydantic_v1 three_records = ok res
       /\ pm_year (peak_month res) = Some 2025%Z
       /\ pm_label (peak_month res) = Some (py "March 2025").
Proof.
  assert (H2 : user_msgs_of three_records <> []) by (vm_compute; discriminate).
  split; [exact H2 |].
  eexists. split; [vm_compute; reflexivity |].
  destruct (peak_month_in_2025 (U := ascii_only_unicode) pydantic_v1
              three_records _ eq_refl H2) as ((m & _ & Hy & _) & _).
  split; [exact Hy | reflexivity].
Defined.

(** ** The statistics see the user messages only *)

Lemma filter_idem {A} (f : A -> bool) (l : list A) :
  filter f (filter f l) = filter f l.
Proof.
  induction l as [|x l IH]; [reflexivity |].
  cbn [filter]. destruct (f x) eqn:E; [| exact IH].
  cbn [filter]. now rewrite E, IH.
Qed.

Lemma filter_neg_nil {A} (f : A -> bool) (l : list A) :
  filter f (filter (fun x => negb (f x)) l) = [].
Proof.
  induction l as [|x l IH]; [reflexivity |].
  cbn [filter]. destruct (f x) eqn:E; cbn [negb]; [exact IH |].
  cbn [filter]. now rewrite E.
Qed.

Lemma user_msgs_of_users (records : list record) :
  filter in_2025 (user_msgs_of records) = user_msgs_of records
  /\ user_msgs_of (user_msgs_of records) = user_msgs_of records
  /\ system_events_of (user_msgs_of records) = [].
Proof.
  assert (H1 : filter in_2025 (user_msgs_of records) = user_msgs_of records).
  { apply filter_all. apply Forall_forall. intros r Hr.
    now apply in_user_msgs_of in Hr as (_ & Hy & _). }
  split; [exact H1 |]. split.
  - rewrite (user_msgs_of_filter (user_msgs_of records)), H1.
    rewrite user_msgs_of_filter. apply filter_idem.
  - rewrite (system_events_of_filter (user_msgs_of records)), H1.
    rewrite user_msgs_of_filter. apply filter_neg_nil.
Qed.

(** X13.  The statistics are those of the user messages of the target year
    alone: the records of other years and the system events change nothing in
    a response but [total_records] and [total_system_events], and an error is
    the same with them and without. *)
Theorem stats_of_user_messages {U : UnicodeData} (v : pydantic)
    (records : list record) :
  compute_stats v records =
  map_result
    (with_totals (length (filter in_2025 records))
                 (length (system_events_of records)))
    (compute_stats v (user_msgs_of records)).
Proof.
  destruct (user_msgs_of_users records) as (H1 & H2 & H3).
  unfold compute_stats. rewrite !classify_classes, H1, H2, H3.
  destruct (length (user_msgs_of records) =? 0).
  - destruct v; reflexivity.
  - repeat
      match goal with
      | |- bind ?m _ = map_result _ (bind ?m _) => destruct m; cbn [bind]
      | |- (let '(_, _) := ?p in _) = _ => destruct p
      end; reflexivity.
Qed.

(** ** The empty response *)

(** X14.  A response has no user message exactly when the year filter and the
    classification leave none, and then it is the empty response, which only
    version 1 of the validation library lets through; with version 2 every
    response has a user message, a quietest sender and a busiest hour. *)
Theorem empty_response_only {U : UnicodeData} (v : pydantic)
    (records : list record) (res : WrappedResponse) :
  compute_stats v records = ok res ->
  (total_user_messages res = 0 <-> user_msgs_of records = [])
  /\ (total_user_messages res = 0 ->
      v = pydantic_v1
      /\ res = empty_response (length (system_events_of records)))
  /\ (v = pydantic_v2 ->
      1 <= total_user_messages res
      /\ quietest_sender res <> None
      /\ bh_hour (busiest_hour res) <> None).
Proof.
  intros H.
  destruct (compute_stats_totals v records res H) as (_ & Hu & _).
  assert (Hiff : total_user_messages res = 0 <-> user_msgs_of records = []).
  { rewrite Hu. apply length_zero_iff_nil. }
  split; [exact Hiff |]. split.
  - intros H0. apply Hiff in H0. destruct v.
    + rewrite (compute_stats_empty_v1 records H0) in H. injection H as <-. auto.
    + rewrite (compute_stats_empty_v2 records H0) in H. discriminate H.
  - intros ->.
    assert (Hne : user_msgs_of records <> []).
    { intros E. rewrite (compute_stats_empty_v2 records E) in H. discriminate H. }
    destruct (compute_stats_ok_inv _ records res H Hne)
      as (quiet & bh & bd & name & pm & dt & _ & _ & _ & _ & _ & _ & _ & _ & _
          & _ & Hquiet & Ebh & _).
    rewrite Hquiet, Ebh. cbn [bh_hour].
    split; [| split; discriminate].
    rewrite Hu. destruct (user_msgs_of records); [contradiction | cbn; lia].
Qed.

Lemma empty_response_only_witness :
  compute_stats (U := ascii_only_unicode) pydantic_v1 [bob_media; bob_added] =
  ok (empty_response 2)
  /\ user_msgs_of [bob_media; bob_added] = [].
Proof.
  assert (H : compute_stats (U := ascii_only_unicode) pydantic_v1
                [bob_media; bob_added] = ok (empty_response 2))
    by (vm_compute; reflexivity).
  split; [exact H |].
  apply (proj1 (empty_response_only (U := ascii_only_unicode) pydantic_v1
                  [bob_media; bob_added] (empty_response 2) H)).
  reflexivity.
Defined.

(** ** The most used word and the most used emoji *)

Section Content.
Context {U : UnicodeData}.

Lemma token_shape (text t : pystr) :
  In t (tokenize text) ->
  2 <= length t /\ ~ In t STOPWORDS
  /\ Forall (fun c => is_token_char c = true) t.
Proof.
  unfold tokenize. intros H. apply filter_In in H as [Hrun Hkeep].
  apply keep_token_spec in Hkeep as [Hstop Hlen].
  repeat split; try assumption.
  pose proof (findall_runs_maximal is_token_char (lower text) [] (Forall_nil _))
    as Hm.
  apply maximal_runs_chars in Hm. rewrite Forall_forall in Hm.
  now apply Hm.
Qed.

End Content.

(** X15.  The most used word of a response has at least 2 characters, all of
    them lower-case ASCII letters, digits or apostrophes, is no stop word and
    was counted at least once; the most used emoji is one code point of the
    ranges of the emoji pattern, so a sequence of several code points is never
    counted as one emoji. *)
Theorem most_used_shapes {U : UnicodeData} (v : pydantic)
    (records : list record) (res : WrappedResponse) :
  compute_stats v records = ok res ->
  (forall wc, most_used_word res = Some wc ->
     2 <= length (wc_word wc)
     /\ ~ In (wc_word wc) STOPWORDS
     /\ Forall (fun c => is_token_char c = true) (wc_word wc)
     /\ 1 <= wc_count wc)
  /\ (forall ec, most_used_emoji res = Some ec ->
        (exists c, ec_emoji ec = [c] /\ is_emoji c = true)
        /\ 1 <= ec_count ec).
Proof.
  intros H.
  destruct (user_msgs_of records) as [|u us] eqn:Eu.
  { destruct v.
    - rewrite (compute_stats_empty_v1 records Eu) in H. injection H as <-.
      split; intros ? E; discriminate E.
    - rewrite (compute_stats_empty_v2 records Eu) in H. discriminate H. }
  assert (Hne : user_msgs_of records <> []) by (rewrite Eu; discriminate).
  destruct (compute_stats_ok_inv v records res H Hne)
    as (quiet & bh & bd & name & pm & dt & _ & _ & _ & _ & _ & _ & _ & Hw & He & _).
  split.
  - intros wc Ewc.
    destruct (most_word_stat_spec records) as (w' & Hw' & Hspec).
    rewrite Hw in Hw'. injection Hw' as <-. rewrite Ewc in Hspec.
    destruct Hspec as (Hin & Hn & _).
    pose proof (occurrences_in str_eqb str_eqb_eq _ _ Hin) as Hpos.
    unfold scan_words in Hin. apply in_flat_map in Hin as (r & _ & Ht).
    destruct (token_shape _ _ Ht) as (H1 & H2 & H3).
    repeat split; try assumption. rewrite Hn. exact Hpos.
  - intros ec Eec.
    destruct (most_emoji_stat_spec records) as (e' & He' & Hspec).
    rewrite He in He'. injection He' as <-. rewrite Eec in Hspec.
    destruct Hspec as (Hin & Hn & _).
    pose proof (occurrences_in str_eqb str_eqb_eq _ _ Hin) as Hpos.
    unfold scan_emoji in Hin. apply in_flat_map in Hin as (r & _ & Ht).
    unfold EMOJI_RE_findall in Ht. apply in_map_iff in Ht as (c & Ec & Hc).
    apply filter_In in Hc as [_ Hc].
    split; [exists c; split; [now symmetry | exact Hc] |].
    rewrite Hn. exact Hpos.
Qed.

Lemma most_used_shapes_witness :
  exists res,
    compute_stats (U := ascii_only_unicode) pydantic_v2
      [with_message alice_hello (py "Hello hello the " ++ [10084; 128512; 128512]%N)]
    = ok res
    /\ most_used_word res = Some {| wc_word := py "hello"; wc_count := 2 |}
    /\ most_used_emoji res = Some {| ec_emoji := [128512%N]; ec_count := 2 |}
    /\ (forall wc, most_used_word res = Some wc -> 2 <= length (wc_word wc)).
Proof.
  eexists. split; [vm_compute; reflexivity |].
  split; [reflexivity |]. split; [reflexivity |].
  intros wc Hwc.
  refine (proj1 (proj1 (most_used_shapes (U := ascii_only_unicode) pydantic_v2
                          [with_message alice_hello
                             (py "Hello hello the "
                              ++ [10084; 128512; 128512]%N)]
                          _ _) wc Hwc)).
  vm_compute. reflexivity.
Defined.

(** ** The handler *)

Lemma endswith_true (s suffix : pystr) :
  endswith s suffix = true <-> exists stem, s = stem ++ suffix.
Proof.
  unfold endswith. rewrite andb_true_iff, Nat.leb_le, str_eqb_eq. split.
  - intros [Hle E].
    exists (firstn (length s - length suffix) s).
    rewrite <- E at 2. symmetry. apply firstn_skipn.
  - intros (stem & ->). rewrite length_app. split; [lia |].
    replace (length stem + length suffix - length suffix) with (length stem)
      by lia.
    rewrite skipn_app, skipn_all, Nat.sub_diag. reflexivity.
Qed.

(** X16.  The handler returns a response only for an upload whose name ends,
    once lower-cased, in [.txt], whose bytes are at most 5 MiB and decode as
    UTF-8 or, failing that, as UTF-16, and whose text gives at least one
    record; the response is then that of [compute_stats] on the records
    parsed.  The name is checked first and the size second: an upload with
    another name is refused with status 400 whatever its size, and a larger
    one with status 413 before any decoding. *)
Theorem wrapped_outcomes {U : UnicodeData} {C : Codecs} (v : pydantic)
    (filename : pystr) (raw : list N) :
  ((forall stem, lower filename <> stem ++ py ".txt") ->
   wrapped v filename raw = raise NOT_TXT)
  /\ ((exists stem, lower filename = stem ++ py ".txt") ->
      (MAX_BYTES < N.of_nat (length raw))%N ->
      wrapped v filename raw = raise TOO_LARGE)
  /\ forall res,
       wrapped v filename raw = ok res ->
       (exists stem, lower filename = stem ++ py ".txt")
       /\ (N.of_nat (length raw) <= MAX_BYTES)%N
       /\ exists text records,
            (decode_utf8 raw = Some text
             \/ (decode_utf8 raw = None /\ decode_utf16 raw = Some text))
            /\ parse_chat_text text = ok records
            /\ records <> []
            /\ compute_stats v records = ok res.
Proof.
  unfold wrapped.
  destruct (endswith (lower filename) (py ".txt")) eqn:Ee; cbn [negb].
  - apply endswith_true in Ee. split; [| split].
    + intros Hno. destruct Ee as (stem & E). contradiction (Hno stem E).
    + intros _ Hlt. apply N.ltb_lt in Hlt. now rewrite Hlt.
    + intros res H. split; [exact Ee |].
      destruct (MAX_BYTES <? N.of_nat (length raw))%N eqn:El;
        [discriminate H |].
      apply N.ltb_ge in El. split; [exact El |].
      assert (Hw : forall text,
                 wrapped_text v text = ok res ->
                 exists records,
                   parse_chat_text text = ok records /\ records <> []
                   /\ compute_stats v records = ok res).
      { intros text Hw. unfold wrapped_text in Hw.
        destruct (parse_chat_text text) as [records |]; [| discriminate Hw].
        cbn [bind] in Hw. destruct records as [|r records]; [discriminate Hw |].
        exists (r :: records). repeat split; [discriminate | exact Hw]. }
      destruct (decode_utf8 raw) as [text |] eqn:E8.
      * destruct (Hw text H) as (records & Hp & Hne & Hc).
        exists text, records. auto.
      * destruct (decode_utf16 raw) as [text |] eqn:E16; [| discriminate H].
        destruct (Hw text H) as (records & Hp & Hne & Hc).
        exists text, records. auto.
  - split; [reflexivity |]. split.
    + intros Hex. apply endswith_true in Hex. congruence.
    + intros res H. discriminate H.
Qed.

Lemma wrapped_outcomes_witness :
  wrapped (U := ascii_only_unicode) (C := ascii_codecs) pydantic_v2
    (py "Chat.TXT") example_chat <> raise NOT_TXT
  /\ (exists res,
        wrapped (U := ascii_only_unicode) (C := ascii_codecs) pydantic_v2
          (py "Chat.TXT") example_chat = ok res
        /\ exists stem,
             lower (U := ascii_only_unicode) (py "Chat.TXT") = stem ++ py ".txt")
  /\ wrapped (U := ascii_only_unicode) (C := ascii_codecs) pydantic_v2
       (py "chat.pdf") example_chat = raise NOT_TXT.
Proof.
  split; [vm_compute; discriminate |]. split.
  - eexists. split; [vm_compute; reflexivity |].
    refine (proj1 (proj2 (proj2 (wrapped_outcomes (U := ascii_only_unicode)
                                   (C := ascii_codecs) pydantic_v2
                                   (py "Chat.TXT") example_chat)) _ _)).
    vm_compute. reflexivity.
  - apply (proj1 (wrapped_outcomes (U := ascii_only_unicode)
                    (C := ascii_codecs) pydantic_v2 (py "chat.pdf") example_chat)).
    intros stem E.
    assert (He : endswith (lower (U := ascii_only_unicode) (py "chat.pdf"))
                          (py ".txt") = true)
      by (apply endswith_true; now exists stem).
    vm_compute in He. discriminate He.
Defined.

(** ** The longest message *)

(** X17.  The longest message of a response is taken from a record of the
    target year that is neither a system event nor a media placeholder; its
    length counts the whole body, its preview has the 200 first characters at
    most, and the preview is the body itself when the body has no line feed and
    at most 200 characters. *)
Theorem longest_message_origin {U : UnicodeData} (v : pydantic)
    (records : list record) (res : WrappedResponse) (lm : LongestMessage) :
  compute_stats v records = ok res -> longest_message res = Some lm ->
  exists lr,
    In lr records
    /\ in_2025 lr = true
    /\ is_system_event lr = false
    /\ is_media_message (message lr) = false
    /\ lm_sender lm = sender lr
    /\ lm_length_chars lm = length (message lr)
    /\ length (lm_preview lm) = Nat.min 200 (lm_length_chars lm)
    /\ (~ In LF (message lr) -> length (message lr) <= 200 ->
        lm_preview lm = message lr).
Proof.
  intros H Hlm.
  destruct (user_msgs_of records) as [|u us] eqn:Eu.
  { destruct v.
    - rewrite (compute_stats_empty_v1 records Eu) in H. injection H as <-.
      discriminate Hlm.
    - rewrite (compute_stats_empty_v2 records Eu) in H. discriminate H. }
  assert (Hne : user_msgs_of records <> []) by (rewrite Eu; discriminate).
  destruct (compute_stats_ok_inv v records res H Hne)
    as (quiet & bh & bd & name & pm & dt & _ & _ & _ & _ & _ & _ & Hl & _).
  destruct (longest_stat_spec (content_msgs records)) as (lm' & Hl' & Hspec).
  rewrite Hl in Hl'. injection Hl' as <-. rewrite Hlm in Hspec.
  destruct Hspec as (pre & lr & post & Heq & _ & _ & ->).
  assert (Hin : In lr (content_msgs records)) by (rewrite Heq; apply in_elt).
  unfold content_msgs in Hin. apply filter_In in Hin as [Hu Hm].
  apply negb_true_iff in Hm.
  apply in_user_msgs_of in Hu as (Hr & Hy & Hs).
  exists lr. cbn [longest_of lm_sender lm_length_chars lm_preview].
  repeat split; try assumption.
  - rewrite length_firstn, replace_char_one, length_map. reflexivity.
  - intros Hno Hlen. rewrite replace_char_one.
    rewrite firstn_all2 by (rewrite length_map; exact Hlen).
    rewrite <- (map_id (message lr)) at 2. apply map_ext_in.
    intros c Hc. destruct (c =? LF)%N eqn:E; [| reflexivity].
    apply N.eqb_eq in E. subst c. contradiction.
Qed.

Lemma longest_message_origin_witness :
  exists res lm,
    compute_stats (U := ascii_only_unicode) pydantic_v2 three_records = ok res
    /\ longest_message res = Some lm
    /\ lm_preview lm = py "hello"
    /\ exists lr, In lr three_records /\ lm_sender lm = sender lr
                  /\ is_media_message (message lr) = false.
Proof.
  eexists. eexists. split; [vm_compute; reflexivity |].
  split; [reflexivity |]. split; [reflexivity |].
  destruct (longest_message_origin (U := ascii_only_unicode) pydantic_v2
              three_records _ _ eq_refl eq_refl)
    as (lr & Hin & _ & _ & Hm & Hs & _).
  exists lr. auto.
Defined.

(** ** The order of the records *)

Lemma Permutation_filter_keeps {A} (f : A -> bool) (l l' : list A) :
  Permutation l l' -> Permutation (filter f l) (filter f l').
Proof.
  induction 1 as [| x l l' _ IH | x y l | l l' l'' _ IH1 _ IH2]; cbn [filter].
  - constructor.
  - destruct (f x); [now constructor | assumption].
  - destruct (f x), (f y); try apply Permutation_refl. apply perm_swap.
  - eapply perm_trans; eassumption.
Qed.

Lemma occurrences_perm {K} (eqb : K -> K -> bool) (xs ys : list K) (k : K) :
  Permutation xs ys -> occurrences eqb xs k = occurrences eqb ys k.
Proof.
  intros H. unfold occurrences. apply Permutation_length.
  now apply Permutation_filter_keeps.
Qed.

Lemma most_frequent_perm {K} (eqb : K -> K -> bool)
    (xs ys : list K) (k1 k2 : K) (n1 n2 : nat) :
  (forall a b : K, a = b \/ a <> b) ->
  Permutation xs ys ->
  most_frequent eqb xs k1 n1 -> most_frequent eqb ys k2 n2 -> n1 = n2.
Proof.
  intros Hdec Hp (Hin1 & -> & Hmax1) (Hin2 & -> & Hmax2).
  assert (Hle1 : occurrences eqb xs k2 <= occurrences eqb xs k1).
  { destruct (Hdec k2 k1) as [-> | Hd]; [lia |].
    assert (Hin : In k2 xs)
      by (eapply Permutation_in; [apply Permutation_sym; exact Hp | exact Hin2]).
    destruct (Hmax1 k2 Hin Hd) as [Hlt | [Heq _]]; lia. }
  assert (Hle2 : occurrences eqb ys k1 <= occurrences eqb ys k2).
  { destruct (Hdec k1 k2) as [-> | Hd]; [lia |].
    assert (Hin : In k1 ys) by (eapply Permutation_in; [exact Hp | exact Hin1]).
    destruct (Hmax2 k1 Hin Hd) as [Hlt | [Heq _]]; lia. }
  rewrite (occurrences_perm eqb xs ys k2 Hp) in Hle1.
  rewrite (occurrences_perm eqb xs ys k1 Hp) in *. lia.
Qed.

(** X18.  The counts do not depend on the order of the records: two lists with
    the same records in another order give the same totals, the same night
    count and the same counts for the busiest hour, the busiest day and the
    peak month; only the choice among keys of equal count can differ. *)
Theorem counts_order_free {U : UnicodeData} (v : pydantic)
    (records records' : list record) (res res' : WrappedResponse) :
  Permutation records records' ->
  compute_stats v records = ok res -> compute_stats v records' = ok res' ->
  total_records res = total_records res'
  /\ total_user_messages res = total_user_messages res'
  /\ total_system_events res = total_system_events res'
  /\ no_count (night_owl res) = no_count (night_owl res')
  /\ bh_count (busiest_hour res) = bh_count (busiest_hour res')
  /\ bd_count (busiest_day_of_week res) = bd_count (busiest_day_of_week res')
  /\ pm_count (peak_month res) = pm_count (peak_month res').
Proof.
  intros Hp H H'.
  assert (Hf : Permutation (filter in_2025 records) (filter in_2025 records'))
    by now apply Permutation_filter_keeps.
  assert (Hu : Permutation (user_msgs_of records) (user_msgs_of records')).
  { rewrite !user_msgs_of_filter. now apply Permutation_filter_keeps. }
  assert (Hs : Permutation (system_events_of records) (system_events_of records')).
  { rewrite !system_events_of_filter. now apply Permutation_filter_keeps. }
  destruct (compute_stats_totals v records res H) as (T1 & T2 & T3).
  destruct (compute_stats_totals v records' res' H') as (T1' & T2' & T3').
  rewrite T1, T2, T3, T1', T2', T3'.
  split; [now apply Permutation_length |].
  split; [now apply Permutation_length |].
  split; [now apply Permutation_length |].
  destruct (user_msgs_of records) as [|u us] eqn:Eu.
  { assert (Eu' : user_msgs_of records' = []) by now apply Permutation_nil.
    destruct v.
    - rewrite (compute_stats_empty_v1 records Eu) in H.
      rewrite (compute_stats_empty_v1 records' Eu') in H'.
      injection H as <-. injection H' as <-. repeat split.
    - rewrite (compute_stats_empty_v2 records Eu) in H. discriminate H. }
  rewrite <- Eu in Hu.
  assert (Hne : user_msgs_of records <> []) by (rewrite Eu; discriminate).
  assert (Hne' : user_msgs_of records' <> []).
  { intros E. rewrite E in Hu. apply Permutation_sym, Permutation_nil in Hu.
    contradiction. }
  assert (Hmap : forall {B} (g : record -> B), map g (user_msgs_of records) <> []).
  { intros B g E. apply map_eq_nil in E. contradiction. }
  assert (Hmap' : forall {B} (g : record -> B), map g (user_msgs_of records') <> []).
  { intros B g E. apply map_eq_nil in E. contradiction. }
  destruct (compute_stats_ok_inv v records res H Hne)
    as (quiet & bh & bd & name & pm & dt & _ & Hbh & Hbd & _ & Hpm & _ & _ & _
        & _ & _ & _ & Ebh & Ebd & Epm & Eno).
  destruct (compute_stats_ok_inv v records' res' H' Hne')
    as (quiet' & bh' & bd' & name' & pm' & dt' & _ & Hbh' & Hbd' & _ & Hpm' & _
        & _ & _ & _ & _ & _ & Ebh' & Ebd' & Epm' & Eno').
  rewrite Ebh, Ebd, Epm, Eno, Ebh', Ebd', Epm', Eno'.
  cbn [bh_count bd_count pm_count].
  split.
  { apply Permutation_length. now apply Permutation_filter_keeps. }
  split.
  { apply (most_frequent_perm Z.eqb (scan_hours records) (scan_hours records')
             (fst bh) (fst bh')).
    - intros a b. destruct (Z.eq_dec a b); auto.
    - unfold scan_hours. now apply Permutation_map.
    - apply (first_item_most_common Z.eqb Z.eqb_eq); [apply Hmap | exact Hbh].
    - apply (first_item_most_common Z.eqb Z.eqb_eq); [apply Hmap' | exact Hbh']. }
  split.
  { apply (most_frequent_perm Z.eqb (scan_weekdays records)
             (scan_weekdays records') (fst bd) (fst bd')).
    - intros a b. destruct (Z.eq_dec a b); auto.
    - unfold scan_weekdays. now apply Permutation_map.
    - apply (first_item_most_common Z.eqb Z.eqb_eq); [apply Hmap | exact Hbd].
    - apply (first_item_most_common Z.eqb Z.eqb_eq); [apply Hmap' | exact Hbd']. }
  apply (most_frequent_perm pair_eqb (scan_months records)
           (scan_months records') (fst pm) (fst pm')).
  - intros a b. destruct (pair_eqb a b) eqn:E.
    + left. now apply pair_eqb_eq.
    + right. intros ->. rewrite (proj2 (pair_eqb_eq b b) eq_refl) in E.
      discriminate E.
  - unfold scan_months. now apply Permutation_map.
  - apply (first_item_most_common pair_eqb pair_eqb_eq); [apply Hmap | exact Hpm].
  - apply (first_item_most_common pair_eqb pair_eqb_eq); [apply Hmap' | exact Hpm'].
Qed.

Lemma counts_order_free_witness :
  Permutation three_records (rev three_records)
  /\ exists res res',
       compute_stats (U := ascii_only_unicode) pydantic_v2 three_records = ok res
       /\ compute_stats (U := ascii_only_unicode) pydantic_v2 (rev three_records)
          = ok res'
       /\ bh_count (busiest_hour res) = bh_count (busiest_hour res')
       /\ map tt_sender (top_talkers res) <> map tt_sender (top_talkers res').
Proof.
  assert (Hp : Permutation three_records (rev three_records))
    by apply Permutation_rev.
  split; [exact Hp |].
  eexists. eexists. split; [vm_compute; reflexivity |].
  split; [vm_compute; reflexivity |]. split.
  - refine (proj1 (proj2 (proj2 (proj2 (proj2
              (counts_order_free (U := ascii_only_unicode) pydantic_v2
                 three_records (rev three_records) _ _ Hp eq_refl eq_refl)))))).
  - vm_compute. discriminate.
Defined.

(** * Media placeholders in the response *)

Lemma occurrences_insert {K} (eqb : K -> K -> bool)
    (eqb_eq : forall a b, eqb a b = true <-> a = b) (a b : list K) (k : K) :
  occurrences eqb (a ++ k :: b) k = S (occurrences eqb (a ++ b) k).
Proof.
  rewrite !occurrences_app.
  change (k :: b) with ([k] ++ b).
  rewrite occurrences_app, occurrences_single, (eqb_same eqb eqb_eq). lia.
Qed.

Section MediaUser.
Context {U : UnicodeData}.

Lemma content_msgs_media_user (xs ys : list record) (r : record) :
  in_2025 r = true -> is_system_event r = false ->
  is_media_message (message r) = true ->
  content_msgs (xs ++ r :: ys) = content_msgs (xs ++ ys).
Proof.
  intros Hy Hs Hm. unfold content_msgs.
  rewrite (user_msgs_of_user xs ys r Hy Hs), user_msgs_of_app, !filter_app.
  cbn [filter]. rewrite Hm. reflexivity.
Qed.

Lemma content_stats_empty (records : list record) :
  user_msgs_of records = [] ->
  longest_stat (content_msgs records) = ok None
  /\ most_word_stat (word_counter_of (content_msgs records)) = ok None
  /\ most_emoji_stat (emoji_counter_of (content_msgs records)) = ok None.
Proof.
  intros E. unfold content_msgs. rewrite E. repeat split.
Qed.

(** The three statistics of the content in a response. *)
Lemma content_stats_of (v : pydantic) (records : list record)
    (res : WrappedResponse) :
  compute_stats v records = ok res ->
  longest_stat (content_msgs records) = ok (longest_message res)
  /\ most_word_stat (word_counter_of (content_msgs records)) =
     ok (most_used_word res)
  /\ most_emoji_stat (emoji_counter_of (content_msgs records)) =
     ok (most_used_emoji res).
Proof.
  intros H. destruct (user_msgs_of records) as [|u us] eqn:Eu.
  - destruct v.
    + rewrite (compute_stats_empty_v1 records Eu) in H. injection H as <-.
      now apply content_stats_empty.
    + rewrite (compute_stats_empty_v2 records Eu) in H. discriminate H.
  - assert (Hne : user_msgs_of records <> []) by (rewrite Eu; discriminate).
    destruct (compute_stats_ok_inv v records res H Hne)
      as (quiet & bh & bd & name & pm & dt & _ & _ & _ & _ & _ & _
          & Hl & Hw & He & _).
    auto.
Qed.

End MediaUser.

Lemma counted_once_map {K B} (eqb : K -> K -> bool)
    (eqb_eq : forall a b, eqb a b = true <-> a = b)
    (g : B -> K) (us vs : list B) (u : B) :
  counted_once eqb (map g (us ++ u :: vs)) (map g (us ++ vs)) (g u).
Proof.
  intros k'. rewrite !map_app, map_cons, !occurrences_app.
  change (g u :: map g vs) with ([g u] ++ map g vs).
  rewrite occurrences_app, occurrences_single. lia.
Qed.

Section MediaAccounting.
Context {U : UnicodeData}.

Lemma scans_of_user (xs ys : list record) (r : record) :
  in_2025 r = true -> is_system_event r = false ->
  counted_once str_eqb (scan_senders (xs ++ r :: ys)) (scan_senders (xs ++ ys))
               (sender r)
  /\ counted_once Z.eqb (scan_hours (xs ++ r :: ys)) (scan_hours (xs ++ ys))
                  (hour (timestamp r))
  /\ counted_once Z.eqb (scan_weekdays (xs ++ r :: ys)) (scan_weekdays (xs ++ ys))
                  (weekday (timestamp r))
  /\ counted_once pair_eqb (scan_months (xs ++ r :: ys)) (scan_months (xs ++ ys))
                  (year (timestamp r), month (timestamp r)).
Proof.
  intros Hy Hs.
  unfold scan_senders, scan_hours, scan_weekdays, scan_months.
  rewrite (user_msgs_of_user xs ys r Hy Hs), user_msgs_of_app.
  repeat split.
  - apply (counted_once_map str_eqb str_eqb_eq sender).
  - apply (counted_once_map Z.eqb Z.eqb_eq (fun u => hour (timestamp u))).
  - apply (counted_once_map Z.eqb Z.eqb_eq (fun u => weekday (timestamp u))).
  - apply (counted_once_map pair_eqb pair_eqb_eq
             (fun u => (year (timestamp u), month (timestamp u)))).
Qed.

Lemma scans_of_content (xs ys : list record) (r : record) :
  in_2025 r = true -> is_system_event r = false ->
  is_media_message (message r) = true ->
  scan_words (xs ++ r :: ys) = scan_words (xs ++ ys)
  /\ scan_emoji (xs ++ r :: ys) = scan_emoji (xs ++ ys).
Proof.
  intros Hy Hs Hm. unfold scan_words, scan_emoji.
  now rewrite (content_msgs_media_user xs ys r Hy Hs Hm).
Qed.

Lemma night_count_of_user (xs ys : list record) (r : record) :
  in_2025 r = true -> is_system_event r = false ->
  length (filter (fun u => is_night (timestamp u)) (user_msgs_of (xs ++ r :: ys))) =
  (if is_night (timestamp r) then 1 else 0)
  + length (filter (fun u => is_night (timestamp u)) (user_msgs_of (xs ++ ys))).
Proof.
  intros Hy Hs.
  rewrite (user_msgs_of_user xs ys r Hy Hs), user_msgs_of_app, !filter_app.
  cbn [filter]. rewrite !length_app.
  destruct (is_night (timestamp r)); simpl; lia.
Qed.

Lemma totals_of_user (xs ys : list record) (r : record) :
  in_2025 r = true -> is_system_event r = false ->
  length (filter in_2025 (xs ++ r :: ys)) = S (length (filter in_2025 (xs ++ ys)))
  /\ length (user_msgs_of (xs ++ r :: ys)) = S (length (user_msgs_of (xs ++ ys)))
  /\ system_events_of (xs ++ r :: ys) = system_events_of (xs ++ ys).
Proof.
  intros Hy Hs. split; [| split].
  - rewrite !filter_app. cbn [filter]. rewrite Hy, !length_app. simpl. lia.
  - rewrite (user_msgs_of_user xs ys r Hy Hs), user_msgs_of_app, !length_app.
    simpl. lia.
  - rewrite !system_events_of_app. f_equal.
    change (r :: ys) with ([r] ++ ys). rewrite system_events_of_app.
    rewrite (system_events_of_filter [r]). simpl. rewrite Hy. simpl.
    rewrite Hs. reflexivity.
Qed.

(** C1, amended.  A record of the year-filtered set whose message is a media
    placeholder is a system event when the administrative pattern finds a match
    in its text, as it does in each of the placeholder strings: then it counts
    in [total_records] and [total_system_events] and in no statistic of the
    user messages.  When the pattern finds none, the record is a user message
    and the response counts it: one more record and one more user message;
    one more occurrence of its sender, hour, day of the week and month in the
    scans from which the top talkers (each with its count in the scan that
    holds the record, and its sender among them unless ten rank before it),
    the quietest sender, the busiest hour, the busiest day and the peak month
    are taken; one more night message when its hour is a night hour, with the
    percentage over the user messages that include it.  It is left out of
    the list the longest message, the words and the emoji are taken from:
    these three are as in the response without the record, and absent when no
    other user message has content. *)
Theorem media_placeholder_accounting (v : pydantic)
    (xs ys : list record) (r : record) :
  in_2025 r = true -> is_media_message (message r) = true ->
  (In (message r) MEDIA_PLACEHOLDERS -> is_system_event r = true)
  /\ (is_system_event r = true ->
      In r (system_events_of (xs ++ r :: ys))
      /\ user_msgs_of (xs ++ r :: ys) = user_msgs_of (xs ++ ys)
      /\ compute_stats v (xs ++ r :: ys) =
         map_result count_system_event (compute_stats v (xs ++ ys)))
  /\ (is_system_event r = false ->
      user_msgs_of (xs ++ r :: ys) = user_msgs_of xs ++ r :: user_msgs_of ys
      /\ user_non_media_of (user_msgs_of (xs ++ r :: ys)) =
         user_non_media_of (user_msgs_of (xs ++ ys))
      /\ counted_once str_eqb (scan_senders (xs ++ r :: ys))
                      (scan_senders (xs ++ ys)) (sender r)
      /\ counted_once Z.eqb (scan_hours (xs ++ r :: ys))
                      (scan_hours (xs ++ ys)) (hour (timestamp r))
      /\ counted_once Z.eqb (scan_weekdays (xs ++ r :: ys))
                      (scan_weekdays (xs ++ ys)) (weekday (timestamp r))
      /\ counted_once pair_eqb (scan_months (xs ++ r :: ys))
                      (scan_months (xs ++ ys))
                      (year (timestamp r), month (timestamp r))
      /\ scan_words (xs ++ r :: ys) = scan_words (xs ++ ys)
      /\ scan_emoji (xs ++ r :: ys) = scan_emoji (xs ++ ys)
      /\ (valid_records (xs ++ r :: ys) ->
          exists res,
            compute_stats v (xs ++ r :: ys) = ok res
            /\ total_records res = S (length (filter in_2025 (xs ++ ys)))
            /\ total_user_messages res = S (length (user_msgs_of (xs ++ ys)))
            /\ total_system_events res = length (system_events_of (xs ++ ys))
            /\ length (top_talkers res) <= 10
            /\ Forall (fun t =>
                         In (tt_sender t) (scan_senders (xs ++ r :: ys))
                         /\ tt_count t =
                            occurrences str_eqb (scan_senders (xs ++ r :: ys))
                                        (tt_sender t))
                      (top_talkers res)
            /\ (~ In (sender r) (map tt_sender (top_talkers res)) ->
                length (top_talkers res) = 10
                /\ Forall (fun t =>
                             ranked_before str_eqb (scan_senders (xs ++ r :: ys))
                                           (tt_sender t) (sender r))
                          (top_talkers res))
            /\ (exists q, quietest_sender res = Some q
                  /\ least_frequent str_eqb (scan_senders (xs ++ r :: ys))
                                    (tt_sender q) (tt_count q))
            /\ (exists h, bh_hour (busiest_hour res) = Some h
                  /\ most_frequent Z.eqb (scan_hours (xs ++ r :: ys)) h
                                   (bh_count (busiest_hour res)))
            /\ (exists d, bd_day (busiest_day_of_week res) =
                          nth_error DOW_NAMES (Z.to_nat d)
                  /\ most_frequent Z.eqb (scan_weekdays (xs ++ r :: ys)) d
                                   (bd_count (busiest_day_of_week res)))
            /\ (exists y m, pm_year (peak_month res) = Some y
                  /\ pm_month (peak_month res) = Some m
                  /\ most_frequent pair_eqb (scan_months (xs ++ r :: ys)) (y, m)
                                   (pm_count (peak_month res)))
            /\ no_count (night_owl res) =
               (if is_night (timestamp r) then 1 else 0)
               + length (filter (fun u => is_night (timestamp u))
                                (user_msgs_of (xs ++ ys)))
            /\ no_percent (night_owl res) =
               round2_percent (no_count (night_owl res))
                              (S (length (user_msgs_of (xs ++ ys))))
            /\ (forall res', compute_stats v (xs ++ ys) = ok res' ->
                  longest_message res = longest_message res'
                  /\ most_used_word res = most_used_word res'
                  /\ most_used_emoji res = most_used_emoji res')
            /\ (content_msgs (xs ++ ys) = [] ->
                  longest_message res = None
                  /\ most_used_word res = None
                  /\ most_used_emoji res = None))).
Proof.
  intros Hy Hm. split; [| split].
  - apply placeholders_are_system_events.
  - intros Hs. split; [| split].
    + apply in_system_events_of. split; [apply in_elt | auto].
    + now apply user_msgs_of_system_event.
    + now apply system_event_only_in_totals.
  - intros Hs.
    pose proof (user_msgs_of_user xs ys r Hy Hs) as Hu.
    pose proof (content_msgs_media_user xs ys r Hy Hs Hm) as Hc.
    destruct (scans_of_user xs ys r Hy Hs) as (Ks & Kh & Kd & Km).
    destruct (scans_of_content xs ys r Hy Hs Hm) as (Kw & Ke).
    destruct (totals_of_user xs ys r Hy Hs) as (Tr & Tu & Ts).
    split; [exact Hu |]. split; [exact Hc |].
    split; [exact Ks |]. split; [exact Kh |]. split; [exact Kd |].
    split; [exact Km |]. split; [exact Kw |]. split; [exact Ke |].
    intros Hv.
    set (R := xs ++ r :: ys) in *.
    assert (Hne : user_msgs_of R <> []).
    { rewrite Hu. intros E. apply app_eq_nil in E as [_ E]. discriminate E. }
    assert (Hmap : forall {B} (g : record -> B), map g (user_msgs_of R) <> []).
    { intros B g E. apply map_eq_nil in E. contradiction. }
    destruct (compute_stats_nonempty v R Hv Hne)
      as (quiet & bh & bd & name & pm & dt & lm & w & e
          & Hquiet & Hbh & Hbd & Hname & Hpm & Hdt & Hlm & Hw & He & Hres).
    eexists. split; [exact Hres |].
    cbn [total_records total_user_messages total_system_events
         top_talkers quietest_sender busiest_hour busiest_day_of_week
         peak_month night_owl longest_message most_used_word most_used_emoji
         bh_hour bh_count bd_day bd_count pm_year pm_month pm_count
         no_count no_percent].
    destruct (most_common_ranking str_eqb str_eqb_eq 10 (scan_senders R)
                ltac:(discriminate)) as (Hlen & Hent & _ & Hout).
    split; [exact Tr |]. split; [exact Tu |].
    split; [now rewrite Ts |].
    split; [rewrite length_map; exact Hlen |].
    split; [apply Forall_map; exact Hent |].
    split.
    { intros Hnot. rewrite map_map in Hnot. rewrite length_map.
      assert (Hin : In (sender r) (scan_senders R)).
      { unfold scan_senders. rewrite Hu, map_app. apply in_or_app. right.
        now left. }
      destruct (Hout (sender r) Hin Hnot) as [Hl Hf]. split; [exact Hl |].
      apply Forall_map. exact Hf. }
    split.
    { exists (to_talker quiet). split; [reflexivity |].
      destruct (py_min_first str_eqb str_eqb_eq (scan_senders R) (Hmap _ _))
        as (q' & Hq' & Hleast).
      rewrite Hquiet in Hq'. injection Hq' as <-. exact Hleast. }
    split.
    { exists (fst bh). split; [reflexivity |].
      exact (first_item_most_common Z.eqb Z.eqb_eq (scan_hours R) bh
               (Hmap _ _) Hbh). }
    split.
    { exists (fst bd). split; [symmetry; exact Hname |].
      exact (first_item_most_common Z.eqb Z.eqb_eq (scan_weekdays R) bd
               (Hmap _ _) Hbd). }
    split.
    { exists (fst (fst pm)), (snd (fst pm)).
      split; [reflexivity |]. split; [reflexivity |].
      pose proof (first_item_most_common pair_eqb pair_eqb_eq (scan_months R) pm
                    (Hmap _ _) Hpm) as Hmost.
      destruct pm as [[y mo] c]. exact Hmost. }
    split; [now apply night_count_of_user |].
    split.
    { subst R. rewrite (night_count_of_user xs ys r Hy Hs), Tu. reflexivity. }
    split.
    { intros res' Hres'.
      destruct (content_stats_of v (xs ++ ys) res' Hres') as (Hl' & Hw' & He').
      rewrite Hc in Hlm, Hw, He.
      rewrite Hlm in Hl'. rewrite Hw in Hw'. rewrite He in He'.
      injection Hl' as <-. injection Hw' as <-. injection He' as <-.
      auto. }
    intros Hempty.
    rewrite Hc, Hempty in Hlm, Hw, He.
    cbn in Hlm, Hw, He.
    injection Hlm as <-. injection Hw as <-. injection He as <-. auto.
Qed.

End MediaAccounting.

Lemma media_placeholder_accounting_witness :
  (in_2025 carol_marked_media = true
   /\ is_media_message (message carol_marked_media) = true
   /\ is_system_event carol_marked_media = false
   /\ valid_records ([alice_hello] ++ carol_marked_media :: [bob_media])
   /\ user_msgs_of ([alice_hello] ++ carol_marked_media :: [bob_media]) =
      [alice_hello; carol_marked_media]
   /\ user_non_media_of
        (user_msgs_of ([alice_hello] ++ carol_marked_media :: [bob_media])) =
      [alice_hello]
   /\ exists res,
        compute_stats (U := ascii_only_unicode) pydantic_v2
          ([alice_hello] ++ carol_marked_media :: [bob_media]) = ok res
        /\ total_records res = 3
        /\ total_user_messages res = 2
        /\ total_system_events res = 1
        /\ no_count (night_owl res) = 2
        /\ no_percent (night_owl res) = round2_percent 2 2
        /\ top_talkers res =
           [{| tt_sender := py "Alice"; tt_count := 1 |};
            {| tt_sender := py "Carol"; tt_count := 1 |}]
        /\ busiest_hour res = {| bh_hour := Some 23%Z; bh_count := 1 |}
        /\ pm_month (peak_month res) = Some 3%Z
        /\ option_map lm_sender (longest_message res) = Some (py "Alice")
        /\ most_used_word res = Some {| wc_word := py "hello"; wc_count := 1 |}
        /\ most_used_emoji res = None)
  /\ (in_2025 bob_media = true
      /\ is_media_message (message bob_media) = true
      /\ is_system_event bob_media = true
      /\ user_msgs_of ([alice_hello] ++ bob_media :: []) = [alice_hello]
      /\ compute_stats (U := ascii_only_unicode) pydantic_v2
           ([alice_hello] ++ bob_media :: []) =
         map_result count_system_event
           (compute_stats (U := ascii_only_unicode) pydantic_v2
              ([alice_hello] ++ []))).
Proof.
  split.
  - assert (H1 : in_2025 carol_marked_media = true) by reflexivity.
    assert (H2 : is_media_message (message carol_marked_media) = true)
      by (vm_compute; reflexivity).
    assert (H3 : is_system_event carol_marked_media = false)
      by (vm_compute; reflexivity).
    assert (H4 : valid_records
                   ([alice_hello] ++ carol_marked_media :: [bob_media]))
      by (repeat constructor).
    destruct (media_placeholder_accounting (U := ascii_only_unicode) pydantic_v2
                [alice_hello] [bob_media] carol_marked_media H1 H2)
      as (_ & _ & H).
    destruct (H H3) as (Hu & Hn & _ & _ & _ & _ & _ & _ & Hex).
    destruct (Hex H4)
      as (res & Hres & Tr & Tu & Ts & _ & _ & _ & _ & _ & _ & _ & Nc & Np & _).
    split; [exact H1 |]. split; [exact H2 |]. split; [exact H3 |].
    split; [exact H4 |]. split; [exact Hu |]. split; [exact Hn |].
    exists res. split; [exact Hres |].
    split; [exact Tr |]. split; [exact Tu |]. split; [exact Ts |].
    split; [exact Nc |].
    split; [rewrite Np, Nc; reflexivity |].
    vm_compute in Hres. injection Hres as <-.
    repeat split.
  - assert (H1 : in_2025 bob_media = true) by reflexivity.
    assert (H2 : is_media_message (message bob_media) = true)
      by (vm_compute; reflexivity).
    assert (H3 : is_system_event bob_media = true)
      by (vm_compute; reflexivity).
    destruct (media_placeholder_accounting (U := ascii_only_unicode) pydantic_v2
                [alice_hello] [] bob_media H1 H2)
      as (_ & H & _).
    destruct (H H3) as (_ & Hu & Hc).
    repeat split; assumption.
Defined.
